(** * Per-agent call gate and completion watcher of the OmniDim proxy

    A shallow embedding of [Backend/routes/omnidimProxy.js] (the lock table
    [agentLocks], [releaseAgentLock], [startCompletionWatcher] and the
    inbound routes) and of [waitForCallCompletion] in
    [AiVoiceHragent/src/components/MainFile.jsx].

    Conventions of the embedding.
    - A JavaScript string is a [string]; each [ascii] stands for one code
      unit in the range 0..255 (the Latin-1 part of UTF-16).
    - [Date.now()] is an integer number of milliseconds, handed to every
      synchronous segment of code by the event that starts it.
    - An [await] splits a function into segments; what runs between two
      segments is decided by the event loop ([step] below). *)

From Stdlib Require Import ZArith String Ascii List Bool Lia.
From Stdlib Require Import DecimalString.
From stdpp Require Import base option gmap strings list fin_maps.
Import ListNotations.

Local Open Scope string_scope.
Local Open Scope Z_scope.

(** ** JavaScript values and strings *)

Module Js.

(** The JSON scalars that reach the code as field values. Numbers are the
    integer-valued ones. *)
Inductive jsval :=
| JUndefined
| JNull
| JBool (b : bool)
| JNum (n : Z)
| JStr (s : string).

Definition str_empty (s : string) : bool :=
  match s with EmptyString => true | String _ _ => false end.

(** ToBoolean *)
Definition truthy (v : jsval) : bool :=
  match v with
  | JUndefined | JNull => false
  | JBool b => b
  | JNum n => negb (n =? 0)
  | JStr s => negb (str_empty s)
  end.

(** [a || b] *)
Definition or_ (a b : jsval) : jsval := if truthy a then a else b.

(** [a ?? b] *)
Definition coalesce (a b : jsval) : jsval :=
  match a with
  | JUndefined | JNull => b
  | _ => a
  end.

(** [String(v)] *)
Definition String_ (v : jsval) : string :=
  match v with
  | JUndefined => "undefined"
  | JNull => "null"
  | JBool true => "true"
  | JBool false => "false"
  | JNum n => NilZero.string_of_int (Z.to_int n)
  | JStr s => s
  end.

Definition code (c : ascii) : N := N_of_ascii c.

Definition is_upper (c : ascii) : bool :=
  let n := code c in
  ((65 <=? n) && (n <=? 90) ||
   (192 <=? n) && (n <=? 222) && negb (n =? 215))%N.

Definition lower_char (c : ascii) : ascii :=
  if is_upper c then ascii_of_N (code c + 32) else c.

(** [s.toLowerCase()] *)
Fixpoint toLowerCase (s : string) : string :=
  match s with
  | EmptyString => EmptyString
  | String c r => String (lower_char c) (toLowerCase r)
  end.

(** WhiteSpace and LineTerminator code units below 256: TAB, LF, VT, FF,
    CR, SP and NBSP. *)
Definition is_ws (c : ascii) : bool :=
  let n := code c in
  ((9 <=? n) && (n <=? 13) || (n =? 32) || (n =? 160))%N.

Fixpoint trimStart (s : string) : string :=
  match s with
  | EmptyString => EmptyString
  | String c r => if is_ws c then trimStart r else s
  end.

Fixpoint trimEnd (s : string) : string :=
  match s with
  | EmptyString => EmptyString
  | String c r =>
      match trimEnd r with
      | EmptyString => if is_ws c then EmptyString else String c EmptyString
      | r' => String c r'
      end
  end.

(** [s.trim()] *)
Definition trim (s : string) : string := trimEnd (trimStart s).

Fixpoint all_ws (s : string) : bool :=
  match s with
  | EmptyString => true
  | String c r => is_ws c && all_ws r
  end.

(** [s.startsWith(p)] *)
Fixpoint startsWith (p s : string) : bool :=
  match p, s with
  | EmptyString, _ => true
  | String a p', String b s' => Ascii.eqb a b && startsWith p' s'
  | String _ _, EmptyString => false
  end.

(** [s.includes(p)] *)
Fixpoint includes (p s : string) : bool :=
  startsWith p s ||
  match s with
  | EmptyString => false
  | String _ s' => includes p s'
  end.

(** [new RegExp(p, 'i').test(s)] for a pattern [p] of literal ASCII
    characters. *)
Definition test_i (p s : string) : bool :=
  includes (toLowerCase p) (toLowerCase s).

(** [s.split(' ')] *)
Fixpoint split_sp (acc s : string) : list string :=
  match s with
  | EmptyString => [acc]
  | String c r =>
      if Ascii.eqb c " "%char then acc :: split_sp "" r
      else split_sp (acc +:+ String c "") r
  end.

Definition split_space (s : string) : list string := split_sp "" s.

End Js.

Import Js.

(** ** The status vocabulary (omnidimProxy.js, lines 14-22) *)

Definition FINAL_STATUSES : gset string :=
  list_to_set
    [ "completed"; "failed"; "busy"; "no-answer"; "no_answer"; "not_answered";
      "canceled"; "cancelled"; "hangup"; "hang_up"; "ended";
      "disconnected"; "finished"; "complete"; "completed_successfully" ].

Definition ONGOING_STATUSES : gset string :=
  list_to_set
    [ "in_progress"; "in-progress"; "ringing"; "dialing"; "connected"; "live";
      "ongoing"; "active"; "answer"; "answered"; "talking" ].

(** [set.has(s)] *)
Definition has (set : gset string) (s : string) : bool := bool_decide (s ∈ set).

(** ** Call records returned by the provider *)

(** The fields of a call record that the watchers read; an absent field is
    [JUndefined]. [artifact_recordingUrl] is [artifact?.recordingUrl]. *)
Record call_record := {
  id : jsval;
  call_log_id : jsval;
  call_status : jsval;
  status : jsval;
  state : jsval;
  callStatus : jsval;
  final_status : jsval;
  recording_url : jsval;
  recordingUrl : jsval;
  artifact_recordingUrl : jsval;
  ended_at : jsval;
  end_time : jsval;
  duration : jsval;
}.

Definition no_fields : call_record :=
  {| id := JUndefined; call_log_id := JUndefined; call_status := JUndefined;
     status := JUndefined; state := JUndefined; callStatus := JUndefined;
     final_status := JUndefined; recording_url := JUndefined;
     recordingUrl := JUndefined; artifact_recordingUrl := JUndefined;
     ended_at := JUndefined; end_time := JUndefined; duration := JUndefined |}.

(** [String(raw || '').toLowerCase().trim()] *)
Definition normalize (raw : jsval) : string :=
  trim (toLowerCase (String_ (or_ raw (JStr "")))).

(** Line 57: the status token of a detail record. *)
Definition status_of (d : call_record) : string :=
  normalize (coalesce (coalesce (call_status d) (status d)) (state d)).

(** Line 58: [hasEndArtifacts]. *)
Definition hasEndArtifacts (d : call_record) : bool :=
  truthy (or_ (or_ (or_ (recording_url d) (ended_at d)) (end_time d)) (duration d)).

(** Line 62: the test that marks the call as having been active. *)
Definition is_ongoing (st : string) : bool :=
  negb (str_empty st) && has ONGOING_STATUSES st.

(** Line 104: the test that releases the lock. *)
Definition is_final (st : string) (artifacts : bool) : bool :=
  has FINAL_STATUSES st || artifacts.

Inductive CallStatus := Unknown | Ongoing | Final.

(** The watcher's decision on one polled record, read off the two tests
    above: the release test decides first. *)
Definition classify_norm (st : string) (artifacts : bool) : CallStatus :=
  if is_final st artifacts then Final
  else if is_ongoing st then Ongoing
  else Unknown.

(** Classification of a raw status string as the provider sends it. *)
Definition classify (raw : string) (artifacts : bool) : CallStatus :=
  classify_norm (normalize (JStr raw)) artifacts.


(** ** Provider exchanges *)

(** What an axios call rejects with: [e.response?.status], [e.code] and
    [e.message]. *)
Record axios_error := {
  response_status : jsval;
  err_code : jsval;
  message : jsval;
}.

Inductive outcome (A : Type) :=
| Resolved (data : A)
| Rejected (e : axios_error).
Arguments Resolved {A} data.
Arguments Rejected {A} e.

(** [resp.data] of the detail endpoint: no object at all, or an object with
    its own fields and possibly an object under [call_log_data]. *)
Inductive detail_data :=
| DNone
| DObj (top : call_record) (nested : option call_record).

(** Lines 55-56: unwrap the envelope. *)
Definition unwrap (d : detail_data) : call_record :=
  match d with
  | DNone => no_fields
  | DObj top None => top
  | DObj _ (Some inner) => inner
  end.

(** [listResp.data]: an array, an object with an array under
    [call_log_data], or anything else. *)
Inductive list_data :=
| LArray (items : list call_record)
| LWrapped (items : list call_record)
| LOther.

(** Lines 84-86: the entry of the list that carries the call's id. *)
Definition find_match (callLogId : jsval) (d : list_data) : option call_record :=
  match d with
  | LArray items | LWrapped items =>
      find (fun it => String.eqb (String_ (id it)) (String_ callLogId)
                      || String.eqb (String_ (call_log_id it)) (String_ callLogId))
           items
  | LOther => None
  end.

(** Line 88: the status token of a list entry. *)
Definition list_status_of (m : call_record) : string :=
  normalize (coalesce (coalesce (call_status m) (status m)) (state m)).

(** Line 111 and line 114. *)
Definition error_code (e : axios_error) : jsval :=
  or_ (or_ (response_status e) (err_code e)) (message e).

Definition is5xx (e : axios_error) : bool :=
  match response_status e with
  | JNum n => (500 <=? n) && (n <? 600)
  | _ => false
  end
  || existsb (fun p => test_i p (String_ (error_code e)))
       [ "ECONN"; "ETIMEDOUT"; "ENET"; "EAI_AGAIN"; "Bad Gateway"; "Gateway" ].

(** [response.data] of the provider's dispatch endpoint. *)
Record dispatch_data := {
  dd_call_log_id : jsval;
  dd_id : jsval;
  dd_call_id : jsval;
}.

(** ** The process state *)

(** An entry of [agentLocks]. An absent property reads [JUndefined] or
    [None]. *)
Record Lock := {
  currentCallId : jsval;
  startedAt : option Z;
  timer : option nat;
  interval : option nat;
}.

(** The object [{}]. *)
Definition empty_obj : Lock :=
  {| currentCallId := JUndefined; startedAt := None; timer := None; interval := None |}.

(** What an armed timer runs when it fires. *)
Inductive callback :=
| CbTimeout (agentId : string)   (* line 48 *)
| CbNoId (agentKey : string)     (* line 208 *)
| CbPoll (w : nat).              (* line 50, the closure of watcher [w] *)

Record Timer := {
  cb : callback;
  delay : Z;
  armedAt : Z;
  repeats : bool;
}.

Definition MAX_WATCH_MS : Z := 10 * 60 * 1000.
Definition INTERVAL_MS : Z := 1000.

(** The variables a call of [startCompletionWatcher] closes over
    (lines 34-44). *)
Record Watcher := {
  agentId : string;
  callLogId : jsval;
  token : string;
  w_startedAt : Z;
  lastStatus : option string;
  startLogged : bool;
  seenOngoing : bool;
  seenOngoingAt : Z;
  lastListCheckAt : Z;
  consecutiveErrors : Z;
  lastSuccessAt : Z;
}.

(** Where a run of the interval callback is suspended, with the block-local
    constants it still needs. *)
Inductive tick_stage :=
| AwaitDetail                                   (* line 52 *)
| AwaitList (status : string) (artifacts : bool)  (* line 81 *)
| AwaitListOnError (was5xx : bool).             (* line 119 *)

Record Tick := {
  t_watcher : nat;
  t_stage : tick_stage;
}.

(** A dispatch handler suspended at line 183. *)
Record Dispatch := {
  d_agentKey : string;
  d_token : string;
}.

Inductive reply_body :=
| BNoToken
| BCallInProgress (agent_id : string) (current_call_id : jsval)
| BProvider (data : dispatch_data)
| BError (e : axios_error)
| BReleased (ok : bool) (agent_id : string).

Record Reply := {
  http_status : Z;
  body : reply_body;
}.

Record Sys := {
  agentLocks : gmap string Lock;
  timers : gmap nat Timer;
  watchers : gmap nat Watcher;
  ticks : gmap nat Tick;
  dispatches : gmap nat Dispatch;
  fresh : nat;
  released : list (string * string);
  outbox : list Reply;
}.

Definition boot : Sys :=
  {| agentLocks := ∅; timers := ∅; watchers := ∅; ticks := ∅; dispatches := ∅;
     fresh := 0%nat; released := []; outbox := [] |}.

Definition set_agentLocks (f : gmap string Lock -> gmap string Lock) (s : Sys) : Sys :=
  {| agentLocks := f (agentLocks s); timers := timers s; watchers := watchers s;
     ticks := ticks s; dispatches := dispatches s; fresh := fresh s;
     released := released s; outbox := outbox s |}.

Definition set_timers (f : gmap nat Timer -> gmap nat Timer) (s : Sys) : Sys :=
  {| agentLocks := agentLocks s; timers := f (timers s); watchers := watchers s;
     ticks := ticks s; dispatches := dispatches s; fresh := fresh s;
     released := released s; outbox := outbox s |}.

Definition set_watchers (f : gmap nat Watcher -> gmap nat Watcher) (s : Sys) : Sys :=
  {| agentLocks := agentLocks s; timers := timers s; watchers := f (watchers s);
     ticks := ticks s; dispatches := dispatches s; fresh := fresh s;
     released := released s; outbox := outbox s |}.

Definition set_ticks (f : gmap nat Tick -> gmap nat Tick) (s : Sys) : Sys :=
  {| agentLocks := agentLocks s; timers := timers s; watchers := watchers s;
     ticks := f (ticks s); dispatches := dispatches s; fresh := fresh s;
     released := released s; outbox := outbox s |}.

Definition set_dispatches (f : gmap nat Dispatch -> gmap nat Dispatch) (s : Sys) : Sys :=
  {| agentLocks := agentLocks s; timers := timers s; watchers := watchers s;
     ticks := ticks s; dispatches := f (dispatches s); fresh := fresh s;
     released := released s; outbox := outbox s |}.

Definition bump (s : Sys) : Sys :=
  {| agentLocks := agentLocks s; timers := timers s; watchers := watchers s;
     ticks := ticks s; dispatches := dispatches s; fresh := S (fresh s);
     released := released s; outbox := outbox s |}.

Definition log_release (agent reason : string) (s : Sys) : Sys :=
  {| agentLocks := agentLocks s; timers := timers s; watchers := watchers s;
     ticks := ticks s; dispatches := dispatches s; fresh := fresh s;
     released := (agent, reason) :: released s; outbox := outbox s |}.

Definition send (r : Reply) (s : Sys) : Sys :=
  {| agentLocks := agentLocks s; timers := timers s; watchers := watchers s;
     ticks := ticks s; dispatches := dispatches s; fresh := fresh s;
     released := released s; outbox := r :: outbox s |}.

(** [clearInterval(h)] / [clearTimeout(h)] behind [if (h)]. *)
Definition clear (h : option nat) (ts : gmap nat Timer) : gmap nat Timer :=
  match h with
  | Some i => delete i ts
  | None => ts
  end.

(** Lines 24-32. The log line is kept as the pair (agent, reason). *)
Definition releaseAgentLock (agentId reason : string) (s : Sys) : Sys :=
  let s1 :=
    match agentLocks s !! agentId with
    | Some lock => set_timers (fun ts => clear (timer lock) (clear (interval lock) ts)) s
    | None => s
    end in
  log_release agentId reason (set_agentLocks (delete agentId) s1).

(** [setTimeout] / [setInterval]: arm a timer under a new handle. *)
Definition arm (t : Timer) (s : Sys) : nat * Sys :=
  (fresh s, bump (set_timers (insert (fresh s) t) s)).

(** Lines 34-148, the synchronous body of [startCompletionWatcher]; the
    interval callback itself is [tick_detail] and [tick_list] below. The
    closure is stored under the interval's handle. *)
Definition startCompletionWatcher (agentId : string) (callLogId : jsval)
    (token : string) (now : Z) (s : Sys) : Sys :=
  let '(timer, s1) :=
    arm {| cb := CbTimeout agentId; delay := MAX_WATCH_MS; armedAt := now; repeats := false |} s in
  let '(interval, s2) :=
    arm {| cb := CbPoll (fresh s1); delay := INTERVAL_MS; armedAt := now; repeats := true |} s1 in
  let w := {| agentId := agentId; callLogId := callLogId; token := token;
              w_startedAt := now; lastStatus := None; startLogged := false;
              seenOngoing := false; seenOngoingAt := 0; lastListCheckAt := 0;
              consecutiveErrors := 0; lastSuccessAt := now |} in
  let s3 := set_watchers (insert interval w) s2 in
  set_agentLocks
    (insert agentId {| currentCallId := callLogId; startedAt := Some now;
                       timer := Some timer; interval := Some interval |}) s3.

(** ** The interval callback (lines 50-144) *)

Definition with_poll (w : Watcher) (seen : bool) (seenAt listAt errors successAt : Z)
    (logged : bool) : Watcher :=
  {| agentId := agentId w; callLogId := callLogId w; token := token w;
     w_startedAt := w_startedAt w; lastStatus := lastStatus w;
     startLogged := logged; seenOngoing := seen; seenOngoingAt := seenAt;
     lastListCheckAt := listAt; consecutiveErrors := errors;
     lastSuccessAt := successAt |}.

Definition with_lastStatus (w : Watcher) (st : string) : Watcher :=
  {| agentId := agentId w; callLogId := callLogId w; token := token w;
     w_startedAt := w_startedAt w; lastStatus := Some st;
     startLogged := startLogged w; seenOngoing := seenOngoing w;
     seenOngoingAt := seenOngoingAt w; lastListCheckAt := lastListCheckAt w;
     consecutiveErrors := consecutiveErrors w; lastSuccessAt := lastSuccessAt w |}.

(** Lines 55-78: from the detail response up to the decision to cross-check.
    Returns the updated closure, the block-local [status] and
    [hasEndArtifacts], and whether the list is fetched next. *)
Definition poll_ok (now : Z) (d : detail_data) (w : Watcher)
    : Watcher * string * bool * bool :=
  let callData := unwrap d in
  let status := status_of callData in
  let art := hasEndArtifacts callData in
  let on := is_ongoing status in
  let seen := if on && negb (seenOngoing w) then true else seenOngoing w in
  let seenAt := if on && (seenOngoingAt w =? 0) then now else seenOngoingAt w in
  let cross := seen && negb (seenAt =? 0) && (5000 <=? now - seenAt)
               && (3000 <=? now - lastListCheckAt w) in
  let listAt := if cross then now else lastListCheckAt w in
  (with_poll w seen seenAt listAt 0 now true, status, art, cross).

(** Line 105. *)
Definition finalStatusLabel (status : string) (art : bool) : string :=
  if negb (str_empty status) then status
  else if art then "ended_by_artifacts" else "unknown".

(** Lines 100-108: the end of the try block. *)
Definition tick_finish (wid : nat) (status : string) (art : bool) (s : Sys) : Sys :=
  match watchers s !! wid with
  | Some w =>
      let changed :=
        match lastStatus w with
        | Some l => negb (String.eqb status l)
        | None => true
        end in
      let s1 := if changed then set_watchers (insert wid (with_lastStatus w status)) s else s in
      if is_final status art
      then releaseAgentLock (agentId w)
             (String.append "final_status:" (finalStatusLabel status art)) s1
      else s1
  | None => s
  end.

(** Lines 110-116: the catch block up to the decision to cross-check. *)
Definition poll_err (now : Z) (e : axios_error) (w : Watcher) : Watcher * bool * bool :=
  let errors := consecutiveErrors w + 1 in
  let bad := is5xx e in
  let cross := seenOngoing w && (3000 <=? now - lastListCheckAt w) && bad in
  let listAt := if cross then now else lastListCheckAt w in
  (with_poll w (seenOngoing w) (seenOngoingAt w) listAt errors (lastSuccessAt w)
     (startLogged w), bad, cross).

(** The detail request of tick [tid] settles. *)
Definition tick_detail (tid : nat) (now : Z) (out : outcome detail_data) (s : Sys) : Sys :=
  match ticks s !! tid with
  | Some {| t_watcher := wid; t_stage := AwaitDetail |} =>
      match watchers s !! wid with
      | Some w =>
          match out with
          | Resolved d =>
              let '(w', status, art, cross) := poll_ok now d w in
              let s1 := set_watchers (insert wid w') s in
              if cross
              then set_ticks (insert tid {| t_watcher := wid; t_stage := AwaitList status art |}) s1
              else tick_finish wid status art (set_ticks (delete tid) s1)
          | Rejected e =>
              let '(w', bad, cross) := poll_err now e w in
              let s1 := set_watchers (insert wid w') s in
              if cross
              then set_ticks (insert tid {| t_watcher := wid; t_stage := AwaitListOnError bad |}) s1
              else set_ticks (delete tid) s1
          end
      | None => s
      end
  | _ => s
  end.

(** Lines 84-93 and 122-131: release when the list shows a Final status. *)
Definition list_release (prefix : string) (w : Watcher) (d : list_data) (s : Sys) : Sys :=
  match find_match (callLogId w) d with
  | Some m =>
      let listStatus := list_status_of m in
      if has FINAL_STATUSES listStatus
      then releaseAgentLock (agentId w) (String.append prefix listStatus) s
      else s
  | None => s
  end.

(** Lines 133-138, inside [catch (e3)]. *)
Definition emergency_unlock (now : Z) (was5xx : bool) (w : Watcher) (s : Sys) : Sys :=
  let errorSinceMs := now - lastSuccessAt w in
  if seenOngoing w && was5xx
     && ((10 <=? consecutiveErrors w) || (45000 <=? errorSinceMs))
  then releaseAgentLock (agentId w) "api_error_fallback" s
  else s.

(** The list request of tick [tid] settles. *)
Definition tick_list (tid : nat) (now : Z) (out : outcome list_data) (s : Sys) : Sys :=
  match ticks s !! tid with
  | Some {| t_watcher := wid; t_stage := AwaitList status art |} =>
      match watchers s !! wid with
      | Some w =>
          let s0 := set_ticks (delete tid) s in
          let s1 :=
            match out with
            | Resolved d => list_release "final_status_list:" w d s0
            | Rejected _ => s0
            end in
          tick_finish wid status art s1
      | None => s
      end
  | Some {| t_watcher := wid; t_stage := AwaitListOnError was5xx |} =>
      match watchers s !! wid with
      | Some w =>
          let s0 := set_ticks (delete tid) s in
          match out with
          | Resolved d => list_release "final_status_list_on_error:" w d s0
          | Rejected _ => emergency_unlock now was5xx w s0
          end
      | None => s
      end
  | _ => s
  end.

(** A timer fires: not before its delay has passed, and only while armed. *)
Definition fire (h : nat) (now : Z) (s : Sys) : Sys :=
  match timers s !! h with
  | Some t =>
      if armedAt t + delay t <=? now then
        let s1 :=
          if repeats t
          then set_timers (insert h {| cb := cb t; delay := delay t; armedAt := now;
                                       repeats := true |}) s
          else set_timers (delete h) s in
        match cb t with
        | CbTimeout a => releaseAgentLock a "timeout" s1
        | CbNoId a => releaseAgentLock a "no_id_auto_release" s1
        | CbPoll w =>
            bump (set_ticks (insert (fresh s1) {| t_watcher := w; t_stage := AwaitDetail |}) s1)
        end
      else s
  | None => s
  end.

(** ** The inbound routes *)

(** An inbound request: the Authorization header if any, and the body:
    [None] when [req.body] is undefined, [Some v] when it is an object whose
    [agent_id] is [v]. *)
Record Request := {
  authorization : option string;
  body_agent_id : option jsval;
}.

(** [req.headers.authorization?.split(' ')[1]] *)
Definition bearer (req : Request) : jsval :=
  match authorization req with
  | Some h =>
      match split_space h !! 1%nat with
      | Some t => JStr t
      | None => JUndefined
      end
  | None => JUndefined
  end.

Definition no_token : Reply := {| http_status := 401; body := BNoToken |}.

(** The reply of a catch block: [error.response?.status || 500]. *)
Definition error_reply (e : axios_error) : Reply :=
  {| http_status :=
       match or_ (response_status e) (JNum 500) with
       | JNum n => n
       | _ => 500
       end;
     body := BError e |}.

(** What destructuring an undefined [req.body] throws. *)
Definition body_type_error : axios_error :=
  {| response_status := JUndefined; err_code := JUndefined;
     message := JStr "Cannot destructure property 'agent_id' of 'req.body' as it is undefined." |}.

(** Line 166 and line 373. *)
Definition agentKey_of (agent_id : jsval) : string :=
  String_ (or_ agent_id (JStr "default")).

(** Line 168: does the entry block a new dispatch? *)
Definition blocks (existing : Lock) : bool :=
  truthy (currentCallId existing)
  || match startedAt existing with
     | Some t => negb (t =? 0)
     | None => false
     end.

(** Lines 156-183: POST /calls/dispatch up to the await of the provider
    call. *)
Definition dispatch_begin (now : Z) (req : Request) (s : Sys) : Sys :=
  match body_agent_id req with
  | None => send (error_reply body_type_error) s
  | Some agent_id =>
      match bearer req with
      | JStr tok =>
          if str_empty tok then send no_token s
          else
            let agentKey := agentKey_of agent_id in
            let acquire :=
              bump (set_dispatches
                      (insert (fresh s) {| d_agentKey := agentKey; d_token := tok |})
                      (set_agentLocks
                         (insert agentKey {| currentCallId := JNull; startedAt := Some now;
                                             timer := None; interval := None |}) s)) in
            match agentLocks s !! agentKey with
            | Some existing =>
                if blocks existing
                then send {| http_status := 409;
                             body := BCallInProgress agentKey
                                       (or_ (currentCallId existing) JUndefined) |} s
                else acquire
            | None => acquire
            end
      | _ => send no_token s
      end
  end.

(** Lines 199-220: the provider call of dispatch [rid] settles. *)
Definition dispatch_resume (rid : nat) (now : Z) (out : outcome dispatch_data) (s : Sys) : Sys :=
  match dispatches s !! rid with
  | Some d =>
      let s0 := set_dispatches (delete rid) s in
      match out with
      | Resolved data =>
          let callLogId := or_ (or_ (dd_call_log_id data) (dd_id data)) (dd_call_id data) in
          let s1 :=
            if truthy callLogId
            then startCompletionWatcher (d_agentKey d) callLogId (d_token d) now s0
            else
              let existingLock := default empty_obj (agentLocks s0 !! d_agentKey d) in
              let '(timer, s') :=
                arm {| cb := CbNoId (d_agentKey d); delay := 3000; armedAt := now;
                       repeats := false |} s0 in
              set_agentLocks
                (insert (d_agentKey d)
                   {| currentCallId := currentCallId existingLock;
                      startedAt := startedAt existingLock;
                      timer := Some timer; interval := interval existingLock |}) s' in
          send {| http_status := 200; body := BProvider data |} s1
      | Rejected e => send (error_reply e) s0
      end
  | None => s
  end.

(** Lines 371-376: POST /agent/release. *)
Definition agent_release (req : Request) (s : Sys) : Sys :=
  let agent_id :=
    match body_agent_id req with
    | Some v => v
    | None => JUndefined
    end in
  let agentKey := agentKey_of agent_id in
  send {| http_status := 200; body := BReleased true agentKey |}
       (releaseAgentLock agentKey "frontend_release" s).

(** The three proxy routes that never touch the lock table
    (/calls/bulk_call/create, /call/logs, /call/log/:callLogId), up to their
    provider call: [None] when the handler goes on to call the provider. *)
Inductive proxy_route := BulkCallCreate | CallLogs | CallLog.

Definition proxy_begin (r : proxy_route) (req : Request) : option Reply :=
  match r, body_agent_id req with
  | BulkCallCreate, None => Some (error_reply body_type_error)
  | _, _ => if truthy (bearer req) then None else Some no_token
  end.

(** ** The event loop *)

Inductive event :=
| EDispatch (now : Z) (req : Request)
| EProvider (rid : nat) (now : Z) (out : outcome dispatch_data)
| ERelease (req : Request)
| ETimer (h : nat) (now : Z)
| EDetail (tid : nat) (now : Z) (out : outcome detail_data)
| EList (tid : nat) (now : Z) (out : outcome list_data).

Definition step (s : Sys) (e : event) : Sys :=
  match e with
  | EDispatch now req => dispatch_begin now req s
  | EProvider rid now out => dispatch_resume rid now out s
  | ERelease req => agent_release req s
  | ETimer h now => fire h now s
  | EDetail tid now out => tick_detail tid now out s
  | EList tid now out => tick_list tid now out s
  end.

Definition run (s : Sys) (es : list event) : Sys := fold_left step es s.

(** ** The client's completion polling (MainFile.jsx, lines 560-716) *)

Module Client.

Definition FINAL_STATUSES : gset string :=
  list_to_set
    [ "completed"; "failed"; "busy"; "no-answer"; "no_answer"; "ended"; "hangup";
      "hang_up"; "canceled"; "cancelled"; "not_answered";
      "disconnected"; "finished"; "complete"; "completed_successfully" ].

Definition ONGOING_STATUSES : gset string :=
  list_to_set
    [ "in_progress"; "in-progress"; "ringing"; "dialing"; "connected"; "live";
      "ongoing"; "active"; "answer"; "answered"; "talking" ].

(** The loop variables of [waitForCallCompletion]. [seenOngoingAt] starts
    as [null]. *)
Record Poller := {
  seenOngoing : bool;
  consecutiveNonOngoing : Z;
  seenOngoingAt : option Z;
  lastListCheckAt : Z;
  errorStreak : Z;
  lastSuccessAt : Z;
}.

Definition start (now : Z) : Poller :=
  {| seenOngoing := false; consecutiveNonOngoing := 0; seenOngoingAt := None;
     lastListCheckAt := 0; errorStreak := 0; lastSuccessAt := now |}.

(** What [fetch] of the backend's detail route gives: a 2xx reply with its
    JSON body ([None] for [null]), another status, or a thrown error. *)
Inductive fetched (A : Type) :=
| Ok (json : A)
| NotOk (http : Z)
| Threw.
Arguments Ok {A} json.
Arguments NotOk {A} http.
Arguments Threw {A}.

(** The body of the backend's list route as the client reads it: an array,
    an object with an array under [data], or anything else. *)
Inductive list_json :=
| CArray (items : list call_record)
| CData (items : list call_record)
| COther.

(** The return statement that ended the loop. *)
Inductive why :=
| FinalStatus        (* line 623 *)
| EndArtifacts       (* line 630 *)
| NonOngoingStreak   (* line 639 *)
| MissingStatus      (* line 647 *)
| ListFinal          (* line 671 *)
| ListNonOngoing     (* line 678 *)
| ErrorFallback.     (* lines 695 and 705 *)

Inductive verdict :=
| Finished (reason : why) (ret : call_record)
| Again (p : Poller).

Definition status_of (d : call_record) : string :=
  normalize (coalesce (coalesce (call_status d) (status d)) (state d)).

(** Line 627. *)
Definition hasEndArtifacts (d : call_record) : bool :=
  truthy (or_ (or_ (or_ (or_ (or_ (recording_url d) (recordingUrl d))
                             (artifact_recordingUrl d)) (ended_at d)) (end_time d))
              (duration d)).

(** Line 667. *)
Definition list_status_of (m : call_record) : string :=
  normalize (coalesce (coalesce (coalesce (coalesce (call_status m) (status m)) (state m))
                         (callStatus m)) (final_status m)).

Definition items_of (l : list_json) : list call_record :=
  match l with
  | CArray items | CData items => items
  | COther => []
  end.

Definition find_match (callLogId : jsval) (l : list_json) : option call_record :=
  find (fun it => String.eqb (String_ (id it)) (String_ callLogId)
                  || String.eqb (String_ (call_log_id it)) (String_ callLogId))
       (items_of l).

(** [{ ...callData, call_status: listStatus || callData.call_status }] *)
Definition with_call_status (d : call_record) (v : jsval) : call_record :=
  {| id := id d; call_log_id := call_log_id d; call_status := v; status := status d;
     state := state d; callStatus := callStatus d; final_status := final_status d;
     recording_url := recording_url d; recordingUrl := recordingUrl d;
     artifact_recordingUrl := artifact_recordingUrl d; ended_at := ended_at d;
     end_time := end_time d; duration := duration d |}.

(** [{ call_status: 'ended_by_error_fallback' }] *)
Definition fallback_record : call_record :=
  with_call_status no_fields (JStr "ended_by_error_fallback").

(** Lines 691-696 and 701-706. *)
Definition on_error (now : Z) (p : Poller) : verdict :=
  let streak := errorStreak p + 1 in
  let sinceMs := now - lastSuccessAt p in
  if seenOngoing p && ((10 <=? streak) || (45000 <=? sinceMs))
  then Finished ErrorFallback fallback_record
  else Again {| seenOngoing := seenOngoing p;
                consecutiveNonOngoing := consecutiveNonOngoing p;
                seenOngoingAt := seenOngoingAt p;
                lastListCheckAt := lastListCheckAt p;
                errorStreak := streak; lastSuccessAt := lastSuccessAt p |}.

(** Lines 654-688: the list cross-check, once it is due. [p] already
    carries the new [lastListCheckAt]. *)
Definition cross_check (callLogId : jsval) (callData : call_record)
    (lst : fetched list_json) (p : Poller) : verdict :=
  match lst with
  | Ok listData =>
      match find_match callLogId listData with
      | Some m =>
          let listStatus := list_status_of m in
          let ret := with_call_status callData
                       (or_ (JStr listStatus) (call_status callData)) in
          if has FINAL_STATUSES listStatus then Finished ListFinal ret
          else if negb (str_empty listStatus) && negb (has ONGOING_STATUSES listStatus)
          then
            let n := consecutiveNonOngoing p + 1 in
            if 2 <=? n then Finished ListNonOngoing ret
            else Again {| seenOngoing := seenOngoing p; consecutiveNonOngoing := n;
                          seenOngoingAt := seenOngoingAt p;
                          lastListCheckAt := lastListCheckAt p;
                          errorStreak := errorStreak p;
                          lastSuccessAt := lastSuccessAt p |}
          else Again p
      | None => Again p
      end
  | NotOk _ | Threw => Again p
  end.

(** One turn of the while loop (lines 585-711) after the detail fetch has
    settled; [lst] is what the list fetch gives if this turn makes it. *)
Definition iterate (callLogId : jsval) (now : Z) (det : fetched (option call_record))
    (lst : fetched list_json) (p : Poller) : verdict :=
  match det with
  | Ok None =>
      (* reading a field of [null] throws after the counters were reset *)
      on_error now {| seenOngoing := seenOngoing p;
                      consecutiveNonOngoing := consecutiveNonOngoing p;
                      seenOngoingAt := seenOngoingAt p;
                      lastListCheckAt := lastListCheckAt p;
                      errorStreak := 0; lastSuccessAt := now |}
  | Ok (Some callData) =>
      let status := status_of callData in
      let on := has ONGOING_STATUSES status in
      let seenAt := if on && negb (seenOngoing p) then Some now else seenOngoingAt p in
      let seen := if on then true else seenOngoing p in
      let streak0 := if on then 0 else consecutiveNonOngoing p in
      if has FINAL_STATUSES status then Finished FinalStatus callData
      else if hasEndArtifacts callData then Finished EndArtifacts callData
      else
        let counted := negb (str_empty status) && negb on in
        let missing := str_empty status && seen in
        let streak := if counted || missing then streak0 + 1 else streak0 in
        if counted && (2 <=? streak) then Finished NonOngoingStreak callData
        else if negb counted && missing && (2 <=? streak) then Finished MissingStatus callData
        else
          let due :=
            seen
            && match seenAt with
               | Some t => negb (t =? 0) && (5000 <=? now - t)
               | None => false
               end
            && (3000 <=? now - lastListCheckAt p) in
          let p' := {| seenOngoing := seen; consecutiveNonOngoing := streak;
                       seenOngoingAt := seenAt;
                       lastListCheckAt := if due then now else lastListCheckAt p;
                       errorStreak := 0; lastSuccessAt := now |} in
          if due then cross_check callLogId callData lst p' else Again p'
  | NotOk _ | Threw => on_error now p
  end.

End Client.

(** ** Sample requests and provider replies *)

Module Sample.

Definition req_A1 : Request :=
  {| authorization := Some "Bearer secret"; body_agent_id := Some (JStr "A1") |}.

(** No Authorization header and no body. *)
Definition req_bare : Request :=
  {| authorization := None; body_agent_id := None |}.

(** A bearer token, and a body without [agent_id]. *)
Definition req_no_agent : Request :=
  {| authorization := Some "Bearer secret"; body_agent_id := Some JUndefined |}.

Definition with_id (c : string) : dispatch_data :=
  {| dd_call_log_id := JStr c; dd_id := JUndefined; dd_call_id := JUndefined |}.

Definition no_id : dispatch_data :=
  {| dd_call_log_id := JUndefined; dd_id := JUndefined; dd_call_id := JUndefined |}.

(** A detail record whose only field is [call_status]. *)
Definition rec_status (st : string) : call_record :=
  Client.with_call_status no_fields (JStr st).

(** A record with no status whose only artifact is the camel-case
    [recordingUrl]. *)
Definition rec_camel : call_record :=
  {| id := JUndefined; call_log_id := JUndefined; call_status := JUndefined;
     status := JUndefined; state := JUndefined; callStatus := JUndefined;
     final_status := JUndefined; recording_url := JUndefined;
     recordingUrl := JStr "https://rec.example/1"; artifact_recordingUrl := JUndefined;
     ended_at := JUndefined; end_time := JUndefined; duration := JUndefined |}.

Definition polled (st : string) : outcome detail_data :=
  Resolved (DObj (rec_status st) None).

Definition err503 : axios_error :=
  {| response_status := JNum 503; err_code := JUndefined;
     message := JStr "Request failed with status code 503" |}.

Definition err_refused : axios_error :=
  {| response_status := JUndefined; err_code := JStr "ECONNREFUSED";
     message := JStr "connect ECONNREFUSED" |}.

(** The list route answers, and the call is not in the page. *)
Definition list_empty : outcome list_data := Resolved (LArray []).

(** Dispatch for agent A1 accepted at 1000, provider replies at 1100 with
    call c1: the dispatch is request 0, the failsafe is timer 1 and the
    poll interval (and the watcher's closure) is 2. *)
Definition started : Sys :=
  run boot [ EDispatch 1000 req_A1; EProvider 0 1100 (Resolved (with_id "c1")) ].

(** [n] further runs of the interval callback, one per second from [from],
    the first with tick number [tid]; each detail request settles 100 ms
    after it was sent with [det], and the list request, where the tick makes
    one, 100 ms later with [lst]. *)
Fixpoint ticks_from (n tid : nat) (from : Z) (det : outcome detail_data)
    (lst : outcome list_data) : list event :=
  match n with
  | O => []
  | S k =>
      [ ETimer 2 from; EDetail tid (from + 100) det; EList tid (from + 200) lst ]
      ++ ticks_from k (S tid) (from + 1000) det lst
  end.

End Sample.

(** ** Predicates of the statements *)

(** A token with no white space at either end. *)
Definition tight (t : string) : bool :=
  match t with
  | EmptyString => true
  | String c _ => negb (is_ws c)
  end && String.eqb (trimEnd t) t.

(** Handle [h] has been given out and is not armed. *)
Definition disarmed (h : nat) (s : Sys) : Prop :=
  (h < fresh s)%nat /\ timers s !! h = None.

(** The timer handles an entry holds. *)
Definition holds (l : Lock) (h : nat) : Prop :=
  timer l = Some h \/ interval l = Some h.

(** Every handle held by an entry has been given out. *)
Definition handles_issued (s : Sys) : Prop :=
  forall a l h, agentLocks s !! a = Some l -> holds l h -> (h < fresh s)%nat.

(** [s'] has no entry that [s] lacks, and has given out no fewer handles. *)
Definition shrinks (s s' : Sys) : Prop :=
  (forall a l, agentLocks s' !! a = Some l -> agentLocks s !! a = Some l) /\
  (fresh s <= fresh s')%nat.

(** The entry of [a] is [l] as before, or it is gone and timer [h] is not
    armed. *)
Definition kept_or_cleared (a : string) (l : Lock) (h : nat) (s : Sys) : Prop :=
  agentLocks s !! a = Some l \/ (agentLocks s !! a = None /\ timers s !! h = None).

(** Watcher [wid] of agent [a] is between two ticks: the entry [L] is in
    the table, the poll interval [h] was last armed at [armed], and the
    closure is [w]. *)
Definition watching (s : Sys) (a : string) (L : Lock) (h wid : nat) (armed : Z)
    (w : Watcher) : Prop :=
  agentLocks s !! a = Some L /\
  timers s !! h = Some {| cb := CbPoll wid; delay := INTERVAL_MS; armedAt := armed;
                          repeats := true |} /\
  watchers s !! wid = Some w.

(** Is the event the reply to a detail poll? *)
Definition is_poll_reply (e : event) : bool :=
  match e with
  | EDetail _ _ _ => true
  | _ => false
  end.

(** Does the release reason report a Final status? *)
Definition final_reason (r : string) : bool := startsWith "final_status" r.

(** No release so far reported a Final status, and no tick is past its
    detail request. *)
Definition unpolled (s : Sys) : Prop :=
  Forall (fun ar => final_reason ar.2 = false) (released s) /\
  forall tid t, ticks s !! tid = Some t -> t_stage t = AwaitDetail.

(** ** Further readings of the server code *)

(** The word has no space in it. *)
Fixpoint no_space (s : string) : bool :=
  match s with
  | EmptyString => true
  | String c r => negb (Ascii.eqb c " "%char) && no_space r
  end.

(** A decimal digit or the minus sign. *)
Definition numeric_char (c : ascii) : bool :=
  let n := code c in
  ((48 <=? n) && (n <=? 57) || (n =? 45))%N.

Fixpoint numeric (s : string) : bool :=
  match s with
  | EmptyString => true
  | String c r => numeric_char c && numeric r
  end.

(** The agent whose entry an event can touch: the key of the request, the
    agent of the timer's callback, the agent of the tick's watcher. *)
Definition callback_agent (c : callback) : option string :=
  match c with
  | CbTimeout a | CbNoId a => Some a
  | CbPoll _ => None
  end.

Definition tick_agent (s : Sys) (tid : nat) : option string :=
  match ticks s !! tid with
  | Some t =>
      match watchers s !! t_watcher t with
      | Some w => Some (agentId w)
      | None => None
      end
  | None => None
  end.

Definition event_agent (s : Sys) (e : event) : option string :=
  match e with
  | EDispatch _ req =>
      match body_agent_id req with
      | Some v => Some (agentKey_of v)
      | None => None
      end
  | EProvider rid _ _ =>
      match dispatches s !! rid with
      | Some d => Some (d_agentKey d)
      | None => None
      end
  | ERelease req => Some (agentKey_of (default JUndefined (body_agent_id req)))
  | ETimer h _ =>
      match timers s !! h with
      | Some t => callback_agent (cb t)
      | None => None
      end
  | EDetail tid _ _ | EList tid _ _ => tick_agent s tid
  end.

(** Is the event anything but a successful detail reply? *)
Definition no_poll_success (e : event) : bool :=
  match e with
  | EDetail _ _ (Resolved _) => false
  | _ => true
  end.

(** The reasons with which something other than a watcher's tick
    releases. *)
Definition outside_reason (r : string) : bool :=
  String.eqb r "timeout" || String.eqb r "no_id_auto_release"
  || String.eqb r "frontend_release".

(** No watcher has seen its call active, and no tick is past its detail
    request. *)
Definition never_active (s : Sys) : Prop :=
  (forall w x, watchers s !! w = Some x -> seenOngoing x = false) /\
  (forall tid t, ticks s !! tid = Some t -> t_stage t = AwaitDetail).

(** Every closure is stored under a handle that has been given out. *)
Definition closures_issued (s : Sys) : Prop :=
  forall w x, watchers s !! w = Some x -> (w < fresh s)%nat.

(** [x'] is a later state of the closure [x]: the same call, the active
    flag not reset, the time of first activity not moved. *)
Definition latched (x x' : Watcher) : Prop :=
  agentId x' = agentId x /\ callLogId x' = callLogId x /\
  (seenOngoing x = true -> seenOngoing x' = true) /\
  (seenOngoingAt x <> 0 -> seenOngoingAt x' = seenOngoingAt x).

(** GET /call/log/:callLogId after its token check (lines 394-421): the
    reply to the client once the provider call has settled. Reading
    [call_log_data] of a null body throws, which the catch block answers
    with 500. *)
Inductive log_reply :=
| LogRecord (http : Z) (r : call_record)
| LogError (http : Z).

Definition call_log_resume (out : outcome detail_data) : log_reply :=
  match out with
  | Resolved DNone => LogError 500
  | Resolved (DObj top None) => LogRecord 200 top
  | Resolved (DObj _ (Some inner)) => LogRecord 200 inner
  | Rejected e => LogError (http_status (error_reply e))
  end.

(** What the client's [fetch] of that route hands to the polling loop
    (MainFile.jsx, lines 592-601 and 688): the parsed body when [resp.ok],
    the status otherwise. *)
Definition fetch_detail (r : log_reply) : Client.fetched (option call_record) :=
  match r with
  | LogRecord http d =>
      if (200 <=? http) && (http <? 300) then Client.Ok (Some d) else Client.NotOk http
  | LogError http =>
      (* the body carries [error] and [details] only *)
      if (200 <=? http) && (http <? 300) then Client.Ok (Some no_fields) else Client.NotOk http
  end.

(** ** Further sample states *)

Module Sample2.

Import Sample.

(** The watcher of c1 has seen the call connected at 2200 and polled it
    connected every second since; the tick of 7200 (tick 8) is the first
    whose cross-check is due and waits for the list. *)
Definition awaiting_list : Sys :=
  run started ([ ETimer 2 2100; EDetail 3 2200 (polled "connected") ]
               ++ ticks_from 4 4 3100 (polled "connected") list_empty
               ++ [ ETimer 2 7100; EDetail 8 7200 (polled "connected") ]).

Definition watcher_at_7200 : Watcher :=
  {| agentId := "A1"; callLogId := JStr "c1"; token := "secret";
     w_startedAt := 1100; lastStatus := Some "connected"; startLogged := true;
     seenOngoing := true; seenOngoingAt := 2200; lastListCheckAt := 7200;
     consecutiveErrors := 0; lastSuccessAt := 7200 |}.

(** A list entry that carries the call's id under [call_log_id] and a
    Final status in mixed case. *)
Definition entry_done : call_record :=
  {| id := JNum 77; call_log_id := JStr "c1"; call_status := JStr " Completed ";
     status := JUndefined; state := JUndefined; callStatus := JUndefined;
     final_status := JUndefined; recording_url := JUndefined;
     recordingUrl := JUndefined; artifact_recordingUrl := JUndefined;
     ended_at := JUndefined; end_time := JUndefined; duration := JUndefined |}.

End Sample2.
(** ** The campaign helpers of the client (MainFile.jsx, lines 125-203) *)

Module Campaign.

Definition quote : ascii := "034"%char.
Definition comma : ascii := ","%char.
Definition LF : ascii := "010"%char.
Definition CR : ascii := "013"%char.

(** [\d] *)
Definition is_digit (c : ascii) : bool :=
  let n := code c in ((48 <=? n) && (n <=? 57))%N.

(** A character that [/[^\d+]/g] leaves in place. *)
Definition phone_char (c : ascii) : bool := is_digit c || Ascii.eqb c "+"%char.

(** [s.replace(/.../g, "")] for a class of single characters: keep the
    characters [keep] accepts. *)
Fixpoint keep_chars (keep : ascii -> bool) (s : string) : string :=
  match s with
  | EmptyString => EmptyString
  | String c r => if keep c then String c (keep_chars keep r) else keep_chars keep r
  end.

(** Every character of the string passes the test. *)
Fixpoint all_chars (p : ascii -> bool) (s : string) : bool :=
  match s with
  | EmptyString => true
  | String c r => p c && all_chars p r
  end.

(** Lines 198-203. [raw] is a string or absent; [None] is [null]. *)
Definition normalizePhone (raw : option string) : option string :=
  match raw with
  | None => None
  | Some r =>
      if str_empty r then None
      else
        let digits := keep_chars phone_char r in
        if str_empty digits then None
        else Some (if startsWith "+" digits then digits else "+" +:+ digits)
  end.

(** [l.indexOf(x)] *)
Fixpoint indexOf (x : string) (l : list string) : option nat :=
  match l with
  | [] => None
  | y :: r => if String.eqb y x then Some O
              else match indexOf x r with
                   | Some i => Some (S i)
                   | None => None
                   end
  end.

Definition candidates : list string :=
  [ "phone"; "number"; "phone_number"; "phonenumber"; "mobile"; "mobile_number" ].

(** The test of the second loop (line 190). *)
Definition phone_like (h : string) : bool :=
  includes "phone" h || includes "mobile" h || includes "num" h.

(** The first loop (lines 186-189). *)
Fixpoint first_candidate (cs : list string) (lower : list string) : option nat :=
  match cs with
  | [] => None
  | c :: r =>
      match indexOf c lower with
      | Some idx => Some idx
      | None => first_candidate r lower
      end
  end.

(** The second loop (lines 190-192), from index [i]. *)
Fixpoint first_like (lower : list string) (i : nat) : option nat :=
  match lower with
  | [] => None
  | h :: r => if phone_like h then Some i else first_like r (S i)
  end.

(** Lines 183-193. *)
Definition findPhoneIndex (headers : list string) : Z :=
  let lower := map toLowerCase headers in
  match first_candidate candidates lower with
  | Some idx => Z.of_nat idx
  | None =>
      match first_like lower O with
      | Some i => Z.of_nat i
      | None => -1
      end
  end.

(** The loop of [parseCSV] (lines 134-172) from position [i], [text] being
    what is left of the input there. *)
Fixpoint parse_from (text : string) (inQuotes : bool) (cur : string)
    (row : list string) (rows : list (list string)) : list (list string) :=
  match text with
  | EmptyString =>
      if negb (str_empty cur) || inQuotes || negb (Nat.eqb (length row) 0)
      then (rows ++ [(row ++ [cur])%list])%list
      else rows
  | String ch rest =>
      if Ascii.eqb ch quote then
        match rest with
        | String ch2 rest2 =>
            if inQuotes && Ascii.eqb ch2 quote
            then parse_from rest2 inQuotes (cur +:+ String quote "") row rows
            else parse_from rest (negb inQuotes) cur row rows
        | EmptyString => parse_from rest (negb inQuotes) cur row rows
        end
      else if Ascii.eqb ch comma && negb inQuotes then
        parse_from rest inQuotes "" (row ++ [cur])%list rows
      else if (Ascii.eqb ch LF || Ascii.eqb ch CR) && negb inQuotes then
        match rest with
        | String ch2 rest2 =>
            if Ascii.eqb ch CR && Ascii.eqb ch2 LF
            then parse_from rest2 inQuotes "" [] (rows ++ [(row ++ [cur])%list])%list
            else parse_from rest inQuotes "" [] (rows ++ [(row ++ [cur])%list])%list
        | EmptyString => parse_from rest inQuotes "" [] (rows ++ [(row ++ [cur])%list])%list
        end
      else parse_from rest inQuotes (cur +:+ String ch "") row rows
  end.

(** Lines 128-175. *)
Definition parseCSV (text : string) : list (list string) :=
  map (map trim) (parse_from text false "" [] []).

(** The rows [handleCampaignCreate] keeps (line 738). *)
Definition kept_row (r : list string) : bool :=
  negb (Nat.eqb (length r) 0)
  && negb (Nat.eqb (length r) 1 && match r with f :: _ => str_empty f | [] => false end).

(** What [handleCampaignCreate] makes of the file (lines 737-766) before it
    starts calling: one of the two error messages, or the [phone] field of
    each customer. *)
Inductive ingest :=
| TooFewRows
| NoPhoneColumn
| Customers (phones : list string).

Definition read_customers (text : string) : ingest :=
  let rows := List.filter kept_row (parseCSV text) in
  if (length rows <? 2)%nat then TooFewRows
  else
    match rows with
    | [] => TooFewRows
    | header :: dataRows =>
        let rawHeaders := map trim header in
        let phoneIndex := findPhoneIndex rawHeaders in
        if phoneIndex =? -1 then NoPhoneColumn
        else Customers (map (fun r => nth (Z.to_nat phoneIndex) r "") dataRows)
    end.

End Campaign.

(** ** Writing CSV, to state what [parseCSV] reads back *)

Module CsvText.

Import Campaign.

(** A field that can stand unquoted: no quote, comma or line break. *)
Fixpoint plain (f : string) : bool :=
  match f with
  | EmptyString => true
  | String c r =>
      negb (Ascii.eqb c quote || Ascii.eqb c comma || Ascii.eqb c LF || Ascii.eqb c CR)
      && plain r
  end.

(** Double every quote. *)
Fixpoint escape (f : string) : string :=
  match f with
  | EmptyString => EmptyString
  | String c r =>
      if Ascii.eqb c quote then String quote (String quote (escape r))
      else String c (escape r)
  end.

(** A field, in quotes when [quoted]. *)
Definition field (quoted : bool) (f : string) : string :=
  if quoted then String quote (escape f +:+ String quote "") else f.

(** The fields of a line, comma-separated. *)
Fixpoint fields (fs : list (bool * string)) : string :=
  match fs with
  | [] => EmptyString
  | [ (q, f) ] => field q f
  | (q, f) :: r => field q f +:+ String comma (fields r)
  end.

(** The end of a line: LF, or CR LF when [crlf]. *)
Definition eol (crlf : bool) : string :=
  if crlf then String CR (String LF "") else String LF "".

Fixpoint lines (crlf : bool) (rows : list (list (bool * string))) : string :=
  match rows with
  | [] => EmptyString
  | fs :: r => fields fs +:+ eol crlf +:+ lines crlf r
  end.

(** Does the text begin with a quote? *)
Definition starts_quote (t : string) : bool :=
  match t with
  | String c _ => Ascii.eqb c quote
  | EmptyString => false
  end.

(** Every unquoted field is plain, and no line is without fields. *)
Definition writable (rows : list (list (bool * string))) : Prop :=
  Forall (fun fs => fs <> [] /\ Forall (fun qf => fst qf = false -> plain (snd qf) = true) fs)
         rows.

(** The cells of a written line as [parseCSV] gives them. *)
Definition cells (fs : list (bool * string)) : list string :=
  map (fun qf => trim (snd qf)) fs.

End CsvText.

(** ** The campaign driver of the client (MainFile.jsx, lines 434-1000) *)

Module Orchestrator.

Import Campaign.

(** The JSON body of a reply of POST /calls/dispatch, as far as the client
    reads it. *)
Record reply_fields := {
  r_error : jsval;
  r_code : jsval;
  r_message : jsval;
  r_current_call_id : jsval;
  r_call_log_id : jsval;
  r_id : jsval;
  r_call_id : jsval;
}.

(** What [fetch] resolves with: the status and the body, [None] when the
    body is not JSON. *)
Record http_reply := {
  r_status : Z;
  r_body : option reply_fields;
}.

(** [resp.ok] *)
Definition ok (r : http_reply) : bool := (200 <=? r_status r) && (r_status r <=? 299).

(** [v === 'CALL_IN_PROGRESS'] *)
Definition is_in_progress (v : jsval) : bool :=
  match v with
  | JStr s => String.eqb s "CALL_IN_PROGRESS"
  | _ => false
  end.

(** [body?.f] *)
Definition opt_field (f : reply_fields -> jsval) (b : option reply_fields) : jsval :=
  match b with
  | Some x => f x
  | None => JUndefined
  end.

(** What the client waits for before it retries: the completion of the
    call in progress, or a fixed time. *)
Inductive pause :=
| WaitFor (callLogId : jsval)
| Sleep (ms : Z).

Inductive thrown :=
| NoPhoneNumber
| StillInProgress
| DispatchFailed (message : jsval)
| BodyNotJson
| FetchRejected.

Inductive dispatched :=
| Returned (data : reply_fields)
| Thrown (why : thrown).

(** [dispatchSingleCall] (lines 434-483), the phone being
    [customer.phone || customer.number || customer.phone_number || ""].
    [replies] are the outcomes of the successive fetches, [None] for a fetch
    that rejects; the result is [None] when they run out before the function
    settles. The pauses it made come with the result. *)
Fixpoint dispatchSingleCall (phone : string) (replies : list (option http_reply))
    (_retry : nat) : option (dispatched * list pause) :=
  match normalizePhone (Some phone) with
  | None => Some (Thrown NoPhoneNumber, [])
  | Some _ =>
      match replies with
      | [] => None
      | None :: _ => Some (Thrown FetchRejected, [])
      | Some resp :: rest =>
          if ok resp then
            match r_body resp with
            | Some data => Some (Returned data, [])
            | None => Some (Thrown BodyNotJson, [])
            end
          else
            let body := r_body resp in
            if (r_status resp =? 409)
               && (is_in_progress (opt_field r_error body)
                   || is_in_progress (opt_field r_code body))
            then
              let currentId :=
                or_ (or_ (opt_field r_current_call_id body) (opt_field r_call_log_id body))
                    (opt_field r_id body) in
              let p := if truthy currentId then WaitFor currentId else Sleep 15000 in
              if (_retry <? 3)%nat then
                match dispatchSingleCall phone rest (S _retry) with
                | Some (res, ps) => Some (res, p :: ps)
                | None => None
                end
              else Some (Thrown StillInProgress, [p])
            else
              Some (Thrown (DispatchFailed
                              (or_ (opt_field r_message body)
                                   (JStr ("Dispatch failed with status "
                                          +:+ String_ (JNum (r_status resp)))))), [])
      end
  end.

(** The 409 of the dispatch route as the client receives it. *)
Definition conflict (current : jsval) : option http_reply :=
  Some {| r_status := 409;
          r_body := Some {| r_error := JStr "CALL_IN_PROGRESS"; r_code := JUndefined;
                            r_message := JStr "Another call is in progress for this agent. Please wait until it finishes.";
                            r_current_call_id := current; r_call_log_id := JUndefined;
                            r_id := JUndefined; r_call_id := JUndefined |} |}.

(** One turn of the polling loop of [waitForCallCompletion]: the time read
    by the loop condition, the time read in the body, and what the two
    fetches give. *)
Record poll := {
  checked_at : Z;
  polled_at : Z;
  detail : Client.fetched (option call_record);
  listed : Client.fetched Client.list_json;
}.

Definition MAX_POLL_TIME : Z := 10 * 60 * 1000.

(** The while loop of [waitForCallCompletion] (lines 585-715) from the
    loop variables [p]: [Some (Some r)] when it returns the record [r],
    [Some None] when it gives up and returns null, [None] when the polls
    given run out while it is still polling. *)
Fixpoint wait_polls (callLogId : jsval) (startTime : Z) (p : Client.Poller)
    (polls : list poll) : option (option call_record) :=
  match polls with
  | [] => None
  | q :: rest =>
      if checked_at q - startTime <? MAX_POLL_TIME then
        match Client.iterate callLogId (polled_at q) (detail q) (listed q) p with
        | Client.Finished _ ret => Some (Some ret)
        | Client.Again p' => wait_polls callLogId startTime p' rest
        end
      else Some None
  end.

(** Lines 560-716. *)
Definition waitForCallCompletion (callLogId : jsval) (startTime : Z) (polls : list poll)
    : option (option call_record) :=
  wait_polls callLogId startTime (Client.start startTime) polls.

(** Is the detail fetch of the poll a failure? *)
Definition failed_poll (q : poll) : bool :=
  match detail q with
  | Client.Ok _ => false
  | Client.NotOk _ | Client.Threw => true
  end.

(** An element of the array of GET /call/logs as [resolveCallLogId] reads
    it; an element that is null reads as two undefined fields. *)
Record log_item := {
  to_number : jsval;
  log_id : jsval;
}.

(** [normalizePhone(v)] for any value [v]: [None] when it throws, which it
    does for a truthy value that has no [replace] method. *)
Definition normalizePhone_of (v : jsval) : option (option string) :=
  match v with
  | JStr s => Some (normalizePhone (Some s))
  | _ => if truthy v then None else Some None
  end.

(** [a === b] for two results of [normalizePhone] *)
Definition same_phone (a b : option string) : bool :=
  match a, b with
  | Some x, Some y => String.eqb x y
  | None, None => true
  | _, _ => false
  end.

(** [arr.find(c => normalizePhone(c?.to_number) === target)]: [None] when
    the test throws, [Some None] when no element passes it. *)
Fixpoint find_number (target : option string) (arr : list log_item)
    : option (option log_item) :=
  match arr with
  | [] => Some None
  | c :: rest =>
      match normalizePhone_of (to_number c) with
      | None => None
      | Some n => if same_phone n target then Some (Some c) else find_number target rest
      end
  end.

(** What one fetch of the list gives [resolveCallLogId]: an array, or
    nothing it can use (a status that is not ok, a body that is not an
    array, a fetch or a body that throws). *)
Inductive logs_reply :=
| LogsArray (arr : list log_item)
| LogsOther.

Record lookup := {
  looked_at : Z;
  logs : logs_reply;
}.

Definition MAX_WAIT_MS : Z := 60 * 1000.

(** The while loop of [resolveCallLogId] (lines 516-546): [Some v] when it
    returns [v], [None] when the lookups given run out first. *)
Fixpoint resolve_lookups (target : option string) (start : Z) (lookups : list lookup)
    : option jsval :=
  match lookups with
  | [] => None
  | q :: rest =>
      if looked_at q - start <? MAX_WAIT_MS then
        match logs q with
        | LogsArray arr =>
            match find_number target arr with
            | Some (Some m) =>
                if truthy (log_id m) then Some (log_id m)
                else resolve_lookups target start rest
            | _ => resolve_lookups target start rest
            end
        | LogsOther => resolve_lookups target start rest
        end
      else Some JNull
  end.

(** [dispatchData?.call_log_id || dispatchData?.id || dispatchData?.call_id] *)
Definition directId (dispatchData : option reply_fields) : jsval :=
  or_ (or_ (opt_field r_call_log_id dispatchData) (opt_field r_id dispatchData))
      (opt_field r_call_id dispatchData).

(** Lines 504-551. *)
Definition resolveCallLogId (dispatchData : option reply_fields) (toNumber : string)
    (start : Z) (lookups : list lookup) : option jsval :=
  let target := normalizePhone (Some toNumber) in
  if truthy (directId dispatchData) then Some (directId dispatchData)
  else resolve_lookups target start lookups.

(** The list entry [m] carries the number [toNumber] once normalized. *)
Definition numbered (toNumber : string) (m : log_item) : Prop :=
  normalizePhone_of (to_number m) = Some (normalizePhone (Some toNumber)).

(** What the awaited calls of one turn of the campaign loop gave: the
    dispatch threw; it returned but no call id could be found, in the reply
    or by [resolveCallLogId]; or the id was found and [waitForCallCompletion]
    returned the record or null. *)
Inductive attempt :=
| DispatchThrew
| NoCallId
| Waited (completed : option call_record).

Inductive tag :=
| Skipped
| Completed (finalStatus : option string)
| Unconfirmed
| NoId
| Failed.

(** An element of [summary.results]. *)
Record result := {
  res_index : nat;
  res_phone : string;
  res_status : tag;
}.

Record summary := {
  total : nat;
  successful : nat;
  failed : nat;
  results : list result;
}.

(** What the loop does besides counting: the release it asks the backend
    for, and the fixed waits. *)
Inductive action :=
| NotifyRelease
| Delay (ms : Z).

Definition count (ok_ : bool) (r : result) (acts : list action)
    (st : summary * list action) : summary * list action :=
  ({| total := total st.1;
      successful := if ok_ then S (successful st.1) else successful st.1;
      failed := if ok_ then failed st.1 else S (failed st.1);
      results := (results st.1 ++ [r])%list |},
   (st.2 ++ acts)%list).

(** One turn of the for loop (lines 811-903) for the customer at index [i],
    whose [phone] cell is [raw]. *)
Definition turn (i : nat) (raw : string) (a : attempt) (st : summary * list action)
    : summary * list action :=
  match normalizePhone (Some raw) with
  | None =>
      count false {| res_index := S i; res_phone := "N/A"; res_status := Skipped |} [] st
  | Some phoneNormalized =>
      let failure :=
        count false {| res_index := S i; res_phone := phoneNormalized; res_status := Failed |}
          [] st in
      match a with
      | DispatchThrew => failure
      | NoCallId =>
          count true {| res_index := S i; res_phone := phoneNormalized; res_status := NoId |}
            [ Delay 30000; NotifyRelease ] st
      | Waited None =>
          count true {| res_index := S i; res_phone := phoneNormalized;
                        res_status := Unconfirmed |}
            [ NotifyRelease ] st
      | Waited (Some completedCallData) =>
          let done finalStatus :=
            count true {| res_index := S i; res_phone := phoneNormalized;
                          res_status := Completed finalStatus |}
              [ NotifyRelease; Delay 3000 ] st in
          match call_status completedCallData with
          | JStr s => done (Some (toLowerCase s))
          | JUndefined | JNull => done None
          | JBool _ | JNum _ => failure   (* [toLowerCase] is not a function *)
          end
      end
  end.

Fixpoint turns (i : nat) (customers : list (string * attempt)) (st : summary * list action)
    : summary * list action :=
  match customers with
  | [] => st
  | (raw, a) :: rest => turns (S i) rest (turn i raw a st)
  end.

(** The one-by-one loop of [handleCampaignCreate] over the customers. *)
Definition campaign (customers : list (string * attempt)) : summary * list action :=
  turns 0 customers
    ({| total := length customers; successful := 0; failed := 0; results := [] |}, []).

Definition is_release (a : action) : bool :=
  match a with
  | NotifyRelease => true
  | Delay _ => false
  end.

Definition counts_as_success (r : result) : bool :=
  match res_status r with
  | Completed _ | Unconfirmed | NoId => true
  | Skipped | Failed => false
  end.

(** What [turns] keeps: the counters add up to the number of results, the
    results are numbered from 1, and one release was asked per success. *)
Definition balanced (i : nat) (st : summary * list action) : Prop :=
  (successful st.1 + failed st.1 = i)%nat /\
  map res_index (results st.1) = seq 1 i /\
  successful st.1 = length (List.filter counts_as_success (results st.1)) /\
  successful st.1 = length (List.filter is_release st.2).

End Orchestrator.

(** * Properties *)

(** ** Strings *)

Section StringFacts.

Lemma lower_char_ws c : is_ws c = true -> lower_char c = c.
Proof.
  destruct c as [[] [] [] [] [] [] [] []]; vm_compute; congruence.
Qed.

Lemma toLowerCase_app a b : toLowerCase (a +:+ b) = toLowerCase a +:+ toLowerCase b.
Proof. induction a as [|c a IH]; simpl; [reflexivity | now rewrite IH]. Qed.

Lemma toLowerCase_ws a : all_ws a = true -> toLowerCase a = a.
Proof.
  induction a as [|c a IH]; simpl; [reflexivity |].
  intros [Hc Ha]%andb_prop. now rewrite lower_char_ws, IH.
Qed.

Lemma trimStart_ws_app a x : all_ws a = true -> trimStart (a +:+ x) = trimStart x.
Proof.
  induction a as [|c a IH]; simpl; [reflexivity |].
  intros [Hc Ha]%andb_prop. rewrite Hc. auto.
Qed.

Lemma trimStart_ws b : all_ws b = true -> trimStart b = "".
Proof.
  induction b as [|c b IH]; simpl; [reflexivity |].
  intros [Hc Hb]%andb_prop. rewrite Hc. auto.
Qed.

Lemma trimEnd_ws b : all_ws b = true -> trimEnd b = "".
Proof.
  induction b as [|c b IH]; simpl; [reflexivity |].
  intros [Hc Hb]%andb_prop. now rewrite IH, Hc.
Qed.

Lemma trimEnd_app_ws x b : all_ws b = true -> trimEnd (x +:+ b) = trimEnd x.
Proof.
  intros Hb. induction x as [|c x IH]; simpl.
  - now apply trimEnd_ws.
  - now rewrite IH.
Qed.

Lemma trim_padded pre t post :
  all_ws pre = true -> all_ws post = true -> tight t = true ->
  trim (pre +:+ t +:+ post) = t.
Proof.
  intros Hpre Hpost [Hhd Hend%String.eqb_eq]%andb_prop.
  unfold trim. rewrite trimStart_ws_app by assumption.
  destruct t as [|c r].
  - simpl. now rewrite trimStart_ws.
  - apply negb_true_iff in Hhd.
    change (trimStart (String c r +:+ post)) with
      (if is_ws c then trimStart (r +:+ post) else String c r +:+ post).
    rewrite Hhd, trimEnd_app_ws by assumption. exact Hend.
Qed.

Lemma normalize_padded pre tok post :
  all_ws pre = true -> all_ws post = true -> tight (toLowerCase tok) = true ->
  normalize (JStr (pre +:+ tok +:+ post)) = toLowerCase tok.
Proof.
  intros Hpre Hpost Ht. unfold normalize.
  assert (String_ (or_ (JStr (pre +:+ tok +:+ post)) (JStr "")) = pre +:+ tok +:+ post) as ->.
  { unfold or_. simpl. now destruct (pre +:+ tok +:+ post). }
  rewrite !toLowerCase_app, (toLowerCase_ws pre), (toLowerCase_ws post) by assumption.
  now apply trim_padded.
Qed.

End StringFacts.

(** ** The vocabulary *)

Lemma final_tokens t :
  t ∈ FINAL_STATUSES ->
  tight t = true /\ has FINAL_STATUSES t = true /\ str_empty t = false.
Proof.
  intros H. split; [| split; [now apply bool_decide_eq_true |]];
    unfold FINAL_STATUSES in H; rewrite elem_of_list_to_set in H;
    repeat (apply elem_of_cons in H as [-> | H]; [reflexivity |]);
    now apply elem_of_nil in H.
Qed.

Lemma ongoing_tokens t :
  t ∈ ONGOING_STATUSES ->
  tight t = true /\ has FINAL_STATUSES t = false /\ is_ongoing t = true.
Proof.
  intros H. unfold ONGOING_STATUSES in H. rewrite elem_of_list_to_set in H.
  repeat (apply elem_of_cons in H as [-> | H]; [repeat split; vm_compute; reflexivity |]).
  now apply elem_of_nil in H.
Qed.

(** C6. The classification is a total function of the raw status string and
    the artifact flag. A Final-set token classifies Final in any letter case
    and with any surrounding white space; an Ongoing-set token classifies
    Ongoing, or Final when end-of-call artifacts are present; any other
    string, the empty one included, classifies Unknown when no artifacts are
    present. *)
Theorem classify_total :
  (forall pre tok post art,
      all_ws pre = true -> all_ws post = true ->
      toLowerCase tok ∈ FINAL_STATUSES ->
      classify (pre +:+ tok +:+ post) art = Final) /\
  (forall pre tok post art,
      all_ws pre = true -> all_ws post = true ->
      toLowerCase tok ∈ ONGOING_STATUSES ->
      classify (pre +:+ tok +:+ post) art = if art then Final else Ongoing) /\
  (forall raw,
      normalize (JStr raw) ∉ FINAL_STATUSES ->
      normalize (JStr raw) ∉ ONGOING_STATUSES ->
      classify raw false = Unknown) /\
  classify "" false = Unknown /\
  (forall raw art, exists c, classify raw art = c).
Proof.
  repeat split.
  - intros pre tok post art Hpre Hpost Hin.
    destruct (final_tokens _ Hin) as (Ht & Hf & _).
    unfold classify, classify_norm, is_final.
    now rewrite normalize_padded, Hf.
  - intros pre tok post art Hpre Hpost Hin.
    destruct (ongoing_tokens _ Hin) as (Ht & Hf & Ho).
    unfold classify, classify_norm, is_final.
    rewrite normalize_padded, Hf, Ho by assumption. now destruct art.
  - intros raw Hf Ho. unfold classify, classify_norm, is_final, is_ongoing, has.
    rewrite !bool_decide_eq_false_2 by assumption.
    now rewrite andb_false_r.
  - intros raw art. eauto.
Qed.

Lemma classify_total_witness :
  classify (" " +:+ "COMPLETED" +:+ "  ") true = Final /\
  classify (" " +:+ "Ringing" +:+ "") false = Ongoing /\
  classify "queued" false = Unknown.
Proof.
  destruct classify_total as (Hf & Ho & Hu & _).
  split; [| split].
  - apply Hf; [reflexivity | reflexivity |].
    apply (bool_decide_unpack _). vm_compute. exact I.
  - apply (Ho " " "Ringing" "" false); [reflexivity | reflexivity |].
    apply (bool_decide_unpack _). vm_compute. exact I.
  - apply Hu; intros H; apply (bool_decide_pack _) in H; vm_compute in H; exact H.
Defined.

(** ** The lock table *)

Section Release.

Lemma release_locks a r s :
  agentLocks (releaseAgentLock a r s) = delete a (agentLocks s).
Proof. unfold releaseAgentLock. now destruct (agentLocks s !! a). Qed.

Lemma release_timers a r s :
  timers (releaseAgentLock a r s) =
  match agentLocks s !! a with
  | Some lock => clear (timer lock) (clear (interval lock) (timers s))
  | None => timers s
  end.
Proof. unfold releaseAgentLock. now destruct (agentLocks s !! a). Qed.

Lemma release_log a r s :
  released (releaseAgentLock a r s) = (a, r) :: released s.
Proof. unfold releaseAgentLock. now destruct (agentLocks s !! a). Qed.

Lemma release_rest a r s :
  watchers (releaseAgentLock a r s) = watchers s /\
  ticks (releaseAgentLock a r s) = ticks s /\
  dispatches (releaseAgentLock a r s) = dispatches s /\
  fresh (releaseAgentLock a r s) = fresh s /\
  outbox (releaseAgentLock a r s) = outbox s.
Proof. unfold releaseAgentLock. now destruct (agentLocks s !! a). Qed.

Lemma release_gone a r s : agentLocks (releaseAgentLock a r s) !! a = None.
Proof. rewrite release_locks. apply lookup_delete_eq. Qed.

Lemma release_other a b r s :
  a <> b -> agentLocks (releaseAgentLock a r s) !! b = agentLocks s !! b.
Proof. intros. rewrite release_locks. now apply lookup_delete_ne. Qed.

End Release.

(** C9. [releaseAgentLock] is total, leaves no entry for the agent, and a
    second call, or a call for an agent that has no entry, changes neither
    the lock table nor the armed timers. *)
Theorem release_idempotent (a r r' : string) (s : Sys) :
  agentLocks (releaseAgentLock a r s) !! a = None /\
  agentLocks (releaseAgentLock a r' (releaseAgentLock a r s)) !! a = None /\
  agentLocks (releaseAgentLock a r' (releaseAgentLock a r s))
    = agentLocks (releaseAgentLock a r s) /\
  timers (releaseAgentLock a r' (releaseAgentLock a r s))
    = timers (releaseAgentLock a r s) /\
  (agentLocks s !! a = None ->
   agentLocks (releaseAgentLock a r s) = agentLocks s /\
   timers (releaseAgentLock a r s) = timers s /\
   agentLocks (releaseAgentLock a r s) !! a = None).
Proof.
  repeat split.
  - apply release_gone.
  - apply release_gone.
  - rewrite (release_locks a r'). apply delete_id, release_gone.
  - rewrite (release_timers a r'). now rewrite release_gone.
  - rewrite release_locks. now apply delete_id.
  - rewrite release_timers. now rewrite H.
  - apply release_gone.
Qed.

Lemma release_idempotent_witness :
  agentLocks boot !! "A1" = None /\
  agentLocks (releaseAgentLock "A1" "frontend_release" boot) = agentLocks boot.
Proof.
  split; [reflexivity |].
  apply (release_idempotent "A1" "frontend_release" "timeout" boot). reflexivity.
Defined.

(** ** The dispatch route *)

Section DispatchFacts.

Variables (now : Z) (req : Request) (s : Sys) (agent : jsval) (tok : string).
Hypothesis Hbody : body_agent_id req = Some agent.
Hypothesis Htok : bearer req = JStr tok.
Hypothesis Hne : str_empty tok = false.

Let agentKey := agentKey_of agent.

Lemma dispatch_rejected l :
  agentLocks s !! agentKey = Some l -> blocks l = true ->
  dispatch_begin now req s =
  send {| http_status := 409;
          body := BCallInProgress agentKey (or_ (currentCallId l) JUndefined) |} s.
Proof.
  intros Hl Hb. unfold dispatch_begin. rewrite Hbody, Htok, Hne.
  fold agentKey. now rewrite Hl, Hb.
Qed.

Lemma dispatch_granted :
  match agentLocks s !! agentKey with
  | Some l => blocks l = false
  | None => True
  end ->
  dispatch_begin now req s =
  bump (set_dispatches
          (insert (fresh s) {| d_agentKey := agentKey; d_token := tok |})
          (set_agentLocks
             (insert agentKey {| currentCallId := JNull; startedAt := Some now;
                                 timer := None; interval := None |}) s)).
Proof.
  intros Hl. unfold dispatch_begin. rewrite Hbody, Htok, Hne. fold agentKey.
  destruct (agentLocks s !! agentKey) as [l|]; [now rewrite Hl | reflexivity].
Qed.

End DispatchFacts.

Lemma dispatch_rejected_failure rid now e s d :
  dispatches s !! rid = Some d ->
  dispatch_resume rid now (Rejected e) s = send (error_reply e) (set_dispatches (delete rid) s).
Proof. intros H. unfold dispatch_resume. now rewrite H. Qed.

(** C8. When the provider's reply to a dispatch carries no call identifier,
    the handler starts no watcher and no tick, arms one 3000 ms timer whose
    handle it stores in the agent's entry, and that timer, once its delay has
    passed, removes the agent's entry with the reason no_id_auto_release. *)
Theorem no_id_auto_release (s : Sys) (rid : nat) (d : Dispatch) (now : Z)
    (data : dispatch_data) :
  dispatches s !! rid = Some d ->
  truthy (or_ (or_ (dd_call_log_id data) (dd_id data)) (dd_call_id data)) = false ->
  let s' := dispatch_resume rid now (Resolved data) s in
  watchers s' = watchers s /\
  ticks s' = ticks s /\
  timers s' = <[fresh s := {| cb := CbNoId (d_agentKey d); delay := 3000;
                              armedAt := now; repeats := false |}]> (timers s) /\
  (exists l, agentLocks s' !! d_agentKey d = Some l /\
             timer l = Some (fresh s) /\
             interval l = interval (default empty_obj (agentLocks s !! d_agentKey d))) /\
  (forall now', now' < now + 3000 -> fire (fresh s) now' s' = s') /\
  (forall now', now + 3000 <= now' ->
     agentLocks (fire (fresh s) now' s') !! d_agentKey d = None /\
     released (fire (fresh s) now' s') = (d_agentKey d, "no_id_auto_release") :: released s /\
     watchers (fire (fresh s) now' s') = watchers s /\
     ticks (fire (fresh s) now' s') = ticks s).
Proof.
  intros Hd Hid s'. subst s'. unfold dispatch_resume. rewrite Hd, Hid.
  cbn [arm fst snd]. repeat split.
  - eexists. split; [apply lookup_insert_eq |]. split; reflexivity.
  - intros now' Hlt. unfold fire. cbn [timers send set_agentLocks bump set_timers set_dispatches].
    rewrite lookup_insert_eq. cbn [armedAt delay].
    now rewrite (proj2 (Z.leb_gt _ _)) by lia.
  - unfold fire. cbn [timers send set_agentLocks bump set_timers set_dispatches].
    rewrite lookup_insert_eq. cbn [armedAt delay repeats cb].
    rewrite (proj2 (Z.leb_le _ _)) by lia. apply release_gone.
  - unfold fire. cbn [timers send set_agentLocks bump set_timers set_dispatches].
    rewrite lookup_insert_eq. cbn [armedAt delay repeats cb].
    rewrite (proj2 (Z.leb_le _ _)) by lia. now rewrite release_log.
  - unfold fire. cbn [timers send set_agentLocks bump set_timers set_dispatches].
    rewrite lookup_insert_eq. cbn [armedAt delay repeats cb].
    rewrite (proj2 (Z.leb_le _ _)) by lia.
    now rewrite (proj1 (release_rest _ _ _)).
  - unfold fire. cbn [timers send set_agentLocks bump set_timers set_dispatches].
    rewrite lookup_insert_eq. cbn [armedAt delay repeats cb].
    rewrite (proj2 (Z.leb_le _ _)) by lia.
    now rewrite (proj1 (proj2 (release_rest _ _ _))).
Qed.

Import Sample.

Lemma no_id_auto_release_witness :
  agentLocks (fire 1 4500 (dispatch_resume 0 1500 (Resolved no_id)
                             (dispatch_begin 1000 req_A1 boot))) !! "A1" = None.
Proof.
  refine (proj1 (proj2 (proj2 (proj2 (proj2 (proj2
    (no_id_auto_release (dispatch_begin 1000 req_A1 boot) 0
       {| d_agentKey := "A1"; d_token := "secret" |} 1500 no_id _ _))))) 4500 _)).
  - reflexivity.
  - reflexivity.
  - lia.
Defined.

(** C2, evaluated where the provider's dispatch call fails. The entry made at
    acceptance stays in the table with no timer and no interval handle, no
    timer is armed, no watcher and no tick exists, and the next dispatch for
    the agent is answered 409. *)
Theorem failed_dispatch_keeps_lock :
  let s := run boot [ EDispatch 1000 req_A1; EProvider 0 1500 (Rejected err503) ] in
  agentLocks s !! "A1" = Some {| currentCallId := JNull; startedAt := Some 1000;
                                 timer := None; interval := None |} /\
  timers s = ∅ /\ watchers s = ∅ /\ ticks s = ∅ /\ dispatches s = ∅ /\
  released s = [] /\
  outbox s = [ {| http_status := 503; body := BError err503 |} ] /\
  outbox (step s (EDispatch 99000 req_A1)) =
    {| http_status := 409; body := BCallInProgress "A1" JUndefined |} :: outbox s.
Proof. vm_compute. repeat split. Qed.

(** C3, as the code has it. Of two dispatch requests for the same agent
    that arrive one after the other, the agent having no entry before and the
    first provider call still pending, the first is granted and the second
    is answered 409 without touching the table. A dispatch is answered 409
    whenever the agent's entry holds a call identifier or a reservation
    timestamp; an entry with only a reservation timestamp blocks, and the 409
    then carries no current call id. *)
Theorem dispatch_exclusive :
  (forall s now1 now2 req1 req2 agent tok1 tok2,
      body_agent_id req1 = Some agent -> body_agent_id req2 = Some agent ->
      bearer req1 = JStr tok1 -> str_empty tok1 = false ->
      bearer req2 = JStr tok2 -> str_empty tok2 = false ->
      agentLocks s !! agentKey_of agent = None -> now1 <> 0 ->
      let s1 := dispatch_begin now1 req1 s in
      let s2 := dispatch_begin now2 req2 s1 in
      outbox s1 = outbox s /\
      dispatches s1 !! fresh s = Some {| d_agentKey := agentKey_of agent; d_token := tok1 |} /\
      agentLocks s1 !! agentKey_of agent =
        Some {| currentCallId := JNull; startedAt := Some now1;
                timer := None; interval := None |} /\
      outbox s2 = {| http_status := 409;
                     body := BCallInProgress (agentKey_of agent) JUndefined |} :: outbox s /\
      agentLocks s2 = agentLocks s1 /\ dispatches s2 = dispatches s1) /\
  (forall s now req agent tok l,
      body_agent_id req = Some agent ->
      bearer req = JStr tok -> str_empty tok = false ->
      agentLocks s !! agentKey_of agent = Some l -> blocks l = true ->
      let s' := dispatch_begin now req s in
      outbox s' = {| http_status := 409;
                     body := BCallInProgress (agentKey_of agent)
                               (or_ (currentCallId l) JUndefined) |} :: outbox s /\
      agentLocks s' = agentLocks s /\ dispatches s' = dispatches s) /\
  (forall t tm iv, t <> 0 ->
      blocks {| currentCallId := JNull; startedAt := Some t; timer := tm; interval := iv |}
        = true /\
      or_ JNull JUndefined = JUndefined).
Proof.
  split; [| split].
  - intros s now1 now2 req1 req2 agent tok1 tok2 Hb1 Hb2 Ht1 He1 Ht2 He2 Hfree Hnow s1 s2.
    pose proof (dispatch_granted now1 req1 s agent tok1 Hb1 Ht1 He1) as Hs1.
    rewrite Hfree in Hs1. specialize (Hs1 I). fold s1 in Hs1.
    assert (Hl : agentLocks s1 !! agentKey_of agent =
                 Some {| currentCallId := JNull; startedAt := Some now1;
                         timer := None; interval := None |})
      by (rewrite Hs1; apply lookup_insert_eq).
    pose proof (dispatch_rejected now2 req2 s1 agent tok2 Hb2 Ht2 He2 _ Hl) as Hs2.
    fold s2 in Hs2. rewrite Hs2 by (unfold blocks; cbn; now apply Z.eqb_neq in Hnow as ->).
    repeat split; try assumption.
    + now rewrite Hs1.
    + rewrite Hs1. apply lookup_insert_eq.
    + cbn. now rewrite Hs1.
  - intros s now req agent tok l Hb Ht He Hl Hblk s'. subst s'.
    now rewrite (dispatch_rejected now req s agent tok Hb Ht He l Hl Hblk).
  - intros t tm iv Ht. split; [| reflexivity].
    unfold blocks. cbn. now apply Z.eqb_neq in Ht as ->.
Qed.

Lemma dispatch_exclusive_witness :
  outbox (dispatch_begin 1001 req_A1 (dispatch_begin 1000 req_A1 boot)) =
  [ {| http_status := 409; body := BCallInProgress "A1" JUndefined |} ].
Proof.
  refine (proj1 (proj2 (proj2 (proj2
    (proj1 dispatch_exclusive boot 1000 1001 req_A1 req_A1 (JStr "A1") "secret" "secret"
       _ _ _ _ _ _ _ _))))); try reflexivity.
  discriminate.
Defined.

(** C3 as stated fails: an entry can exist and not block. A release arrives
    while the provider call of the first dispatch is pending, and the reply
    then carries no identifier: the handler stores an entry holding only the
    auto-release timer, and the next dispatch for the agent is granted. *)
Lemma entry_without_reservation_grants :
  let s := run boot [ EDispatch 1000 req_A1; ERelease req_A1;
                      EProvider 0 1500 (Resolved no_id) ] in
  agentLocks s !! "A1" = Some {| currentCallId := JUndefined; startedAt := None;
                                 timer := Some 1%nat; interval := None |} /\
  outbox (step s (EDispatch 1600 req_A1)) = outbox s /\
  dispatches (step s (EDispatch 1600 req_A1)) !! 2%nat =
    Some {| d_agentKey := "A1"; d_token := "secret" |} /\
  ~ (forall s now req agent tok l,
        body_agent_id req = Some agent ->
        bearer req = JStr tok -> str_empty tok = false ->
        agentLocks s !! agentKey_of agent = Some l ->
        exists b, outbox (dispatch_begin now req s) = {| http_status := 409; body := b |} :: outbox s).
Proof.
  cbv zeta. split; [vm_compute; reflexivity |].
  split; [vm_compute; reflexivity |]. split; [vm_compute; reflexivity |].
  intros H.
  destruct (H (run boot [ EDispatch 1000 req_A1; ERelease req_A1;
                          EProvider 0 1500 (Resolved no_id) ])
              1600 req_A1 (JStr "A1") "secret"
              {| currentCallId := JUndefined; startedAt := None;
                 timer := Some 1%nat; interval := None |}) as [b Hb];
    try (vm_compute; reflexivity).
  vm_compute in Hb. discriminate Hb.
Qed.

(** C10. POST /agent/release reads no header: whatever the request, it
    releases the agent's key and replies 200 with ok true, and with no
    agent_id in the body the key is default, the key under which a dispatch
    without agent_id takes its lock. The other routes reply 401 to a request
    with a body and no Authorization header. *)
Theorem agent_release_open :
  (forall req s,
      let key := agentKey_of (default JUndefined (body_agent_id req)) in
      outbox (agent_release req s) =
        {| http_status := 200; body := BReleased true key |} :: outbox s /\
      agentLocks (agent_release req s) !! key = None /\
      released (agent_release req s) = (key, "frontend_release") :: released s) /\
  (forall req,
      body_agent_id req = None \/ body_agent_id req = Some JUndefined ->
      agentKey_of (default JUndefined (body_agent_id req)) = "default") /\
  (forall now req tok s,
      body_agent_id req = Some JUndefined ->
      bearer req = JStr tok -> str_empty tok = false ->
      agentLocks s !! "default" = None ->
      agentLocks (dispatch_begin now req s) !! "default" =
        Some {| currentCallId := JNull; startedAt := Some now;
                timer := None; interval := None |}) /\
  (forall now req v s,
      authorization req = None -> body_agent_id req = Some v ->
      outbox (dispatch_begin now req s) = no_token :: outbox s) /\
  (forall r req v,
      authorization req = None -> body_agent_id req = Some v ->
      proxy_begin r req = Some no_token).
Proof.
  repeat split.
  - unfold agent_release, send. cbn [outbox].
    destruct (body_agent_id req); cbn [default];
      now rewrite (proj2 (proj2 (proj2 (proj2 (release_rest _ _ _))))).
  - unfold agent_release, send. cbn [agentLocks].
    destruct (body_agent_id req); cbn [default]; apply release_gone.
  - unfold agent_release, send. cbn [released].
    destruct (body_agent_id req); cbn [default]; now rewrite release_log.
  - intros req [-> | ->]; reflexivity.
  - intros now req tok s Hb Ht He Hfree.
    rewrite (dispatch_granted now req s JUndefined tok Hb Ht He) by (cbn; now rewrite Hfree).
    cbn. apply lookup_insert_eq.
  - intros now req v s Ha Hb. unfold dispatch_begin, bearer. now rewrite Hb, Ha.
  - intros r req v Ha Hb. unfold proxy_begin, bearer. rewrite Hb, Ha. now destruct r.
Qed.

Lemma agent_release_open_witness :
  agentKey_of (default JUndefined (body_agent_id req_bare)) = "default" /\
  agentLocks (dispatch_begin 1000 req_no_agent boot) !! "default" =
    Some {| currentCallId := JNull; startedAt := Some 1000; timer := None; interval := None |} /\
  proxy_begin CallLogs {| authorization := None; body_agent_id := Some (JStr "A1") |}
    = Some no_token.
Proof.
  destruct agent_release_open as (_ & Hkey & Hdisp & _ & Hproxy).
  split; [| split].
  - apply Hkey. now left.
  - apply (Hdisp 1000 req_no_agent "secret" boot); reflexivity.
  - apply (Hproxy CallLogs _ (JStr "A1")); reflexivity.
Defined.

(** ** Timers and releases *)

Section Disarmed.

Variable h : nat.

Lemma clear_none o (ts : gmap nat Timer) : ts !! h = None -> clear o ts !! h = None.
Proof.
  destruct o as [i|]; cbn; [| trivial]. intros H.
  destruct (decide (i = h)) as [-> | Hne];
    [apply lookup_delete_eq | now rewrite lookup_delete_ne].
Qed.

Lemma disarmed_release a r s : disarmed h s -> disarmed h (releaseAgentLock a r s).
Proof.
  intros [Hlt Hn]. split.
  - now rewrite (proj1 (proj2 (proj2 (proj2 (release_rest a r s))))).
  - rewrite release_timers. destruct (agentLocks s !! a); [| assumption].
    now do 2 apply clear_none.
Qed.

Lemma disarmed_arm t s : disarmed h s -> disarmed h (arm t s).2.
Proof.
  intros [Hlt Hn]. split; cbn; [lia |].
  rewrite lookup_insert_ne by lia. assumption.
Qed.

Lemma disarmed_tick_finish wid st art s :
  disarmed h s -> disarmed h (tick_finish wid st art s).
Proof.
  intros H. unfold tick_finish.
  repeat case_match; try apply disarmed_release; assumption.
Qed.

Lemma disarmed_list_release p w d s :
  disarmed h s -> disarmed h (list_release p w d s).
Proof.
  intros H. unfold list_release.
  repeat case_match; try apply disarmed_release; assumption.
Qed.

Lemma disarmed_emergency now b w s :
  disarmed h s -> disarmed h (emergency_unlock now b w s).
Proof.
  intros H. unfold emergency_unlock.
  case_match; try apply disarmed_release; assumption.
Qed.

Lemma disarmed_start a c tk now s :
  disarmed h s -> disarmed h (startCompletionWatcher a c tk now s).
Proof.
  intros [Hlt Hn]. split; cbn; [lia |].
  rewrite !lookup_insert_ne by lia. assumption.
Qed.

Lemma disarmed_step s e : disarmed h s -> disarmed h (step s e).
Proof.
  intros H. destruct e as [now req | rid now out | req | h' now | tid now out | tid now out];
    cbn [step].
  - unfold dispatch_begin. destruct H as [Hlt Hn].
    repeat case_match; split; cbn; auto with lia.
  - unfold dispatch_resume.
    destruct (dispatches s !! rid) as [d|]; [| assumption].
    destruct out as [data | e]; [| exact H].
    case_match.
    + now apply (disarmed_start _ _ _ _ (set_dispatches (delete rid) s)).
    + destruct H as [Hlt Hn]. split; cbn; [lia |].
      rewrite lookup_insert_ne by lia. assumption.
  - unfold agent_release. now apply (disarmed_release _ _ s).
  - unfold fire. destruct (timers s !! h') as [t|] eqn:Ht; [| assumption].
    case_match; [| assumption].
    assert (h' <> h) by (destruct H as [_ Hn]; congruence).
    assert (disarmed h (if repeats t
                        then set_timers (insert h' {| cb := cb t; delay := delay t;
                                                      armedAt := now; repeats := true |}) s
                        else set_timers (delete h') s)) as Hdis.
    { destruct H as [Hlt Hn]. destruct (repeats t); split; cbn; try assumption.
      - now rewrite lookup_insert_ne.
      - now rewrite lookup_delete_ne. }
    destruct (cb t); try now apply disarmed_release.
    destruct Hdis as [Hlt Hn]. split; cbn; [| assumption].
    destruct (repeats t); cbn in *; lia.
  - unfold tick_detail.
    destruct (ticks s !! tid) as [[wid []]|]; try assumption.
    destruct (watchers s !! wid) as [w|]; [| assumption].
    destruct out as [d | e].
    + destruct (poll_ok now d w) as [[[w' st] art] cross].
      destruct cross; [exact H |]. now apply disarmed_tick_finish.
    + destruct (poll_err now e w) as [[w' bad] cross]. destruct cross; exact H.
  - unfold tick_list.
    destruct (ticks s !! tid) as [[wid []]|]; try assumption;
      destruct (watchers s !! wid) as [w|]; try assumption.
    + apply disarmed_tick_finish. destruct out; [now apply disarmed_list_release | exact H].
    + destruct out; [now apply disarmed_list_release | now apply disarmed_emergency].
Qed.

Lemma disarmed_run es s : disarmed h s -> disarmed h (run s es).
Proof.
  revert s. induction es as [|e es IH]; intros s H; cbn; [assumption |].
  apply IH, disarmed_step, H.
Qed.

Lemma disarmed_fire now s : disarmed h s -> fire h now s = s.
Proof. intros [_ Hn]. unfold fire. now rewrite Hn. Qed.

End Disarmed.

Section Issued.

Lemma shrinks_refl s : shrinks s s.
Proof. split; auto. Qed.

Lemma shrinks_release a r s : shrinks s (releaseAgentLock a r s).
Proof.
  split.
  - intros b l. rewrite release_locks. now intros [_ H]%lookup_delete_Some.
  - now rewrite (proj1 (proj2 (proj2 (proj2 (release_rest a r s))))).
Qed.

Lemma issued_shrinks s s' : shrinks s s' -> handles_issued s -> handles_issued s'.
Proof.
  intros [Hl Hf] Hs a l h Ha Hh. specialize (Hs a l h (Hl _ _ Ha) Hh). lia.
Qed.

Lemma issued_release a r s : handles_issued s -> handles_issued (releaseAgentLock a r s).
Proof. apply issued_shrinks, shrinks_release. Qed.

Lemma issued_tick_finish wid st art s :
  handles_issued s -> handles_issued (tick_finish wid st art s).
Proof.
  intros H. unfold tick_finish. repeat case_match; try apply issued_release; assumption.
Qed.

Lemma issued_list_release p w d s :
  handles_issued s -> handles_issued (list_release p w d s).
Proof.
  intros H. unfold list_release. repeat case_match; try apply issued_release; assumption.
Qed.

Lemma issued_insert a l n s :
  handles_issued s -> (fresh s <= n)%nat ->
  (forall h, holds l h -> (h < n)%nat) ->
  forall b l' h, <[a:=l]> (agentLocks s) !! b = Some l' -> holds l' h -> (h < n)%nat.
Proof.
  intros Hs Hn Hl b l' h Hb Hh.
  destruct (decide (a = b)) as [-> | Hne].
  - rewrite lookup_insert_eq in Hb. injection Hb as <-. auto.
  - rewrite lookup_insert_ne in Hb by assumption. specialize (Hs _ _ _ Hb Hh). lia.
Qed.

Lemma issued_step s e : handles_issued s -> handles_issued (step s e).
Proof.
  intros H. destruct e as [now req | rid now out | req | h' now | tid now out | tid now out];
    cbn [step].
  - unfold dispatch_begin.
    repeat case_match; try exact H;
      (intros b l' h; cbn; apply issued_insert; [exact H | lia |]);
      intros h0 [Hh | Hh]; discriminate Hh.
  - unfold dispatch_resume.
    destruct (dispatches s !! rid) as [d|]; [| assumption].
    destruct out as [data | e]; [| exact H].
    case_match.
    + intros b l' h. cbn. apply issued_insert; [exact H | lia |].
      intros h0 [Hh | Hh]; cbn in Hh; injection Hh as <-; lia.
    + intros b l' h. cbn. apply issued_insert; [exact H | lia |].
      intros h0 [Hh | Hh]; cbn in Hh; [injection Hh as <-; lia |].
      destruct (agentLocks s !! d_agentKey d) as [l0|] eqn:Hl0; cbn in Hh.
      * assert (h0 < fresh s)%nat by (apply (H _ _ _ Hl0); now right). lia.
      * discriminate Hh.
  - unfold agent_release. now apply (issued_release _ _ s).
  - unfold fire. destruct (timers s !! h') as [t|] eqn:Ht; [| assumption].
    case_match; [| assumption].
    assert (handles_issued (if repeats t
                            then set_timers (insert h' {| cb := cb t; delay := delay t;
                                                          armedAt := now; repeats := true |}) s
                            else set_timers (delete h') s)) as Hmid
      by (destruct (repeats t); exact H).
    destruct (cb t); try now apply issued_release.
    intros b l' h Hb Hh. specialize (Hmid b l' h). cbn in *.
    destruct (repeats t); cbn in *; specialize (Hmid Hb Hh); lia.
  - unfold tick_detail.
    destruct (ticks s !! tid) as [[wid []]|]; try assumption.
    destruct (watchers s !! wid) as [w|]; [| assumption].
    destruct out as [d | e].
    + destruct (poll_ok now d w) as [[[w' st] art] cross].
      destruct cross; [exact H |]. now apply issued_tick_finish.
    + destruct (poll_err now e w) as [[w' bad] cross]. destruct cross; exact H.
  - unfold tick_list.
    destruct (ticks s !! tid) as [[wid []]|]; try assumption;
      destruct (watchers s !! wid) as [w|]; try assumption.
    + apply issued_tick_finish. destruct out; [now apply issued_list_release | exact H].
    + destruct out; [now apply issued_list_release |].
      unfold emergency_unlock. case_match; [now apply issued_release | exact H].
Qed.

Lemma issued_run es s : handles_issued s -> handles_issued (run s es).
Proof.
  revert s. induction es as [|e es IH]; intros s H; cbn; [assumption |].
  apply IH, issued_step, H.
Qed.

Lemma issued_boot : handles_issued boot.
Proof. intros a l h Ha. cbn in Ha. now rewrite lookup_empty in Ha. Qed.

End Issued.

Section Cleared.

Variables (a : string) (l : Lock) (h : nat).
Hypothesis Hheld : holds l h.

Local Abbreviation kept := (kept_or_cleared a l h).

Lemma koc_release b r s : kept s -> kept (releaseAgentLock b r s).
Proof.
  intros [Hl | [Hl Ht]].
  - destruct (decide (b = a)) as [-> | Hne].
    + right. split; [apply release_gone |].
      rewrite release_timers, Hl.
      destruct Hheld as [Hh | Hh]; rewrite Hh; cbn.
      * apply lookup_delete_eq.
      * apply clear_none, lookup_delete_eq.
    + left. now rewrite release_other.
  - right. split.
    + rewrite release_locks.
      destruct (decide (b = a)) as [-> | Hne];
        [apply lookup_delete_eq | now rewrite lookup_delete_ne].
    + rewrite release_timers. destruct (agentLocks s !! b); [| assumption].
      now do 2 apply clear_none.
Qed.

Lemma koc_tick_finish wid st art s :
  kept s -> kept (tick_finish wid st art s).
Proof.
  intros H. unfold tick_finish. repeat case_match; try apply koc_release; assumption.
Qed.

Lemma koc_list_release p w d s :
  kept s -> kept (list_release p w d s).
Proof.
  intros H. unfold list_release. repeat case_match; try apply koc_release; assumption.
Qed.

Lemma insert_not_gone (k : string) (v : Lock) (m : gmap string Lock) :
  m !! a = Some l -> <[k:=v]> m !! a <> None.
Proof.
  intros Hm. destruct (decide (k = a)) as [-> | Hne].
  - now rewrite lookup_insert_eq.
  - rewrite lookup_insert_ne by assumption. congruence.
Qed.

(** An event that removes the entry disarms the timers the entry held. *)
Lemma step_clears s e :
  agentLocks s !! a = Some l -> agentLocks (step s e) !! a = None ->
  timers (step s e) !! h = None.
Proof.
  intros Hl Hgone.
  assert (kept s) as Hk by now left.
  assert (kept (step s e) -> timers (step s e) !! h = None) as Hfin
    by (intros [Hs | [_ Ht]]; [congruence | exact Ht]).
  destruct e as [now req | rid now out | req | h' now | tid now out | tid now out];
    cbn [step] in *.
  - exfalso. revert Hgone. unfold dispatch_begin.
    repeat case_match; cbn; try congruence; now apply insert_not_gone.
  - exfalso. revert Hgone. unfold dispatch_resume.
    destruct (dispatches s !! rid) as [d|]; [| congruence].
    destruct out as [data | e]; [| cbn; congruence].
    case_match; cbn; now apply insert_not_gone.
  - apply Hfin. unfold agent_release. now apply (koc_release _ _ s).
  - apply Hfin. unfold fire.
    destruct (timers s !! h') as [t|] eqn:Ht; [| assumption].
    case_match; [| assumption].
    assert (kept (if repeats t
                             then set_timers (insert h' {| cb := cb t; delay := delay t;
                                                           armedAt := now; repeats := true |}) s
                             else set_timers (delete h') s)) as Hmid
      by (left; destruct (repeats t); exact Hl).
    destruct (cb t); try now apply koc_release.
    left. destruct (repeats t); exact Hl.
  - apply Hfin. unfold tick_detail.
    destruct (ticks s !! tid) as [[wid []]|]; try assumption.
    destruct (watchers s !! wid) as [w|]; [| assumption].
    destruct out as [d | e].
    + destruct (poll_ok now d w) as [[[w' st] art] cross].
      destruct cross; [now left |]. apply koc_tick_finish. now left.
    + destruct (poll_err now e w) as [[w' bad] cross]. destruct cross; now left.
  - apply Hfin. unfold tick_list.
    destruct (ticks s !! tid) as [[wid []]|]; try assumption;
      destruct (watchers s !! wid) as [w|]; try assumption.
    + apply koc_tick_finish. destruct out; [apply koc_list_release |]; now left.
    + destruct out; [apply koc_list_release; now left |].
      unfold emergency_unlock. case_match; [apply koc_release |]; now left.
Qed.

End Cleared.

Section FreshMonotone.

Lemma fresh_release a r s : fresh (releaseAgentLock a r s) = fresh s.
Proof. apply release_rest. Qed.

Lemma fresh_tick_finish wid st art s : fresh (tick_finish wid st art s) = fresh s.
Proof.
  unfold tick_finish. repeat case_match; rewrite ?fresh_release; reflexivity.
Qed.

Lemma fresh_list_release p w d s : fresh (list_release p w d s) = fresh s.
Proof.
  unfold list_release. repeat case_match; rewrite ?fresh_release; reflexivity.
Qed.

Lemma fresh_step s e : (fresh s <= fresh (step s e))%nat.
Proof.
  destruct e as [now req | rid now out | req | h' now | tid now out | tid now out];
    cbn [step].
  - unfold dispatch_begin. repeat case_match; cbn; lia.
  - unfold dispatch_resume, startCompletionWatcher, arm.
    repeat case_match; cbn; lia.
  - unfold agent_release, send. cbn [fresh]. now rewrite fresh_release.
  - unfold fire. destruct (timers s !! h') as [t|]; [| lia].
    case_match; [| lia].
    destruct (cb t); rewrite ?fresh_release; destruct (repeats t); cbn; lia.
  - unfold tick_detail.
    destruct (ticks s !! tid) as [[wid []]|]; try lia.
    destruct (watchers s !! wid) as [w|]; [| lia].
    destruct out as [d | e].
    + destruct (poll_ok now d w) as [[[w' st] art] cross].
      destruct cross; [cbn; lia |]. rewrite fresh_tick_finish. cbn. lia.
    + destruct (poll_err now e w) as [[w' bad] cross]. destruct cross; cbn; lia.
  - unfold tick_list.
    destruct (ticks s !! tid) as [[wid []]|]; try lia;
      destruct (watchers s !! wid) as [w|]; try lia.
    + rewrite fresh_tick_finish.
      destruct out; rewrite ?fresh_list_release; cbn; lia.
    + destruct out; rewrite ?fresh_list_release; [cbn; lia |].
      unfold emergency_unlock. case_match; rewrite ?fresh_release; cbn; lia.
Qed.

End FreshMonotone.

(** C4, as the code has it. In any state the process can reach, an event
    that removes an agent's entry, whatever triggered it, leaves the poll
    timer and the failsafe timer held by that entry disarmed; they stay
    disarmed through every later event, and their firing changes nothing. *)
Theorem release_cancels_timers (es es' : list event) (e : event) (a : string)
    (l : Lock) (h : nat) (now : Z) :
  agentLocks (run boot es) !! a = Some l ->
  holds l h ->
  agentLocks (step (run boot es) e) !! a = None ->
  let s' := run (step (run boot es) e) es' in
  timers s' !! h = None /\ step s' (ETimer h now) = s'.
Proof.
  intros Hl Hh Hgone s'.
  assert (disarmed h s') as Hd.
  { apply disarmed_run. split.
    - pose proof (issued_run es boot issued_boot a l h Hl Hh).
      pose proof (fresh_step (run boot es) e). lia.
    - now apply (step_clears a l h Hh). }
  split; [apply Hd | now apply disarmed_fire].
Qed.

Lemma release_cancels_timers_witness :
  let s' := run (step (run boot [ EDispatch 1000 req_A1;
                                  EProvider 0 1100 (Resolved (with_id "c1")) ])
                   (ERelease req_A1)) [ EDispatch 3000 req_A1 ] in
  timers s' !! 2%nat = None /\ step s' (ETimer 2 5000) = s'.
Proof.
  apply (release_cancels_timers
           [ EDispatch 1000 req_A1; EProvider 0 1100 (Resolved (with_id "c1")) ]
           [ EDispatch 3000 req_A1 ] (ERelease req_A1) "A1"
           {| currentCallId := JStr "c1"; startedAt := Some 1100;
              timer := Some 1%nat; interval := Some 2%nat |} 2 5000).
  - vm_compute. reflexivity.
  - right. reflexivity.
  - vm_compute. reflexivity.
Defined.

(** C4 as stated fails: a tick in flight outlives the release. The watcher
    of call c1 has sent its detail request (tick 3) when the client releases
    agent A1 and a new dispatch takes the lock; the detail reply then says
    completed and the old tick removes the new entry. *)
Lemma stale_tick_removes_new_entry :
  let s := run started [ ETimer 2 2100; ERelease req_A1; EDispatch 2200 req_A1 ] in
  released s = [ ("A1", "frontend_release") ] /\
  timers s = ∅ /\
  ticks s !! 3%nat = Some {| t_watcher := 2%nat; t_stage := AwaitDetail |} /\
  agentLocks s !! "A1" = Some {| currentCallId := JNull; startedAt := Some 2200;
                                 timer := None; interval := None |} /\
  agentLocks (step s (EDetail 3 2300 (polled "completed"))) !! "A1" = None /\
  released (step s (EDetail 3 2300 (polled "completed"))) =
    [ ("A1", "final_status:completed"); ("A1", "frontend_release") ].
Proof. vm_compute. repeat split. Qed.

(** ** The error path of the watcher *)

(** A failed detail request releases nothing by itself: the catch block does
    so only after its own list request has settled. *)
Lemma detail_error_keeps_lock tid now e s :
  agentLocks (tick_detail tid now (Rejected e) s) = agentLocks s /\
  released (tick_detail tid now (Rejected e) s) = released s.
Proof.
  unfold tick_detail.
  destruct (ticks s !! tid) as [[wid []]|]; try (split; reflexivity).
  destruct (watchers s !! wid) as [w|]; [| split; reflexivity].
  destruct (poll_err now e w) as [[w' bad] cross]. destruct cross; split; reflexivity.
Qed.

(** The list request made from the catch block is throttled like any other:
    within 3000 ms of the last list check none is made and the tick ends. *)
Lemma detail_error_throttled tid wid w now e s :
  ticks s !! tid = Some {| t_watcher := wid; t_stage := AwaitDetail |} ->
  watchers s !! wid = Some w ->
  now - lastListCheckAt w < 3000 ->
  ticks (tick_detail tid now (Rejected e) s) !! tid = None.
Proof.
  intros Ht Hw Hlt. unfold tick_detail. rewrite Ht, Hw. unfold poll_err.
  rewrite (proj2 (Z.leb_gt _ _)) by lia. rewrite andb_false_r. cbn.
  apply lookup_delete_eq.
Qed.

(** When that list request fails too, the emergency unlock runs. *)
Lemma list_error_unlocks tid wid w now e s :
  ticks s !! tid = Some {| t_watcher := wid; t_stage := AwaitListOnError true |} ->
  watchers s !! wid = Some w ->
  seenOngoing w = true ->
  10 <= consecutiveErrors w \/ 45000 <= now - lastSuccessAt w ->
  agentLocks (tick_list tid now (Rejected e) s) !! agentId w = None /\
  released (tick_list tid now (Rejected e) s) = (agentId w, "api_error_fallback") :: released s.
Proof.
  intros Ht Hw Hseen Hor. unfold tick_list. rewrite Ht, Hw. unfold emergency_unlock.
  rewrite Hseen. cbn [andb].
  assert ((10 <=? consecutiveErrors w) || (45000 <=? now - lastSuccessAt w) = true) as ->.
  { apply orb_true_iff. destruct Hor; [left | right]; now apply Z.leb_le. }
  split; [apply release_gone | now rewrite release_log].
Qed.

(** C1, evaluated where the detail endpoint keeps failing with 503 while the
    list endpoint still answers. The watcher of call c1 has seen the call
    connected; sixty ticks in a row then fail, one per second, and each list
    cross-check that is made returns a page without the call. The streak is
    60 and the last success is a minute old, yet the entry of A1 is still in
    the table and nothing was released. *)
Theorem error_fallback_skipped_when_list_answers :
  let s := run started ([ ETimer 2 2100; EDetail 3 2200 (polled "connected") ]
                        ++ ticks_from 60 4 3100 (Rejected err503) list_empty) in
  is5xx err503 = true /\
  seenOngoing <$> watchers s !! 2%nat = Some true /\
  consecutiveErrors <$> watchers s !! 2%nat = Some 60 /\
  lastSuccessAt <$> watchers s !! 2%nat = Some 2200 /\
  ticks s = ∅ /\
  agentLocks s !! "A1" = Some {| currentCallId := JStr "c1"; startedAt := Some 1100;
                                 timer := Some 1%nat; interval := Some 2%nat |} /\
  released s = [].
Proof. vm_compute. repeat split. Qed.

(** The same run with a list endpoint that fails as well: the lock goes at
    the tenth failed tick. *)
Lemma error_fallback_fires_when_list_fails :
  let s := run started ([ ETimer 2 2100; EDetail 3 2200 (polled "connected") ]
                        ++ ticks_from 10 4 3100 (Rejected err503) (Rejected err_refused)) in
  agentLocks s !! "A1" = None /\
  released s = [ ("A1", "api_error_fallback") ].
Proof. vm_compute. repeat split. Qed.

(** ** The success path of the watcher *)

Lemma poll_ok_status now d w :
  (poll_ok now d w).1.1.2 = status_of (unwrap d) /\
  (poll_ok now d w).1.2 = hasEndArtifacts (unwrap d) /\
  agentId (poll_ok now d w).1.1.1 = agentId w.
Proof. repeat split. Qed.

Lemma tick_finish_final wid w st art s :
  watchers s !! wid = Some w -> is_final st art = true ->
  tick_finish wid st art s =
  releaseAgentLock (agentId w) ("final_status:" +:+ finalStatusLabel st art)
    (match lastStatus w with
     | Some l => if String.eqb st l then s
                 else set_watchers (insert wid (with_lastStatus w st)) s
     | None => set_watchers (insert wid (with_lastStatus w st)) s
     end).
Proof.
  intros Hw Hf. unfold tick_finish. rewrite Hw, Hf.
  destruct (lastStatus w) as [l|]; [| reflexivity].
  now destruct (String.eqb st l).
Qed.

Lemma tick_finish_released wid w st art s :
  watchers s !! wid = Some w -> is_final st art = true ->
  agentLocks (tick_finish wid st art s) !! agentId w = None /\
  ticks (tick_finish wid st art s) = ticks s /\
  released (tick_finish wid st art s) =
    (agentId w, "final_status:" +:+ finalStatusLabel st art) :: released s.
Proof.
  intros Hw Hf. rewrite (tick_finish_final wid w st art s Hw Hf).
  split; [apply release_gone |]. rewrite release_log.
  rewrite (proj1 (proj2 (release_rest _ _ _))).
  destruct (lastStatus w) as [l|]; [destruct (String.eqb st l) |]; split; reflexivity.
Qed.

Lemma list_release_frame p w d s :
  watchers (list_release p w d s) = watchers s /\
  ticks (list_release p w d s) = ticks s /\
  exists more, released (list_release p w d s) = (more ++ released s)%list.
Proof.
  unfold list_release.
  destruct (find_match (callLogId w) d) as [m|];
    [destruct (has FINAL_STATUSES (list_status_of m)) |].
  - rewrite release_log. destruct (release_rest (agentId w) (p +:+ list_status_of m) s)
      as (-> & -> & _). repeat split. now eexists [_].
  - repeat split. now exists [].
  - repeat split. now exists [].
Qed.

(** A detail reply whose status is in the Final set ends in a release, with
    or without a list cross-check in between. *)
Lemma final_poll_releases tid wid w now now' d lst s :
  ticks s !! tid = Some {| t_watcher := wid; t_stage := AwaitDetail |} ->
  watchers s !! wid = Some w ->
  status_of (unwrap d) ∈ FINAL_STATUSES ->
  let s' := tick_list tid now' lst (tick_detail tid now (Resolved d) s) in
  agentLocks s' !! agentId w = None /\
  ticks s' !! tid = None /\
  exists rest, released s' =
    (agentId w, "final_status:" +:+ status_of (unwrap d)) :: (rest ++ released s)%list.
Proof.
  intros Ht Hw Hin s'. subst s'.
  destruct (final_tokens _ Hin) as (_ & Hhas & Hne).
  unfold tick_detail. rewrite Ht, Hw.
  pose proof (poll_ok_status now d w) as (Hst & Hart & Hag).
  destruct (poll_ok now d w) as [[[w' st] art] cross]. cbn in Hst, Hart, Hag. subst st.
  assert (is_final (status_of (unwrap d)) art = true) as Hfin
    by (unfold is_final; now rewrite Hhas).
  assert (finalStatusLabel (status_of (unwrap d)) art = status_of (unwrap d)) as Hlab
    by (unfold finalStatusLabel; now rewrite Hne).
  destruct cross.
  - unfold tick_list. cbn [ticks set_ticks watchers set_watchers].
    rewrite !lookup_insert_eq.
    set (s0 := set_ticks (delete tid) _).
    assert (watchers s0 !! wid = Some w') as Hw0 by apply lookup_insert_eq.
    assert (ticks s0 !! tid = None) as Ht0 by apply lookup_delete_eq.
    assert (exists s1, s1 = match lst with
                            | Resolved d0 => list_release "final_status_list:" w' d0 s0
                            | Rejected _ => s0
                            end /\ watchers s1 !! wid = Some w' /\ ticks s1 !! tid = None /\
                       exists more, released s1 = (more ++ released s)%list)
      as (s1 & <- & Hw1 & Ht1 & more & Hr1).
    { eexists. split; [reflexivity |]. destruct lst as [d0 | e0].
      - destruct (list_release_frame "final_status_list:" w' d0 s0) as (-> & -> & more & ->).
        repeat split; try assumption. now exists more.
      - repeat split; try assumption. now exists []. }
    destruct (tick_finish_released wid w' _ art s1 Hw1 Hfin) as (Hl & Htk & Hrel).
    rewrite Hag in Hl, Hrel. rewrite Hlab in Hrel.
    split; [exact Hl |]. split; [now rewrite Htk |].
    exists more. now rewrite Hrel, Hr1.
  - set (s0 := set_ticks (delete tid) _).
    assert (watchers s0 !! wid = Some w') as Hw0 by apply lookup_insert_eq.
    destruct (tick_finish_released wid w' _ art s0 Hw0 Hfin) as (Hl & Htk & Hrel).
    rewrite Hag in Hl, Hrel. rewrite Hlab in Hrel.
    assert (ticks (tick_finish wid (status_of (unwrap d)) art s0) !! tid = None) as Hnone
      by (rewrite Htk; apply lookup_delete_eq).
    unfold tick_list. rewrite Hnone.
    split; [exact Hl |]. split; [exact Hnone |]. exists []. exact Hrel.
Qed.

Lemma fire_poll h wid armed now s :
  timers s !! h = Some {| cb := CbPoll wid; delay := INTERVAL_MS; armedAt := armed;
                          repeats := true |} ->
  armed + 1000 <= now ->
  fire h now s =
  bump (set_ticks (insert (fresh s) {| t_watcher := wid; t_stage := AwaitDetail |})
          (set_timers (insert h {| cb := CbPoll wid; delay := INTERVAL_MS; armedAt := now;
                                   repeats := true |}) s)).
Proof.
  intros Ht Hle. unfold fire. rewrite Ht. cbn [armedAt delay repeats cb].
  unfold INTERVAL_MS. now rewrite (proj2 (Z.leb_le _ _)) by lia.
Qed.

(** The cross-check is not due while the call has been seen active for less
    than five seconds. *)
Lemma poll_ok_no_cross now d w :
  is_ongoing (status_of (unwrap d)) = true ->
  seenOngoingAt w = 0 \/ now - seenOngoingAt w < 5000 ->
  (poll_ok now d w).2 = false /\
  seenOngoingAt (poll_ok now d w).1.1.1 = (if seenOngoingAt w =? 0 then now else seenOngoingAt w).
Proof.
  intros Hon Hsoon. unfold poll_ok. rewrite Hon. cbn -[Z.leb Z.eqb Z.sub]. split; [| reflexivity].
  destruct (seenOngoingAt w =? 0) eqn:Hz.
  - replace (5000 <=? now - now) with false by (symmetry; apply Z.leb_gt; lia).
    now rewrite !andb_false_r.
  - apply Z.eqb_neq in Hz.
    replace (5000 <=? now - seenOngoingAt w) with false by (symmetry; apply Z.leb_gt; lia).
    now rewrite !andb_false_r.
Qed.

(** One tick that sees an Ongoing status, no artifacts and no due
    cross-check leaves the entry in place and releases nothing. *)
Lemma tick_holds s a L h wid armed w f t d :
  watching s a L h wid armed w ->
  armed + 1000 <= f ->
  is_ongoing (status_of (unwrap d)) = true ->
  is_final (status_of (unwrap d)) (hasEndArtifacts (unwrap d)) = false ->
  seenOngoingAt w = 0 \/ t - seenOngoingAt w < 5000 ->
  let s' := run s [ ETimer h f; EDetail (fresh s) t (Resolved d) ] in
  (exists w', watching s' a L h wid f w' /\
              agentId w' = agentId w /\
              seenOngoingAt w' = (if seenOngoingAt w =? 0 then t else seenOngoingAt w)) /\
  released s' = released s /\
  fresh s' = S (fresh s) /\
  ticks s' !! fresh s = None.
Proof.
  intros (Hl & Ht & Hw) Hf Hon Hnf Hsoon s'. subst s'.
  cbn [run fold_left step]. rewrite (fire_poll h wid armed f s Ht Hf).
  unfold tick_detail. cbn [ticks bump set_ticks set_timers watchers fresh].
  rewrite lookup_insert_eq, Hw.
  pose proof (poll_ok_status t d w) as (Hst & Hart & Hag).
  destruct (poll_ok_no_cross t d w Hon Hsoon) as (Hcross & Hat).
  destruct (poll_ok t d w) as [[[w' st] art] cross]. cbn in Hst, Hart, Hcross, Hat, Hag.
  subst st art cross.
  unfold tick_finish. cbn [watchers set_watchers set_ticks bump set_timers].
  rewrite lookup_insert_eq, Hnf.
  assert (forall w'', seenOngoingAt w'' = seenOngoingAt w' ->
            watching (set_watchers (insert wid w'')
                        (set_ticks (delete (fresh s))
                           (set_watchers (insert wid w')
                              (bump (set_ticks (insert (fresh s)
                                       {| t_watcher := wid; t_stage := AwaitDetail |})
                                 (set_timers (insert h {| cb := CbPoll wid; delay := INTERVAL_MS;
                                                          armedAt := f; repeats := true |}) s))))))
                     a L h wid f w'') as Hupd.
  { intros w'' _. repeat split; cbn; [exact Hl | apply lookup_insert_eq | apply lookup_insert_eq]. }
  assert (watching (set_ticks (delete (fresh s))
                      (set_watchers (insert wid w')
                         (bump (set_ticks (insert (fresh s)
                                  {| t_watcher := wid; t_stage := AwaitDetail |})
                            (set_timers (insert h {| cb := CbPoll wid; delay := INTERVAL_MS;
                                                     armedAt := f; repeats := true |}) s)))))
                   a L h wid f w') as Hsame.
  { repeat split; cbn; [exact Hl | apply lookup_insert_eq | apply lookup_insert_eq]. }
  destruct (lastStatus w') as [l0|]; [destruct (String.eqb (status_of (unwrap d)) l0) |].
  - split; [exists w'; split; [exact Hsame | split; [exact Hag | exact Hat]] |].
    repeat split. cbn. apply lookup_delete_eq.
  - split; [eexists; split; [apply Hupd; reflexivity | split; [exact Hag | exact Hat]] |].
    repeat split. cbn. apply lookup_delete_eq.
  - split; [eexists; split; [apply Hupd; reflexivity | split; [exact Hag | exact Hat]] |].
    repeat split. cbn. apply lookup_delete_eq.
Qed.

Lemma unpolled_release a r s :
  final_reason r = false -> unpolled s -> unpolled (releaseAgentLock a r s).
Proof.
  intros Hr [Hrel Htk]. split.
  - rewrite release_log. now constructor.
  - now rewrite (proj1 (proj2 (release_rest a r s))).
Qed.

Lemma unpolled_step s e : is_poll_reply e = false -> unpolled s -> unpolled (step s e).
Proof.
  intros He H. destruct e as [now req | rid now out | req | h' now | tid now out | tid now out];
    try discriminate He; cbn [step].
  - unfold dispatch_begin. repeat case_match; exact H.
  - unfold dispatch_resume, startCompletionWatcher, arm. repeat case_match; exact H.
  - unfold agent_release. now apply (unpolled_release _ _ s).
  - unfold fire. destruct (timers s !! h') as [t|]; [| assumption].
    case_match; [| assumption].
    assert (unpolled (if repeats t
                      then set_timers (insert h' {| cb := cb t; delay := delay t;
                                                    armedAt := now; repeats := true |}) s
                      else set_timers (delete h') s)) as Hmid
      by (destruct (repeats t); exact H).
    destruct (cb t); try now apply unpolled_release.
    destruct Hmid as [Hrel Htk]. split.
    + destruct (repeats t); exact Hrel.
    + intros tid t0. cbn [ticks bump set_ticks].
      intros [[_ <-] | [_ Hin]]%lookup_insert_Some; [reflexivity |].
      apply (Htk tid t0). now destruct (repeats t).
  - unfold tick_list. destruct (ticks s !! tid) as [[wid stage]|] eqn:Ht; [| assumption].
    pose proof (proj2 H _ _ Ht) as Hst. cbn in Hst. subst stage. exact H.
Qed.

Lemma unpolled_run es s :
  forallb (fun e => negb (is_poll_reply e)) es = true -> unpolled s -> unpolled (run s es).
Proof.
  revert s. induction es as [|e es IH]; intros s Hes H; cbn; [assumption |].
  cbn in Hes. apply andb_prop in Hes as [He Hes].
  apply IH; [assumption |]. apply unpolled_step; [now apply negb_true_iff | assumption].
Qed.

(** The fourth kind of tick: the detail reply carries a Final status. *)
Lemma final_tick_releases s a L h wid armed w f t t' d lst :
  watching s a L h wid armed w ->
  agentId w = a ->
  armed + 1000 <= f ->
  status_of (unwrap d) ∈ FINAL_STATUSES ->
  let s' := run s [ ETimer h f; EDetail (fresh s) t (Resolved d); EList (fresh s) t' lst ] in
  agentLocks s' !! a = None /\
  exists rest, released s' =
    (a, "final_status:" +:+ status_of (unwrap d)) :: (rest ++ released s)%list.
Proof.
  intros (Hl & Ht & Hw) Hag Hf Hin s'. subst s' a.
  cbn [run fold_left step]. rewrite (fire_poll h wid armed f s Ht Hf).
  destruct (final_poll_releases (fresh s) wid w t t' d lst
              (bump (set_ticks (insert (fresh s) {| t_watcher := wid; t_stage := AwaitDetail |})
                       (set_timers (insert h {| cb := CbPoll wid; delay := INTERVAL_MS;
                                                armedAt := f; repeats := true |}) s)))
              (lookup_insert_eq _ _ _) Hw Hin) as (Hgone & _ & rest & Hrel).
  split; [exact Hgone |]. exists rest. exact Hrel.
Qed.

Lemma sample_statuses :
  (is_ongoing (status_of (unwrap (DObj (rec_status "ringing") None))) = true /\
   is_final (status_of (unwrap (DObj (rec_status "ringing") None)))
            (hasEndArtifacts (unwrap (DObj (rec_status "ringing") None))) = false) /\
  (is_ongoing (status_of (unwrap (DObj (rec_status "connected") None))) = true /\
   is_final (status_of (unwrap (DObj (rec_status "connected") None)))
            (hasEndArtifacts (unwrap (DObj (rec_status "connected") None))) = false) /\
  status_of (unwrap (DObj (rec_status "completed") None)) = "completed" /\
  "completed" ∈ FINAL_STATUSES.
Proof.
  repeat split; vm_compute; reflexivity.
Qed.

Lemma started_watching :
  watching started "A1"
    {| currentCallId := JStr "c1"; startedAt := Some 1100;
       timer := Some 1%nat; interval := Some 2%nat |} 2 2 1100
    {| agentId := "A1"; callLogId := JStr "c1"; token := "secret";
       w_startedAt := 1100; lastStatus := None; startLogged := false;
       seenOngoing := false; seenOngoingAt := 0; lastListCheckAt := 0;
       consecutiveErrors := 0; lastSuccessAt := 1100 |} /\
  fresh started = 3%nat /\ released started = [].
Proof. vm_compute. repeat split. Qed.

(** C7. With the watcher of call c1 started for agent A1 and the detail
    polls answering ringing, ringing, connected, completed, one per tick and
    the first three within five seconds, after each of the first three ticks the
    tick has run to its end, the entry of A1 is in the table and nothing has
    been released, and the fourth tick removes the entry with the reason
    final_status:completed.
    Before any detail poll has been answered no release carries a Final
    reason. A single detail reply whose status is in the Final set removes
    the entry within its tick, whether or not that tick cross-checks the
    list. *)
Theorem watcher_release_timing :
  (forall f1 f2 f3 f4 t1 t2 t3 t4 t5 lst,
      2100 <= f1 -> f1 + 1000 <= f2 -> f2 + 1000 <= f3 -> f3 + 1000 <= f4 ->
      0 < t1 -> t1 <= t2 -> t2 <= t3 -> t3 < t1 + 5000 ->
      let s1 := run started [ ETimer 2 f1; EDetail 3 t1 (polled "ringing") ] in
      let s2 := run s1 [ ETimer 2 f2; EDetail 4 t2 (polled "ringing") ] in
      let s3 := run s2 [ ETimer 2 f3; EDetail 5 t3 (polled "connected") ] in
      let s4 := run s3 [ ETimer 2 f4; EDetail 6 t4 (polled "completed"); EList 6 t5 lst ] in
      (is_Some (agentLocks started !! "A1") /\ released started = []) /\
      (is_Some (agentLocks s1 !! "A1") /\ released s1 = [] /\ ticks s1 !! 3%nat = None) /\
      (is_Some (agentLocks s2 !! "A1") /\ released s2 = [] /\ ticks s2 !! 4%nat = None) /\
      (is_Some (agentLocks s3 !! "A1") /\ released s3 = [] /\ ticks s3 !! 5%nat = None) /\
      agentLocks s4 !! "A1" = None /\
      exists rest, released s4 = ("A1", "final_status:completed") :: rest) /\
  (forall es,
      forallb (fun e => negb (is_poll_reply e)) es = true ->
      Forall (fun ar => final_reason ar.2 = false) (released (run boot es))) /\
  (forall s tid wid w now now' d lst,
      ticks s !! tid = Some {| t_watcher := wid; t_stage := AwaitDetail |} ->
      watchers s !! wid = Some w ->
      status_of (unwrap d) ∈ FINAL_STATUSES ->
      let s' := tick_list tid now' lst (tick_detail tid now (Resolved d) s) in
      agentLocks s' !! agentId w = None /\
      ticks s' !! tid = None /\
      exists rest, released s' =
        (agentId w, "final_status:" +:+ status_of (unwrap d)) :: (rest ++ released s)%list).
Proof.
  split; [| split].
  - intros f1 f2 f3 f4 t1 t2 t3 t4 t5 lst Hf1 Hf2 Hf3 Hf4 Ht1 Ht2 Ht3 Ht5.
    cbv zeta. unfold polled.
    destruct sample_statuses as ((Ro & Rf) & (Co & Cf) & Est & Efin).
    destruct started_watching as (W0 & F0 & R0).
    generalize dependent started. intros s0 W0 F0 R0.
    pose proof (tick_holds s0 _ _ _ _ _ _ f1 t1 _ W0 ltac:(lia) Ro Rf ltac:(now left)) as H1.
    rewrite F0 in H1. cbv zeta in H1.
    remember (run s0 [ ETimer 2 f1; EDetail 3 t1 (Resolved (DObj (rec_status "ringing") None)) ])
      as s1 eqn:E1. clear E1.
    destruct H1 as ((w1 & W1 & G1 & A1) & R1 & F1 & K1). cbn in A1, G1.
    pose proof (tick_holds s1 _ _ _ _ _ _ f2 t2 _ W1 ltac:(lia) Ro Rf ltac:(right; lia)) as H2.
    rewrite F1 in H2. cbv zeta in H2.
    remember (run s1 [ ETimer 2 f2; EDetail 4 t2 (Resolved (DObj (rec_status "ringing") None)) ])
      as s2 eqn:E2. clear E2.
    destruct H2 as ((w2 & W2 & G2 & A2) & R2 & F2 & K2).
    rewrite A1 in A2. replace (t1 =? 0) with false in A2 by (symmetry; apply Z.eqb_neq; lia).
    pose proof (tick_holds s2 _ _ _ _ _ _ f3 t3 _ W2 ltac:(lia) Co Cf ltac:(right; lia)) as H3.
    rewrite F2 in H3. cbv zeta in H3.
    remember (run s2 [ ETimer 2 f3; EDetail 5 t3 (Resolved (DObj (rec_status "connected") None)) ])
      as s3 eqn:E3. clear E3.
    destruct H3 as ((w3 & W3 & G3 & A3) & R3 & F3 & K3).
    assert (agentId w3 = "A1") as G by congruence.
    pose proof (final_tick_releases s3 _ _ _ _ _ _ f4 t4 t5
                  (DObj (rec_status "completed") None) lst W3 G ltac:(lia)) as H4.
    rewrite Est, F3 in H4. specialize (H4 Efin). cbv zeta in H4.
    remember (run s3 [ ETimer 2 f4; EDetail 6 t4 (Resolved (DObj (rec_status "completed") None));
                       EList 6 t5 lst ]) as s4 eqn:E4. clear E4.
    destruct W0 as (L0 & _ & _). destruct W1 as (L1 & _ & _). destruct W2 as (L2 & _ & _).
    destruct W3 as (L3 & _ & _). destruct H4 as (L4 & rest & R4).
    split; [split; [eexists; exact L0 | exact R0] |].
    split; [split; [eexists; exact L1 | split; [now rewrite R1 | exact K1]] |].
    split; [split; [eexists; exact L2 | split; [now rewrite R2, R1 | exact K2]] |].
    split; [split; [eexists; exact L3 | split; [now rewrite R3, R2, R1 | exact K3]] |].
    split; [exact L4 |]. eexists. exact R4.
  - intros es Hes. apply (unpolled_run es boot Hes). split; [constructor |].
    intros tid t Ht. cbn in Ht. now rewrite lookup_empty in Ht.
  - intros s tid wid w now now' d lst. apply final_poll_releases.
Qed.

Lemma watcher_release_timing_witness :
  let s1 := run started [ ETimer 2 2100; EDetail 3 2200 (polled "ringing") ] in
  let s2 := run s1 [ ETimer 2 3100; EDetail 4 3200 (polled "ringing") ] in
  let s3 := run s2 [ ETimer 2 4100; EDetail 5 4200 (polled "connected") ] in
  let s4 := run s3 [ ETimer 2 5100; EDetail 6 5200 (polled "completed");
                     EList 6 5300 list_empty ] in
  (is_Some (agentLocks started !! "A1") /\ released started = []) /\
  (is_Some (agentLocks s1 !! "A1") /\ released s1 = [] /\ ticks s1 !! 3%nat = None) /\
  (is_Some (agentLocks s2 !! "A1") /\ released s2 = [] /\ ticks s2 !! 4%nat = None) /\
  (is_Some (agentLocks s3 !! "A1") /\ released s3 = [] /\ ticks s3 !! 5%nat = None) /\
  agentLocks s4 !! "A1" = None /\
  exists rest, released s4 = ("A1", "final_status:completed") :: rest.
Proof.
  apply (proj1 watcher_release_timing 2100 3100 4100 5100 2200 3200 4200 5200 5300 list_empty);
    lia.
Defined.

(** ** The client's polling against the watcher's classification *)

Lemma truthy_or a b : truthy (or_ a b) = truthy a || truthy b.
Proof. unfold or_. destruct (truthy a) eqn:Ha; [now rewrite Ha | reflexivity]. Qed.

Lemma client_vocabulary :
  Client.FINAL_STATUSES = FINAL_STATUSES /\ Client.ONGOING_STATUSES = ONGOING_STATUSES.
Proof. split; vm_compute; reflexivity. Qed.

Lemma client_artifacts d :
  Client.hasEndArtifacts d =
  hasEndArtifacts d || truthy (recordingUrl d) || truthy (artifact_recordingUrl d).
Proof.
  unfold Client.hasEndArtifacts, hasEndArtifacts. rewrite !truthy_or.
  destruct (truthy (recording_url d)), (truthy (recordingUrl d)),
    (truthy (artifact_recordingUrl d)), (truthy (ended_at d)), (truthy (end_time d)),
    (truthy (duration d)); reflexivity.
Qed.

(** C5, as the code has it. The client and the watcher use the same Final
    and Ongoing sets, and every record the watcher classifies Final, by its
    status or by recording_url, ended_at, end_time or duration, ends the
    client's polling on that same poll. On a poll made before any Ongoing
    status was seen, with no non-ongoing streak running and no recordingUrl
    artifact in the record, the client finishes exactly when the watcher
    classifies Final. *)
Theorem client_agrees_on_final :
  (Client.FINAL_STATUSES = FINAL_STATUSES /\ Client.ONGOING_STATUSES = ONGOING_STATUSES) /\
  (forall c now d lst p,
      classify_norm (status_of d) (hasEndArtifacts d) = Final ->
      exists r, Client.iterate c now (Client.Ok (Some d)) lst p = Client.Finished r d) /\
  (forall c now d lst p,
      Client.seenOngoing p = false -> Client.consecutiveNonOngoing p = 0 ->
      truthy (recordingUrl d) = false -> truthy (artifact_recordingUrl d) = false ->
      (exists r ret, Client.iterate c now (Client.Ok (Some d)) lst p = Client.Finished r ret)
      <-> classify_norm (status_of d) (hasEndArtifacts d) = Final).
Proof.
  destruct client_vocabulary as [EF EO].
  split; [now split |]. split.
  - intros c now d lst p Hfin. unfold classify_norm in Hfin.
    destruct (is_final (status_of d) (hasEndArtifacts d)) eqn:Hf;
      [| destruct (is_ongoing (status_of d)); discriminate].
    unfold Client.iterate, Client.status_of. rewrite EF.
    unfold is_final in Hf. fold (status_of d).
    destruct (has FINAL_STATUSES (status_of d)); [now eexists |].
    cbn in Hf. rewrite client_artifacts, Hf. cbn. now eexists.
  - intros c now d lst p Hseen Hstreak Hcamel Hart.
    unfold classify_norm, is_final.
    unfold Client.iterate, Client.status_of. rewrite EF, EO. fold (status_of d).
    rewrite client_artifacts, Hcamel, Hart, !orb_false_r, Hseen, Hstreak.
    destruct (has FINAL_STATUSES (status_of d)) eqn:Hf; cbn [orb].
    { split; [reflexivity | intros _; now do 2 eexists]. }
    destruct (hasEndArtifacts d) eqn:Ha.
    { split; [reflexivity | intros _; now do 2 eexists]. }
    assert (forall b : bool, (if b then Ongoing else Unknown) = Final -> False) as Hno
      by (intros []; discriminate).
    split; [| intros H; destruct (Hno _ H)].
    intros (r & ret & H). exfalso. revert H.
    unfold is_ongoing.
    destruct (has ONGOING_STATUSES (status_of d)) eqn:Ho.
    + assert (str_empty (status_of d) = false) as Hne.
      { apply bool_decide_eq_true in Ho. apply ongoing_tokens in Ho as (_ & _ & Hon).
        unfold is_ongoing in Hon. apply andb_prop in Hon as [Hon _].
        now apply negb_true_iff in Hon. }
      rewrite Hne. cbn -[Z.leb Z.sub Z.eqb].
      replace (5000 <=? now - now) with false by (symmetry; apply Z.leb_gt; lia).
      rewrite !andb_false_r. cbn. discriminate.
    + cbn -[Z.leb Z.sub Z.eqb].
      destruct (str_empty (status_of d)); cbn; discriminate.
Qed.

Lemma client_agrees_on_final_witness :
  exists r, Client.iterate (JStr "c1") 2000 (Client.Ok (Some (rec_status "completed")))
              Client.Threw (Client.start 1000)
            = Client.Finished r (rec_status "completed").
Proof.
  apply (proj1 (proj2 client_agrees_on_final)). vm_compute. reflexivity.
Defined.

(** C5 as stated fails. A status outside both sets, seen on two polls in a
    row, ends the client's polling while the watcher classifies it Unknown;
    so does a record whose only artifact is recordingUrl, on the first
    poll. *)
Lemma client_finishes_where_watcher_waits :
  classify_norm (status_of (rec_status "queued")) (hasEndArtifacts (rec_status "queued"))
    = Unknown /\
  (exists p1,
      Client.iterate (JStr "c1") 2000 (Client.Ok (Some (rec_status "queued"))) Client.Threw
        (Client.start 1000) = Client.Again p1 /\
      Client.iterate (JStr "c1") 3000 (Client.Ok (Some (rec_status "queued"))) Client.Threw p1
        = Client.Finished Client.NonOngoingStreak (rec_status "queued")) /\
  classify_norm (status_of rec_camel) (hasEndArtifacts rec_camel) = Unknown /\
  Client.iterate (JStr "c1") 2000 (Client.Ok (Some rec_camel)) Client.Threw (Client.start 1000)
    = Client.Finished Client.EndArtifacts rec_camel /\
  ~ (forall c now d lst p,
        (exists r ret, Client.iterate c now (Client.Ok (Some d)) lst p = Client.Finished r ret)
        <-> classify_norm (status_of d) (hasEndArtifacts d) = Final).
Proof.
  split; [vm_compute; reflexivity |].
  split; [eexists; split; vm_compute; reflexivity |].
  split; [vm_compute; reflexivity |].
  split; [vm_compute; reflexivity |].
  intros H.
  assert (classify_norm (status_of rec_camel) (hasEndArtifacts rec_camel) = Final) as Hbad.
  { apply (H (JStr "c1") 2000 rec_camel Client.Threw (Client.start 1000)).
    do 2 eexists. vm_compute. reflexivity. }
  vm_compute in Hbad. discriminate Hbad.
Qed.

(** * Further properties of the proxy *)

(** ** The bearer token *)

Lemma append_cons x a b : String x a +:+ b = String x (a +:+ b).
Proof. reflexivity. Qed.

Lemma append_nil b : "" +:+ b = b.
Proof. reflexivity. Qed.

Lemma append_snoc a c w : (a +:+ String c "") +:+ w = a +:+ String c w.
Proof.
  induction a as [|x a IH]; [reflexivity |].
  rewrite !append_cons. f_equal. exact IH.
Qed.

Lemma append_empty a : a +:+ "" = a.
Proof.
  induction a as [|x a IH]; [reflexivity |]. rewrite append_cons. f_equal. exact IH.
Qed.

Lemma split_sp_last acc w : no_space w = true -> split_sp acc w = [acc +:+ w].
Proof.
  revert acc. induction w as [|c w IH]; intros acc H.
  - cbn [split_sp]. now rewrite append_empty.
  - cbn [no_space] in H. apply andb_prop in H as [Hc Hw]. apply negb_true_iff in Hc.
    cbn [split_sp]. rewrite Hc, IH by assumption. f_equal. apply append_snoc.
Qed.

Lemma split_sp_word acc w r :
  no_space w = true ->
  split_sp acc (w +:+ String " " r) = (acc +:+ w) :: split_sp "" r.
Proof.
  revert acc. induction w as [|c w IH]; intros acc H.
  - rewrite append_nil. cbn [split_sp]. now rewrite append_empty.
  - cbn [no_space] in H. apply andb_prop in H as [Hc Hw]. apply negb_true_iff in Hc.
    rewrite append_cons. cbn [split_sp]. rewrite Hc, IH by assumption.
    f_equal. apply append_snoc.
Qed.

(** X1. The token is the second space-separated word of the Authorization
    header, whatever the first word is and whatever follows the second; a
    header without a space carries no token and the dispatch route answers
    it 401. *)
Theorem bearer_second_word :
  (forall scheme tok b,
      no_space scheme = true -> no_space tok = true ->
      bearer {| authorization := Some (scheme +:+ " " +:+ tok); body_agent_id := b |}
        = JStr tok) /\
  (forall scheme tok rest b,
      no_space scheme = true -> no_space tok = true ->
      bearer {| authorization := Some (scheme +:+ " " +:+ tok +:+ " " +:+ rest);
                body_agent_id := b |} = JStr tok) /\
  (forall h v now s,
      no_space h = true ->
      dispatch_begin now {| authorization := Some h; body_agent_id := Some v |} s
        = send no_token s).
Proof.
  split; [| split].
  - intros scheme tok b Hs Ht. unfold bearer, split_space. cbn [authorization].
    change (scheme +:+ " " +:+ tok) with (scheme +:+ String " " tok).
    now rewrite split_sp_word, split_sp_last.
  - intros scheme tok rest b Hs Ht. unfold bearer, split_space. cbn [authorization].
    change (scheme +:+ " " +:+ tok +:+ " " +:+ rest)
      with (scheme +:+ String " " (tok +:+ String " " rest)).
    now rewrite !split_sp_word.
  - intros h v now s Hh. unfold dispatch_begin, bearer, split_space.
    cbn [authorization body_agent_id]. now rewrite split_sp_last.
Qed.

Lemma bearer_second_word_witness :
  bearer {| authorization := Some ("Basic" +:+ " " +:+ "secret"); body_agent_id := None |}
    = JStr "secret" /\
  dispatch_begin 1000 {| authorization := Some "secret"; body_agent_id := Some (JStr "A1") |}
    boot = send no_token boot.
Proof.
  destruct bearer_second_word as (H1 & _ & H3). split.
  - apply H1; reflexivity.
  - apply H3. reflexivity.
Defined.

(** ** Agent keys *)

Lemma numeric_uint d : numeric (NilEmpty.string_of_uint d) = true.
Proof. induction d; cbn; try reflexivity; exact IHd. Qed.

Lemma numeric_String_ n : numeric (String_ (JNum n)) = true /\ str_empty (String_ (JNum n)) = false.
Proof.
  unfold String_, NilZero.string_of_int, NilZero.string_of_uint.
  destruct (Z.to_int n) as [d | d]; destruct d; cbn; split; try reflexivity;
    apply numeric_uint.
Qed.



(** ** Errors that are not server-side *)

Lemma toLowerCase_numeric s : numeric s = true -> toLowerCase s = s.
Proof.
  induction s as [|c s IH]; cbn; [reflexivity |].
  intros [Hc Hs]%andb_prop. rewrite IH by assumption. f_equal.
  revert Hc. destruct c as [[] [] [] [] [] [] [] []]; vm_compute; congruence.
Qed.

Lemma includes_numeric c p s :
  numeric_char c = false -> numeric s = true -> includes (String c p) s = false.
Proof.
  intros Hc. induction s as [|d s IH]; cbn; [reflexivity |].
  intros [Hd Hs]%andb_prop. rewrite IH by assumption.
  destruct (Ascii.eqb c d) eqn:E; [| reflexivity].
  apply Ascii.eqb_eq in E. congruence.
Qed.

Lemma not_5xx e n :
  response_status e = JNum n -> n <> 0 -> ~ (500 <= n < 600) -> is5xx e = false.
Proof.
  intros He Hn Hr.
  assert (error_code e = JNum n) as Hcode.
  { unfold error_code. rewrite He.
    assert (truthy (JNum n) = true) as Ht
      by (cbn [truthy]; now apply Z.eqb_neq in Hn as ->).
    unfold or_ at 2. rewrite Ht. unfold or_. now rewrite Ht. }
  unfold is5xx. rewrite Hcode, He.
  assert ((500 <=? n) && (n <? 600) = false) as ->.
  { destruct (500 <=? n) eqn:A; [| reflexivity].
    destruct (n <? 600) eqn:B; [| reflexivity].
    apply Z.leb_le in A. apply Z.ltb_lt in B. lia. }
  destruct (numeric_String_ n) as [Hnum _].
  cbn [orb existsb]. unfold test_i. rewrite (toLowerCase_numeric (String_ (JNum n))) by assumption.
  repeat match goal with
         | |- context [toLowerCase ?p] =>
             let v := eval vm_compute in (toLowerCase p) in change (toLowerCase p) with v
         end.
  rewrite !includes_numeric by (assumption || reflexivity). reflexivity.
Qed.

(** X3. A detail error whose HTTP status is outside 500..599 is not
    server-class, whatever its code and message say: the tick that receives
    it ends without a list request, releases nothing and leaves the entry,
    however long the error streak. *)
Theorem client_error_holds_lock (s : Sys) (tid wid : nat) (w : Watcher) (now : Z)
    (e : axios_error) (n : Z) :
  ticks s !! tid = Some {| t_watcher := wid; t_stage := AwaitDetail |} ->
  watchers s !! wid = Some w ->
  response_status e = JNum n -> n <> 0 -> ~ (500 <= n < 600) ->
  let s' := tick_detail tid now (Rejected e) s in
  is5xx e = false /\
  ticks s' !! tid = None /\
  agentLocks s' = agentLocks s /\
  released s' = released s /\
  timers s' = timers s /\
  consecutiveErrors <$> watchers s' !! wid = Some (consecutiveErrors w + 1).
Proof.
  intros Ht Hw He Hn Hr s'. subst s'.
  pose proof (not_5xx e n He Hn Hr) as H5.
  unfold tick_detail. rewrite Ht, Hw. unfold poll_err. rewrite H5, andb_false_r.
  cbn. rewrite !lookup_insert_eq, lookup_delete_eq. repeat split.
Qed.

Lemma client_error_holds_lock_witness :
  let s := run started [ ETimer 2 2100 ] in
  let e := {| response_status := JNum 404; err_code := JStr "ERR_BAD_REQUEST";
              message := JStr "Bad Gateway" |} in
  is5xx e = false /\ agentLocks (tick_detail 3 2200 (Rejected e) s) = agentLocks s.
Proof.
  cbv zeta.
  pose proof (client_error_holds_lock (run started [ ETimer 2 2100 ]) 3 2
                {| agentId := "A1"; callLogId := JStr "c1"; token := "secret";
                   w_startedAt := 1100; lastStatus := None; startLogged := false;
                   seenOngoing := false; seenOngoingAt := 0; lastListCheckAt := 0;
                   consecutiveErrors := 0; lastSuccessAt := 1100 |} 2200
                {| response_status := JNum 404; err_code := JStr "ERR_BAD_REQUEST";
                   message := JStr "Bad Gateway" |} 404) as H.
  cbv zeta in H. split; apply H; try (vm_compute; reflexivity); try discriminate; lia.
Defined.

(** ** A feed that never answers *)

Lemma never_active_release a r s :
  never_active s -> never_active (releaseAgentLock a r s).
Proof.
  intros [Hw Ht]. destruct (release_rest a r s) as (Ew & Et & _).
  split; [now rewrite Ew | now rewrite Et].
Qed.

Lemma never_active_step s e :
  no_poll_success e = true -> never_active s ->
  never_active (step s e) /\
  (released (step s e) = released s \/
   exists a r, released (step s e) = (a, r) :: released s /\ outside_reason r = true).
Proof.
  intros He H. destruct e as [now req | rid now out | req | h' now | tid now out | tid now out];
    cbn [step].
  - unfold dispatch_begin. repeat case_match; (split; [exact H | now left]).
  - unfold dispatch_resume.
    destruct (dispatches s !! rid) as [d|]; [| split; [exact H | now left]].
    destruct out as [data | e]; [| split; [exact H | now left]].
    case_match; (split; [| now left]); destruct H as [Hw Ht]; split; cbn; try assumption.
    intros w x [[_ <-] | [_ Hin]]%lookup_insert_Some; [reflexivity | eauto].
  - unfold agent_release. split.
    + now apply (never_active_release _ _ s).
    + right. unfold send. cbn [released]. rewrite release_log. now do 2 eexists.
  - unfold fire. destruct (timers s !! h') as [t|]; [| split; [exact H | now left]].
    case_match; [| split; [exact H | now left]].
    assert (never_active (if repeats t
                          then set_timers (insert h' {| cb := cb t; delay := delay t;
                                                        armedAt := now; repeats := true |}) s
                          else set_timers (delete h') s)) as Hmid
      by (destruct (repeats t); exact H).
    destruct (cb t).
    + split; [now apply never_active_release |].
      right. rewrite release_log. do 2 eexists.
      split; [destruct (repeats t); reflexivity | reflexivity].
    + split; [now apply never_active_release |].
      right. rewrite release_log. do 2 eexists.
      split; [destruct (repeats t); reflexivity | reflexivity].
    + split; [| left; now destruct (repeats t)].
      destruct Hmid as [Hw Ht]. split.
      * destruct (repeats t); exact Hw.
      * intros tid t0. cbn [ticks bump set_ticks].
        intros [[_ <-] | [_ Hin]]%lookup_insert_Some; [reflexivity |].
        apply (Ht tid t0). now destruct (repeats t).
  - destruct out as [d | e]; [discriminate He |].
    unfold tick_detail. destruct (ticks s !! tid) as [[wid stage]|] eqn:Et;
      [| split; [exact H | now left]].
    pose proof (proj2 H _ _ Et) as Hst. cbn in Hst. subst stage.
    destruct (watchers s !! wid) as [w|] eqn:Ew; [| split; [exact H | now left]].
    pose proof (proj1 H _ _ Ew) as Hseen.
    unfold poll_err. rewrite Hseen. cbn [andb].
    split; [| now left]. destruct H as [Hw Ht]. split; cbn.
    + intros w0 x [[_ <-] | [_ Hin]]%lookup_insert_Some; [reflexivity | eauto].
    + intros tid0 t0 [_ Hin]%lookup_delete_Some. eauto.
  - unfold tick_list. destruct (ticks s !! tid) as [[wid stage]|] eqn:Et;
      [| split; [exact H | now left]].
    pose proof (proj2 H _ _ Et) as Hst. cbn in Hst. subst stage.
    split; [exact H | now left].
Qed.

(** X4. As long as no detail poll succeeds, no watcher has seen its call
    active and none releases anything, however many polls fail and whatever
    the errors are: every release made comes from the failsafe timeout, the
    no-identifier timer or the release route. *)
Theorem silent_feed_never_releases (s : Sys) (es : list event) :
  never_active s ->
  forallb no_poll_success es = true ->
  never_active (run s es) /\
  exists more, released (run s es) = (more ++ released s)%list /\
               Forall (fun ar => outside_reason ar.2 = true) more.
Proof.
  revert s. induction es as [|e es IH]; intros s H Hes; cbn [run fold_left].
  - split; [exact H |]. exists []. split; [reflexivity | constructor].
  - cbn in Hes. apply andb_prop in Hes as [He Hes].
    destruct (never_active_step s e He H) as [H1 Hrel].
    destruct (IH (step s e) H1 Hes) as (H2 & more & Emore & Hall).
    split; [exact H2 |]. fold (run (step s e) es). rewrite Emore.
    destruct Hrel as [-> | (a & r & -> & Hr)].
    + now exists more.
    + exists (more ++ [(a, r)])%list. split; [now rewrite <- app_assoc |].
      apply Forall_app. split; [exact Hall | now constructor].
Qed.

Lemma silent_feed_never_releases_witness :
  exists more,
    released (run started (ticks_from 20 3 2100 (Rejected err503) (Rejected err_refused)))
      = (more ++ released started)%list /\
    Forall (fun ar => outside_reason ar.2 = true) more.
Proof.
  assert (never_active boot) as Hboot.
  { split; intros k v Hk; cbn in Hk; now rewrite lookup_empty in Hk. }
  apply (silent_feed_never_releases started
           (ticks_from 20 3 2100 (Rejected err503) (Rejected err_refused))).
  - apply (silent_feed_never_releases boot
             [ EDispatch 1000 req_A1; EProvider 0 1100 (Resolved (with_id "c1")) ] Hboot).
    reflexivity.
  - vm_compute. reflexivity.
Defined.

(** ** The failsafe timeout *)



(** ** What a closure keeps *)

Lemma latched_refl x : latched x x.
Proof. repeat split; auto. Qed.

Lemma latched_trans x y z : latched x y -> latched y z -> latched x z.
Proof.
  intros (A1 & C1 & S1 & T1) (A2 & C2 & S2 & T2). repeat split; try congruence; auto.
  intros Hx. rewrite T2; [auto | rewrite (T1 Hx); exact Hx].
Qed.

Lemma latched_lastStatus x st : latched x (with_lastStatus x st).
Proof. repeat split; auto. Qed.

Lemma latched_poll_ok now d x : latched x (poll_ok now d x).1.1.1.
Proof.
  unfold poll_ok. cbn. repeat split.
  - intros ->. now destruct (is_ongoing _).
  - intros Hne. apply Z.eqb_neq in Hne as ->. now rewrite andb_false_r.
Qed.

Lemma latched_poll_err now e x : latched x (poll_err now e x).1.1.
Proof. unfold poll_err. cbn. repeat split; auto. Qed.

Lemma watchers_release a r s : watchers (releaseAgentLock a r s) = watchers s.
Proof. apply release_rest. Qed.

Lemma keeps_tick_finish wid st art w x s :
  watchers s !! w = Some x ->
  exists x', watchers (tick_finish wid st art s) !! w = Some x' /\ latched x x'.
Proof.
  intros Hw. unfold tick_finish.
  destruct (watchers s !! wid) as [y|] eqn:Ey; [| exists x; split; [exact Hw | apply latched_refl]].
  assert (exists x', watchers (set_watchers (insert wid (with_lastStatus y st)) s) !! w = Some x'
                     /\ latched x x') as Hupd.
  { cbn. destruct (decide (wid = w)) as [-> | Hne].
    - rewrite lookup_insert_eq. eexists. split; [reflexivity |].
      assert (y = x) as -> by congruence. apply latched_lastStatus.
    - rewrite lookup_insert_ne by assumption. exists x. split; [exact Hw | apply latched_refl]. }
  assert (exists x', watchers s !! w = Some x' /\ latched x x') as Hsame
    by (exists x; split; [exact Hw | apply latched_refl]).
  destruct (lastStatus y) as [l|]; [destruct (negb (String.eqb st l)) |]; cbn [negb];
    destruct (is_final st art); rewrite ?watchers_release; assumption.
Qed.

Lemma keeps_list_release p w0 d w x s :
  watchers s !! w = Some x -> watchers (list_release p w0 d s) !! w = Some x.
Proof. intros H. now rewrite (proj1 (list_release_frame p w0 d s)). Qed.

Lemma tick_finish_dom wid st art s w1 x1 :
  watchers (tick_finish wid st art s) !! w1 = Some x1 -> is_Some (watchers s !! w1).
Proof.
  unfold tick_finish. destruct (watchers s !! wid) as [y|] eqn:Ey; [| eauto].
  assert (watchers (set_watchers (insert wid (with_lastStatus y st)) s) !! w1 = Some x1 ->
          is_Some (watchers s !! w1)) as Hins.
  { cbn. intros [[<- _] | [_ Hin]]%lookup_insert_Some; eauto. }
  destruct (lastStatus y) as [l|]; [destruct (negb (String.eqb st l)) |];
    destruct (is_final st art); rewrite ?watchers_release; eauto.
Qed.

Lemma closures_step s e : closures_issued s -> closures_issued (step s e).
Proof.
  intros H w1 x1 H1.
  destruct (decide (is_Some (watchers s !! w1))) as [[y Hy] | Hn].
  { pose proof (H _ _ Hy). pose proof (fresh_step s e). lia. }
  destruct e as [now req | rid now out | req | h' now | tid now out | tid now out];
    cbn [step] in *.
  - unfold dispatch_begin in H1. exfalso. apply Hn.
    repeat case_match; cbn in H1; eauto.
  - unfold dispatch_resume in *.
    destruct (dispatches s !! rid) as [d|]; [| exfalso; eauto].
    destruct out as [data | e]; [| exfalso; cbn in H1; eauto].
    destruct (truthy (or_ (or_ (dd_call_log_id data) (dd_id data)) (dd_call_id data)));
      [| exfalso; cbn in H1; eauto].
    cbn in H1. apply lookup_insert_Some in H1 as [[<- _] | [_ Hin]];
      [unfold send, startCompletionWatcher, arm; cbn; lia | exfalso; eauto].
  - exfalso. apply Hn. unfold agent_release, send in H1. cbn [watchers] in H1.
    rewrite watchers_release in H1. eauto.
  - exfalso. apply Hn. unfold fire in H1.
    destruct (timers s !! h') as [t|]; [| eauto].
    case_match; [| eauto].
    destruct (cb t); rewrite ?watchers_release in H1; destruct (repeats t);
      cbn in H1; eauto.
  - exfalso. apply Hn. unfold tick_detail in H1.
    destruct (ticks s !! tid) as [[wid []]|]; eauto.
    destruct (watchers s !! wid) as [y|] eqn:Ey; [| eauto].
    assert (forall y' z, <[wid:=y']> (watchers s) !! w1 = Some z -> is_Some (watchers s !! w1))
      as Hins by (intros y' z [[<- _] | [_ Hin]]%lookup_insert_Some; eauto).
    destruct out as [d | e].
    + destruct (poll_ok now d y) as [[[y' st] art] cross].
      destruct cross; [cbn in H1; eauto |].
      apply tick_finish_dom in H1 as [z Hz]. cbn in Hz. eauto.
    + destruct (poll_err now e y) as [[y' bad] cross].
      destruct cross; cbn in H1; eauto.
  - exfalso. apply Hn. unfold tick_list in H1.
    destruct (ticks s !! tid) as [[wid []]|]; eauto;
      destruct (watchers s !! wid) as [y|] eqn:Ey; eauto.
    + apply tick_finish_dom in H1 as [z Hz].
      destruct out; [rewrite (proj1 (list_release_frame _ _ _ _)) in Hz |]; cbn in Hz; eauto.
    + destruct out as [d | e].
      * rewrite (proj1 (list_release_frame _ _ _ _)) in H1. cbn in H1. eauto.
      * unfold emergency_unlock in H1.
        case_match; rewrite ?watchers_release in H1; cbn in H1; eauto.
Qed.

Lemma keeps_step s e w x :
  closures_issued s -> watchers s !! w = Some x ->
  exists x', watchers (step s e) !! w = Some x' /\ latched x x'.
Proof.
  intros Hc Hw. pose proof (Hc _ _ Hw) as Hlt.
  assert (forall s', watchers s' = watchers s ->
            exists x', watchers s' !! w = Some x' /\ latched x x') as Hsame.
  { intros s' Ew. exists x. rewrite Ew. split; [exact Hw | apply latched_refl]. }
  destruct e as [now req | rid now out | req | h' now | tid now out | tid now out];
    cbn [step] in *.
  - apply Hsame. unfold dispatch_begin. repeat case_match; reflexivity.
  - unfold dispatch_resume in *.
    destruct (dispatches s !! rid) as [d|]; [| now apply Hsame].
    destruct out as [data | e]; [| now apply Hsame].
    case_match; [| now apply Hsame].
    exists x. cbn. rewrite lookup_insert_ne by lia. split; [exact Hw | apply latched_refl].
  - apply Hsame. unfold agent_release, send. cbn [watchers]. apply watchers_release.
  - apply Hsame. unfold fire. destruct (timers s !! h') as [t|]; [| reflexivity].
    case_match; [| reflexivity].
    destruct (cb t); rewrite ?watchers_release; destruct (repeats t); reflexivity.
  - unfold tick_detail in *.
    destruct (ticks s !! tid) as [[wid []]|]; try now apply Hsame.
    destruct (watchers s !! wid) as [y|] eqn:Ey; [| now apply Hsame].
    assert (forall y', latched y y' ->
              exists x', <[wid:=y']> (watchers s) !! w = Some x' /\ latched x x') as Hins.
    { intros y' Hl. destruct (decide (wid = w)) as [-> | Hne].
      - rewrite lookup_insert_eq. exists y'. split; [reflexivity |].
        assert (y = x) as <- by congruence. exact Hl.
      - rewrite lookup_insert_ne by assumption. exists x. split; [exact Hw | apply latched_refl]. }
    destruct out as [d | e].
    + pose proof (latched_poll_ok now d y) as Hl.
      destruct (poll_ok now d y) as [[[y' st] art] cross]. cbn in Hl.
      destruct (Hins y' Hl) as (x1 & Hx1 & Hl1).
      destruct cross.
      * exists x1. split; [exact Hx1 | exact Hl1].
      * destruct (keeps_tick_finish wid st art w x1
                    (set_ticks (delete tid) (set_watchers (insert wid y') s)) Hx1)
          as (x2 & Hx2 & Hl2).
        exists x2. split; [exact Hx2 | exact (latched_trans _ _ _ Hl1 Hl2)].
    + pose proof (latched_poll_err now e y) as Hl.
      destruct (poll_err now e y) as [[y' bad] cross]. cbn in Hl.
      destruct (Hins y' Hl) as (x1 & Hx1 & Hl1).
      exists x1. split; [destruct cross; exact Hx1 | exact Hl1].
  - unfold tick_list in *.
    destruct (ticks s !! tid) as [[wid []]|]; try now apply Hsame.
    + destruct (watchers s !! wid) as [y|] eqn:Ey; [| now apply Hsame].
      apply keeps_tick_finish.
      destruct out; [now apply keeps_list_release | exact Hw].
    + destruct (watchers s !! wid) as [y|] eqn:Ey; [| now apply Hsame].
      apply Hsame.
      destruct out; [rewrite (proj1 (list_release_frame _ _ _ _)); reflexivity |].
      unfold emergency_unlock. case_match; rewrite ?watchers_release; reflexivity.
Qed.

(** X6. A watcher's closure is never dropped or replaced, and what it has
    latched stays: through any later events it watches the same agent and
    call, seenOngoing never goes back to false, and seenOngoingAt, once set,
    never changes. *)
Theorem closure_latches (es es' : list event) (w : nat) (x : Watcher) :
  watchers (run boot es) !! w = Some x ->
  exists x', watchers (run (run boot es) es') !! w = Some x' /\ latched x x'.
Proof.
  assert (closures_issued (run boot es)) as Hc.
  { assert (forall l s, closures_issued s -> closures_issued (run s l)) as Hrun.
    { induction l as [|e l IH]; intros s H; cbn; [exact H |]. apply IH, closures_step, H. }
    apply Hrun. intros w1 x1 H1. cbn in H1. now rewrite lookup_empty in H1. }
  generalize dependent (run boot es). intros s Hc Hw. revert s x Hw Hc.
  induction es' as [|e l IH]; intros s x Hw Hc; cbn [run fold_left].
  - exists x. split; [exact Hw | apply latched_refl].
  - destruct (keeps_step s e w x Hc Hw) as (x1 & Hx1 & Hl1).
    destruct (IH (step s e) x1 Hx1 (closures_step s e Hc)) as (x2 & Hx2 & Hl2).
    exists x2. split; [exact Hx2 | exact (latched_trans _ _ _ Hl1 Hl2)].
Qed.

Lemma closure_latches_witness :
  exists x x',
    watchers (run started [ ETimer 2 2100; EDetail 3 2200 (polled "connected") ]) !! 2%nat
      = Some x /\
    watchers (run (run started [ ETimer 2 2100; EDetail 3 2200 (polled "connected") ])
                (ticks_from 3 4 3100 (polled "") list_empty)) !! 2%nat = Some x' /\
    seenOngoing x = true /\ latched x x'.
Proof.
  destruct (watchers (run started [ ETimer 2 2100; EDetail 3 2200 (polled "connected") ])
              !! 2%nat) as [x|] eqn:E; [| vm_compute in E; discriminate E].
  destruct (closure_latches
              [ EDispatch 1000 req_A1; EProvider 0 1100 (Resolved (with_id "c1"));
                ETimer 2 2100; EDetail 3 2200 (polled "connected") ]
              (ticks_from 3 4 3100 (polled "") list_empty) 2 x E) as (x' & Hx' & Hl).
  exists x, x'. split; [reflexivity |]. split; [exact Hx' |]. split; [| exact Hl].
  vm_compute in E. now injection E as <-.
Defined.

(** ** The list cross-check *)

Lemma ticks_tick_finish wid st art s : ticks (tick_finish wid st art s) = ticks s.
Proof.
  unfold tick_finish. destruct (watchers s !! wid) as [y|]; [| reflexivity].
  destruct (lastStatus y) as [l|]; [destruct (negb (String.eqb st l)) |];
    destruct (is_final st art); rewrite ?(proj1 (proj2 (release_rest _ _ _))); reflexivity.
Qed.

(** X7. A tick that gets its detail reply less than 3000 ms after the
    watcher's last list check makes no list request, whether the reply is a
    success or an error: the tick is over when the reply has been handled. *)
Theorem list_check_throttled (s : Sys) (tid wid : nat) (w : Watcher) (now : Z)
    (out : outcome detail_data) :
  ticks s !! tid = Some {| t_watcher := wid; t_stage := AwaitDetail |} ->
  watchers s !! wid = Some w ->
  now - lastListCheckAt w < 3000 ->
  let s' := tick_detail tid now out s in
  ticks s' !! tid = None /\
  lastListCheckAt <$> watchers s' !! wid = Some (lastListCheckAt w).
Proof.
  intros Ht Hw Hlt s'. subst s'. unfold tick_detail. rewrite Ht, Hw.
  assert ((3000 <=? now - lastListCheckAt w) = false) as Hthr by (apply Z.leb_gt; lia).
  destruct out as [d | e].
  - unfold poll_ok. rewrite Hthr, andb_false_r. split.
    + rewrite ticks_tick_finish. apply lookup_delete_eq.
    + unfold tick_finish. cbn [watchers set_watchers set_ticks]. rewrite lookup_insert_eq.
      cbn [lastStatus with_poll].
      destruct (lastStatus w) as [l|]; [destruct (negb (String.eqb _ l)) |];
        destruct (is_final _ _); rewrite ?watchers_release; cbn;
        rewrite ?lookup_insert_eq; reflexivity.
  - unfold poll_err. rewrite Hthr, andb_false_r. cbn [andb]. cbn.
    rewrite lookup_delete_eq, lookup_insert_eq. split; reflexivity.
Qed.

Lemma list_check_throttled_witness :
  let s := run started ([ ETimer 2 2100; EDetail 3 2200 (polled "connected") ]
                        ++ ticks_from 5 4 3100 (polled "connected") list_empty
                        ++ [ ETimer 2 8100 ]) in
  ticks (tick_detail 9 8200 (polled "connected") s) !! 9%nat = None.
Proof.
  cbv zeta.
  refine (proj1 (list_check_throttled _ 9 2
            {| agentId := "A1"; callLogId := JStr "c1"; token := "secret";
               w_startedAt := 1100; lastStatus := Some "connected"; startLogged := true;
               seenOngoing := true; seenOngoingAt := 2200; lastListCheckAt := 7200;
               consecutiveErrors := 0; lastSuccessAt := 7200 |} 8200 _ _ _ _)).
  - vm_compute. reflexivity.
  - vm_compute. reflexivity.
  - cbn. lia.
Defined.

Lemma tick_finish_not_final wid st art s :
  is_final st art = false ->
  agentLocks (tick_finish wid st art s) = agentLocks s /\
  released (tick_finish wid st art s) = released s /\
  timers (tick_finish wid st art s) = timers s.
Proof.
  intros Hf. unfold tick_finish. rewrite Hf.
  destruct (watchers s !! wid) as [y|]; [| repeat split].
  destruct (lastStatus y) as [l|]; [destruct (negb (String.eqb st l)) |]; repeat split.
Qed.

(** X8. When the list shows the call, matched by id or call_log_id, with a
    status in the Final set, the tick removes the agent's entry with the
    status from the list in the reason, although the detail reply itself gave
    no Final status and no artifacts; after a failed detail request the same
    holds with the on-error reason. *)
Theorem list_final_releases (s : Sys) (tid wid : nat) (w : Watcher) (now : Z)
    (d : list_data) (m : call_record) :
  watchers s !! wid = Some w ->
  find_match (callLogId w) d = Some m ->
  list_status_of m ∈ FINAL_STATUSES ->
  (forall st art,
      ticks s !! tid = Some {| t_watcher := wid; t_stage := AwaitList st art |} ->
      is_final st art = false ->
      let s' := tick_list tid now (Resolved d) s in
      agentLocks s' !! agentId w = None /\
      ticks s' !! tid = None /\
      released s' = (agentId w, "final_status_list:" +:+ list_status_of m) :: released s) /\
  (forall b,
      ticks s !! tid = Some {| t_watcher := wid; t_stage := AwaitListOnError b |} ->
      let s' := tick_list tid now (Resolved d) s in
      agentLocks s' !! agentId w = None /\
      ticks s' !! tid = None /\
      released s' = (agentId w, "final_status_list_on_error:" +:+ list_status_of m)
                      :: released s).
Proof.
  intros Hw Hm Hin'. destruct (final_tokens _ Hin') as (_ & Hin & _).
  assert (forall p s0, list_release p w d s0 =
                       releaseAgentLock (agentId w) (p +:+ list_status_of m) s0) as Hrel
    by (intros p s0; unfold list_release; now rewrite Hm, Hin).
  split.
  - intros st art Ht Hnf s'. subst s'. unfold tick_list. rewrite Ht, Hw, Hrel.
    destruct (tick_finish_not_final wid st art
                (releaseAgentLock (agentId w) ("final_status_list:" +:+ list_status_of m)
                   (set_ticks (delete tid) s)) Hnf) as (-> & -> & _).
    rewrite ticks_tick_finish, release_log, (proj1 (proj2 (release_rest _ _ _))).
    split; [apply release_gone |]. split; [apply lookup_delete_eq | reflexivity].
  - intros b Ht s'. subst s'. unfold tick_list. rewrite Ht, Hw, Hrel.
    rewrite release_log, (proj1 (proj2 (release_rest _ _ _))).
    split; [apply release_gone |]. split; [apply lookup_delete_eq | reflexivity].
Qed.

Lemma list_final_releases_witness :
  released (tick_list 8 7300 (Resolved (LWrapped [ rec_status "busy"; Sample2.entry_done ]))
              Sample2.awaiting_list)
    = [ ("A1", "final_status_list:completed") ].
Proof.
  assert (watchers Sample2.awaiting_list !! 2%nat = Some Sample2.watcher_at_7200) as Hw
    by (vm_compute; reflexivity).
  assert (find_match (callLogId Sample2.watcher_at_7200)
            (LWrapped [ rec_status "busy"; Sample2.entry_done ]) = Some Sample2.entry_done)
    as Hm by (vm_compute; reflexivity).
  assert (list_status_of Sample2.entry_done ∈ FINAL_STATUSES) as Hin
    by (apply (bool_decide_unpack _); vm_compute; exact I).
  assert (ticks Sample2.awaiting_list !! 8%nat
          = Some {| t_watcher := 2%nat; t_stage := AwaitList "connected" false |}) as Ht
    by (vm_compute; reflexivity).
  pose proof (proj1 (list_final_releases Sample2.awaiting_list 8 2 Sample2.watcher_at_7200
                       7300 _ _ Hw Hm Hin) "connected" false Ht eq_refl) as H.
  cbv zeta in H. destruct H as (_ & _ & H). rewrite H. vm_compute. reflexivity.
Defined.

(** ** One reply per dispatch *)

(** X9. A dispatch request is either answered at once, with 401, 409 or
    500 and with the lock table, the timers and the pending dispatches left
    as they were, or it is sent on to the provider with the agent's entry
    taken and no reply yet; when the provider call settles, the request gets
    exactly one reply and is no longer pending, and a settlement for a
    request that is not pending does nothing. *)
Theorem dispatch_replies_once :
  (forall now req s,
      let s' := dispatch_begin now req s in
      (exists r, s' = send r s /\
                 (http_status r = 401 \/ http_status r = 409 \/ http_status r = 500)) \/
      (exists key tok,
          outbox s' = outbox s /\
          dispatches s' = <[fresh s := {| d_agentKey := key; d_token := tok |}]> (dispatches s) /\
          agentLocks s' !! key = Some {| currentCallId := JNull; startedAt := Some now;
                                         timer := None; interval := None |} /\
          fresh s' = S (fresh s))) /\
  (forall rid now out s d,
      dispatches s !! rid = Some d ->
      let s' := dispatch_resume rid now out s in
      (exists r, outbox s' = r :: outbox s) /\
      dispatches s' = delete rid (dispatches s) /\
      dispatches s' !! rid = None) /\
  (forall rid now out s,
      dispatches s !! rid = None -> dispatch_resume rid now out s = s).
Proof.
  split; [| split].
  - intros now req s s'. subst s'. unfold dispatch_begin.
    destruct (body_agent_id req) as [v|];
      [| left; eexists; split; [reflexivity | right; right; reflexivity]].
    assert (forall tok,
              exists key tok0,
                outbox (bump (set_dispatches
                                (insert (fresh s) {| d_agentKey := agentKey_of v; d_token := tok |})
                                (set_agentLocks
                                   (insert (agentKey_of v)
                                      {| currentCallId := JNull; startedAt := Some now;
                                         timer := None; interval := None |}) s))) = outbox s /\
                dispatches (bump (set_dispatches
                                (insert (fresh s) {| d_agentKey := agentKey_of v; d_token := tok |})
                                (set_agentLocks
                                   (insert (agentKey_of v)
                                      {| currentCallId := JNull; startedAt := Some now;
                                         timer := None; interval := None |}) s)))
                  = <[fresh s := {| d_agentKey := key; d_token := tok0 |}]> (dispatches s) /\
                agentLocks (bump (set_dispatches
                                (insert (fresh s) {| d_agentKey := agentKey_of v; d_token := tok |})
                                (set_agentLocks
                                   (insert (agentKey_of v)
                                      {| currentCallId := JNull; startedAt := Some now;
                                         timer := None; interval := None |}) s))) !! key
                  = Some {| currentCallId := JNull; startedAt := Some now;
                            timer := None; interval := None |} /\
                fresh (bump (set_dispatches
                                (insert (fresh s) {| d_agentKey := agentKey_of v; d_token := tok |})
                                (set_agentLocks
                                   (insert (agentKey_of v)
                                      {| currentCallId := JNull; startedAt := Some now;
                                         timer := None; interval := None |}) s)))
                  = S (fresh s)) as Hacq.
    { intros tok. exists (agentKey_of v), tok. cbn. rewrite lookup_insert_eq. repeat split. }
    destruct (bearer req) as [| | | |tok];
      try (left; eexists; split; [reflexivity | left; reflexivity]).
    destruct (str_empty tok); [left; eexists; split; [reflexivity | left; reflexivity] |].
    destruct (agentLocks s !! agentKey_of v) as [l|]; [| right; apply Hacq].
    destruct (blocks l); [| right; apply Hacq].
    left. eexists. split; [reflexivity | right; left; reflexivity].
  - intros rid now out s d Hd s'. subst s'. unfold dispatch_resume. rewrite Hd.
    destruct out as [data | e].
    + unfold send. cbn [outbox dispatches].
      destruct (truthy _); cbn; rewrite lookup_delete_eq; repeat split; now eexists.
    + cbn. rewrite lookup_delete_eq. repeat split. now eexists.
  - intros rid now out s Hd. unfold dispatch_resume. now rewrite Hd.
Qed.

Lemma dispatch_replies_once_witness :
  exists r, outbox (dispatch_resume 0 1500 (Rejected err503) (dispatch_begin 1000 req_A1 boot))
            = r :: outbox (dispatch_begin 1000 req_A1 boot).
Proof.
  apply (proj1 (proj1 (proj2 dispatch_replies_once) 0%nat 1500 (Rejected err503)
                  (dispatch_begin 1000 req_A1 boot)
                  {| d_agentKey := "A1"; d_token := "secret" |} eq_refl)).
Defined.

(** ** Agents do not interfere *)

Lemma other_tick_finish wid st art s w b :
  watchers s !! wid = Some w -> agentId w <> b ->
  agentLocks (tick_finish wid st art s) !! b = agentLocks s !! b.
Proof.
  intros Hw Hne. unfold tick_finish. rewrite Hw.
  destruct (lastStatus w) as [l|]; [destruct (negb (String.eqb st l)) |];
    destruct (is_final st art); rewrite ?release_other by assumption; reflexivity.
Qed.

Lemma other_list_release p w d s b :
  agentId w <> b -> agentLocks (list_release p w d s) !! b = agentLocks s !! b.
Proof.
  intros Hne. unfold list_release.
  destruct (find_match (callLogId w) d) as [m|]; [| reflexivity].
  destruct (has FINAL_STATUSES (list_status_of m)); [| reflexivity].
  now apply release_other.
Qed.

(** X10. An event touches the entry of one agent at most: the agent the
    request names, the agent of the timer's callback, or the agent of the
    tick's watcher. The entry of every other agent is after the event what
    it was before. *)
Theorem agents_independent (s : Sys) (e : event) (b : string) :
  event_agent s e <> Some b ->
  agentLocks (step s e) !! b = agentLocks s !! b.
Proof.
  intros Hne. destruct e as [now req | rid now out | req | h' now | tid now out | tid now out];
    cbn [step event_agent] in *.
  - unfold dispatch_begin. destruct (body_agent_id req) as [v|]; [| reflexivity].
    assert (agentKey_of v <> b) as Hk by congruence.
    repeat case_match; cbn; rewrite ?lookup_insert_ne by assumption; reflexivity.
  - unfold dispatch_resume. destruct (dispatches s !! rid) as [d|]; [| reflexivity].
    assert (d_agentKey d <> b) as Hk by congruence.
    destruct out as [data | e]; [| reflexivity].
    case_match; cbn; rewrite lookup_insert_ne by assumption; reflexivity.
  - unfold agent_release, send. cbn [agentLocks]. apply release_other.
    intros <-. apply Hne. now destruct (body_agent_id req).
  - unfold fire. destruct (timers s !! h') as [t|]; [| reflexivity].
    case_match; [| reflexivity].
    destruct (cb t) as [a | a | w]; cbn [callback_agent] in Hne;
      rewrite ?release_other by congruence; destruct (repeats t); reflexivity.
  - unfold tick_detail, tick_agent in *.
    destruct (ticks s !! tid) as [[wid stage]|]; [| reflexivity]. cbn [t_watcher] in Hne.
    destruct (watchers s !! wid) as [w|] eqn:Ew; [| now destruct stage].
    assert (agentId w <> b) as Hk by congruence.
    destruct stage; try reflexivity.
    destruct out as [d | e].
    + pose proof (poll_ok_status now d w) as (_ & _ & Hag).
      destruct (poll_ok now d w) as [[[w' st] art] cross]. cbn in Hag.
      destruct cross; [reflexivity |].
      rewrite (other_tick_finish wid st art _ w' b); [reflexivity | apply lookup_insert_eq |].
      congruence.
    + destruct (poll_err now e w) as [[w' bad] cross]. now destruct cross.
  - unfold tick_list, tick_agent in *.
    destruct (ticks s !! tid) as [[wid stage]|]; [| reflexivity]. cbn [t_watcher] in Hne.
    destruct (watchers s !! wid) as [w|] eqn:Ew; [| now destruct stage].
    assert (agentId w <> b) as Hk by congruence.
    destruct stage as [| st art | b5]; try reflexivity.
    + rewrite (other_tick_finish wid st art _ w b).
      * destruct out; [now rewrite other_list_release | reflexivity].
      * destruct out; [now rewrite (proj1 (list_release_frame _ _ _ _)) | exact Ew].
      * exact Hk.
    + destruct out; [now rewrite other_list_release |].
      unfold emergency_unlock. case_match; [now rewrite release_other | reflexivity].
Qed.

Lemma agents_independent_witness :
  agentLocks (step (dispatch_begin 900 req_no_agent started) (ERelease req_A1)) !! "default"
    = agentLocks (dispatch_begin 900 req_no_agent started) !! "default".
Proof.
  apply (agents_independent (dispatch_begin 900 req_no_agent started) (ERelease req_A1)
           "default").
  discriminate.
Defined.

(** ** The same reply read by the watcher and through the proxy *)

(** X11. A provider detail body that is an object reaches the client's
    polling loop, through GET /call/log/:callLogId, as the very record the
    watcher reads from it, so a body that makes the watcher's tick release
    with final_status also ends the client's polling on that poll. A null
    body is read by the watcher as a successful poll with an empty status,
    which resets its error streak, while the route answers it 500 and the
    client counts an error. *)
Theorem proxy_detail_reading :
  (forall top nested,
      fetch_detail (call_log_resume (Resolved (DObj top nested)))
        = Client.Ok (Some (unwrap (DObj top nested)))) /\
  (forall top nested c now lst p,
      is_final (status_of (unwrap (DObj top nested)))
               (hasEndArtifacts (unwrap (DObj top nested))) = true ->
      exists r, Client.iterate c now (fetch_detail (call_log_resume (Resolved (DObj top nested))))
                  lst p = Client.Finished r (unwrap (DObj top nested))) /\
  (forall c now lst p now' w,
      Client.iterate c now (fetch_detail (call_log_resume (Resolved DNone))) lst p
        = Client.on_error now p /\
      (poll_ok now' DNone w).1.1.2 = "" /\
      consecutiveErrors (poll_ok now' DNone w).1.1.1 = 0 /\
      lastSuccessAt (poll_ok now' DNone w).1.1.1 = now').
Proof.
  split; [| split].
  - intros top [inner|]; reflexivity.
  - intros top nested c now lst p Hf.
    assert (fetch_detail (call_log_resume (Resolved (DObj top nested)))
            = Client.Ok (Some (unwrap (DObj top nested)))) as -> by (now destruct nested).
    generalize dependent (unwrap (DObj top nested)). intros d Hf.
    destruct client_vocabulary as [EF EO].
    unfold Client.iterate, Client.status_of. rewrite EF. fold (status_of d).
    unfold is_final in Hf.
    destruct (has FINAL_STATUSES (status_of d)); [now eexists |].
    cbn in Hf. rewrite client_artifacts, Hf. cbn. now eexists.
  - intros c now lst p now' w. repeat split.
Qed.

Lemma proxy_detail_reading_witness :
  exists r, Client.iterate (JStr "c1") 2000
              (fetch_detail (call_log_resume
                 (Resolved (DObj no_fields (Some (rec_status "busy"))))))
              Client.Threw (Client.start 1000)
            = Client.Finished r (unwrap (DObj no_fields (Some (rec_status "busy")))).
Proof.
  apply (proj1 (proj2 proxy_detail_reading)). vm_compute. reflexivity.
Defined.

(** * Properties of the campaign helpers *)

Import Campaign.

(** ** Phone numbers *)

Section PhoneFacts.

Lemma keep_chars_all keep s : all_chars keep (keep_chars keep s) = true.
Proof.
  induction s as [|c s IH]; cbn; [reflexivity |].
  destruct (keep c) eqn:E; cbn; [now rewrite E |]. exact IH.
Qed.

Lemma keep_chars_id keep s : all_chars keep s = true -> keep_chars keep s = s.
Proof.
  induction s as [|c s IH]; cbn; [reflexivity |].
  intros [Hc Hs]%andb_prop. now rewrite Hc, IH.
Qed.

Lemma keep_digits_of_kept s :
  keep_chars is_digit (keep_chars phone_char s) = keep_chars is_digit s.
Proof.
  induction s as [|c s IH]; cbn; [reflexivity |].
  unfold phone_char at 1. destruct (is_digit c) eqn:E; cbn; [now rewrite E, IH |].
  destruct (Ascii.eqb c "+"%char) eqn:P; cbn; [| exact IH].
  apply Ascii.eqb_eq in P. subst c. cbn. exact IH.
Qed.

Lemma normalizePhone_fixed p :
  str_empty p = false -> all_chars phone_char p = true -> startsWith "+" p = true ->
  normalizePhone (Some p) = Some p.
Proof.
  intros He Ha Hs. unfold normalizePhone.
  now rewrite He, (keep_chars_id _ _ Ha), He, Hs.
Qed.

End PhoneFacts.

(** X12. [normalizePhone] gives null exactly when the input is absent or
    holds neither a digit nor a plus sign. Otherwise the result starts with a
    plus sign, holds only digits and plus signs, has the digits of the input
    in their order, and is left unchanged by normalizing it again. *)
Theorem normalizePhone_shape :
  (forall raw,
      normalizePhone raw = None <->
      raw = None \/ exists r, raw = Some r /\ keep_chars phone_char r = "") /\
  (forall raw p,
      normalizePhone raw = Some p ->
      startsWith "+" p = true /\
      all_chars phone_char p = true /\
      normalizePhone (Some p) = Some p /\
      exists r, raw = Some r /\ keep_chars is_digit p = keep_chars is_digit r).
Proof.
  split.
  - intros [r|]; cbn; [| split; [now left | reflexivity]].
    destruct r as [|c r]; cbn [str_empty].
    + split; [intros _; right; now exists "" | reflexivity].
    + destruct (keep_chars phone_char (String c r)) as [|d ds] eqn:E; cbn [str_empty].
      * split; [intros _; right; now eexists | reflexivity].
      * split; [discriminate |]. intros [H | (r' & [= <-] & H)]; [discriminate H |].
        rewrite E in H. discriminate H.
  - intros [r|] p; [| discriminate]. unfold normalizePhone.
    destruct (str_empty r) eqn:Er; [discriminate |].
    pose proof (keep_chars_all phone_char r) as Hall.
    pose proof (keep_digits_of_kept r) as Hdig.
    destruct (keep_chars phone_char r) as [|d ds] eqn:Ek; [discriminate |].
    cbn [str_empty].
    destruct (startsWith "+" (String d ds)) eqn:Es; intros [= <-].
    + split; [exact Es |]. split; [exact Hall |].
      split; [now apply normalizePhone_fixed |]. now exists r.
    + split; [reflexivity |]. split; [exact Hall |].
      split; [now apply normalizePhone_fixed |]. exists r. split; [reflexivity |].
      rewrite <- Hdig. reflexivity.
Qed.

Lemma normalizePhone_shape_witness :
  normalizePhone (Some "(0 91) 98-76+5") = Some "+0919876+5" /\
  normalizePhone (Some "+0919876+5") = Some "+0919876+5".
Proof.
  split; [reflexivity |].
  exact (proj1 (proj2 (proj2 (proj2 normalizePhone_shape
                                (Some "(0 91) 98-76+5") "+0919876+5" eq_refl)))).
Defined.

(** ** The phone column *)

Section ColumnFacts.

Lemma indexOf_Some x l i : indexOf x l = Some i -> l !! i = Some x.
Proof.
  revert i. induction l as [|y l IH]; intros i; cbn; [discriminate |].
  destruct (String.eqb y x) eqn:E.
  - intros [= <-]. apply String.eqb_eq in E. now subst.
  - destruct (indexOf x l) as [j|]; [| discriminate]. intros [= <-]. cbn. auto.
Qed.

Lemma indexOf_None x l : indexOf x l = None -> ~ In x l.
Proof.
  induction l as [|y l IH]; cbn; [tauto |].
  destruct (String.eqb y x) eqn:E; [discriminate |].
  destruct (indexOf x l) as [j|]; [discriminate |].
  intros _ [-> | H]; [| now apply IH]. now rewrite String.eqb_refl in E.
Qed.

Lemma indexOf_first x l i :
  l !! i = Some x -> (forall j y, (j < i)%nat -> l !! j = Some y -> y <> x) ->
  indexOf x l = Some i.
Proof.
  revert i. induction l as [|y l IH]; intros i Hi Hfirst; [destruct i; discriminate |].
  cbn. destruct i as [|i].
  - cbn in Hi. injection Hi as ->. now rewrite String.eqb_refl.
  - destruct (String.eqb y x) eqn:E.
    + apply String.eqb_eq in E. exfalso. apply (Hfirst O y); [lia | reflexivity | exact E].
    + rewrite (IH i); [reflexivity | exact Hi |].
      intros j z Hj Hz. apply (Hfirst (S j) z); [lia | exact Hz].
Qed.

Lemma candidates_like c : In c candidates -> phone_like c = true.
Proof.
  unfold candidates. cbn.
  intros [<- | [<- | [<- | [<- | [<- | [<- | []]]]]]]; vm_compute; reflexivity.
Qed.

Lemma first_candidate_Some cs lower i :
  first_candidate cs lower = Some i -> exists c, In c cs /\ lower !! i = Some c.
Proof.
  induction cs as [|c cs IH]; cbn; [discriminate |].
  destruct (indexOf c lower) as [j|] eqn:E.
  - intros [= <-]. exists c. split; [now left | now apply indexOf_Some].
  - intros H. destruct (IH H) as (c' & Hc & Hl). exists c'. split; [now right | exact Hl].
Qed.

Lemma first_candidate_None cs lower :
  first_candidate cs lower = None -> forall c, In c cs -> ~ In c lower.
Proof.
  induction cs as [|c cs IH]; cbn; [tauto |].
  destruct (indexOf c lower) as [j|] eqn:E; [discriminate |].
  intros H c' [<- | Hc]; [now apply indexOf_None | now apply IH].
Qed.

Lemma first_like_Some lower k i :
  first_like lower k = Some i ->
  exists j h, i = (k + j)%nat /\ lower !! j = Some h /\ phone_like h = true.
Proof.
  revert k. induction lower as [|h l IH]; intros k; cbn; [discriminate |].
  destruct (phone_like h) eqn:E.
  - intros [= <-]. exists O, h. repeat split; [lia | exact E].
  - intros H. destruct (IH _ H) as (j & h' & -> & Hl & Hp).
    exists (S j), h'. repeat split; [lia | exact Hl | exact Hp].
Qed.

Lemma first_like_None lower k :
  first_like lower k = None <-> Forall (fun h => phone_like h = false) lower.
Proof.
  revert k. induction lower as [|h l IH]; intros k; cbn.
  - split; [constructor | reflexivity].
  - destruct (phone_like h) eqn:E.
    + split; [discriminate |]. intros H. inversion H; congruence.
    + rewrite IH. split; [now constructor | intros H; now inversion H].
Qed.

End ColumnFacts.

(** X13. [findPhoneIndex] gives -1 exactly when no header, lower-cased,
    contains phone, mobile or num; otherwise it gives the index of a header
    that does. A header equal to phone in any letter case wins over every
    other column: the result is then the index of the first such header. *)
Theorem findPhoneIndex_spec (headers : list string) :
  (findPhoneIndex headers = -1 <->
   Forall (fun h => phone_like (toLowerCase h) = false) headers) /\
  (forall i, findPhoneIndex headers = Z.of_nat i ->
     exists h, headers !! i = Some h /\ phone_like (toLowerCase h) = true) /\
  (forall i h,
     headers !! i = Some h -> toLowerCase h = "phone" ->
     (forall j h', (j < i)%nat -> headers !! j = Some h' -> toLowerCase h' <> "phone") ->
     findPhoneIndex headers = Z.of_nat i).
Proof.
  assert (forall i c, map toLowerCase headers !! i = Some c ->
            exists h, headers !! i = Some h /\ toLowerCase h = c) as Hmap.
  { intros i c. rewrite list_lookup_fmap.
    destruct (headers !! i) as [h|]; [| discriminate]. intros [= <-]. now exists h. }
  assert (Forall (fun h => phone_like h = false) (map toLowerCase headers) <->
          Forall (fun h => phone_like (toLowerCase h) = false) headers) as Hall.
  { rewrite Forall_fmap. reflexivity. }
  unfold findPhoneIndex. split; [| split].
  - destruct (first_candidate candidates (map toLowerCase headers)) as [i|] eqn:E.
    + split; [lia |]. intros H. exfalso.
      destruct (first_candidate_Some _ _ _ E) as (c & Hc & Hl).
      apply candidates_like in Hc. apply Hall in H.
      rewrite Forall_lookup in H. specialize (H _ _ Hl). cbn in H. congruence.
    + destruct (first_like (map toLowerCase headers) 0) as [i|] eqn:F.
      * split; [lia |]. intros H. apply Hall, (first_like_None _ O) in H. congruence.
      * split; [intros _ | reflexivity]. now apply Hall, (first_like_None _ O).
  - intros i.
    destruct (first_candidate candidates (map toLowerCase headers)) as [k|] eqn:E.
    + intros Hk. apply Nat2Z.inj in Hk. subst k.
      destruct (first_candidate_Some _ _ _ E) as (c & Hc & Hl).
      destruct (Hmap _ _ Hl) as (h & Hh & <-). exists h. split; [exact Hh |].
      now apply candidates_like.
    + destruct (first_like (map toLowerCase headers) 0) as [k|] eqn:F; [| lia].
      intros Hk. apply Nat2Z.inj in Hk. subst k.
      destruct (first_like_Some _ _ _ F) as (j & c & -> & Hl & Hp).
      destruct (Hmap _ _ Hl) as (h & Hh & <-). exists h. split; [exact Hh | exact Hp].
  - intros i h Hi Hlow Hfirst.
    assert (indexOf "phone" (map toLowerCase headers) = Some i) as Hidx.
    { apply indexOf_first.
      - rewrite list_lookup_fmap, Hi. cbn. now rewrite Hlow.
      - intros j y Hj Hy. destruct (Hmap _ _ Hy) as (h' & Hh' & <-). now apply (Hfirst j). }
    unfold candidates. cbn [first_candidate]. now rewrite Hidx.
Qed.

Lemma findPhoneIndex_spec_witness :
  findPhoneIndex [ "Name"; "Mobile"; " PHONE"; "Phone" ] = 3.
Proof.
  apply (proj2 (proj2 (findPhoneIndex_spec [ "Name"; "Mobile"; " PHONE"; "Phone" ]))
           3%nat "Phone"); try reflexivity.
  intros j h' Hj Hh.
  destruct j as [|[|[|j]]]; try lia; cbn in Hh; injection Hh as <-; vm_compute; discriminate.
Defined.

(** ** Reading CSV back *)

Section CsvFacts.

Import CsvText.

Lemma append_assoc a b c : (a +:+ b) +:+ c = a +:+ (b +:+ c).
Proof.
  induction a as [|x a IH]; [reflexivity |]. rewrite !append_cons. f_equal. exact IH.
Qed.

Lemma open_quote rest cur row rows :
  parse_from (String quote rest) false cur row rows = parse_from rest true cur row rows.
Proof. cbn [parse_from]. rewrite Ascii.eqb_refl. now destruct rest. Qed.

Lemma close_quote rest cur row rows :
  starts_quote rest = false ->
  parse_from (String quote rest) true cur row rows = parse_from rest false cur row rows.
Proof.
  intros H. cbn [parse_from]. rewrite Ascii.eqb_refl.
  destruct rest as [|c r]; [reflexivity |]. cbn in H. now rewrite H.
Qed.

Lemma plain_run f rest cur row rows :
  plain f = true ->
  parse_from (f +:+ rest) false cur row rows = parse_from rest false (cur +:+ f) row rows.
Proof.
  revert cur. induction f as [|c f IH]; intros cur H.
  - now rewrite append_nil, append_empty.
  - cbn [plain] in H. apply andb_prop in H as [Hc Hf]. apply negb_true_iff in Hc.
    apply orb_false_elim in Hc as [Hc Hcr]. apply orb_false_elim in Hc as [Hc Hlf].
    apply orb_false_elim in Hc as [Hq Hco].
    rewrite append_cons. cbn [parse_from]. rewrite Hq, Hco, Hlf, Hcr. cbn [andb orb].
    rewrite IH by assumption. now rewrite append_snoc.
Qed.

Lemma quoted_run f rest cur row rows :
  starts_quote rest = false ->
  parse_from (escape f +:+ String quote rest) true cur row rows
  = parse_from rest false (cur +:+ f) row rows.
Proof.
  intros Hrest. revert cur. induction f as [|c f IH]; intros cur.
  - cbn [escape]. rewrite append_nil, append_empty. now apply close_quote.
  - cbn [escape]. destruct (Ascii.eqb c quote) eqn:Hq.
    + apply Ascii.eqb_eq in Hq. subst c. rewrite !append_cons. cbn [parse_from].
      rewrite Ascii.eqb_refl. cbn [andb]. rewrite IH. now rewrite append_snoc.
    + rewrite append_cons. cbn [parse_from]. rewrite Hq, !andb_false_r.
      rewrite IH. now rewrite append_snoc.
Qed.

Lemma field_run q f rest cur row rows :
  (q = false -> plain f = true) -> starts_quote rest = false ->
  parse_from (field q f +:+ rest) false cur row rows
  = parse_from rest false (cur +:+ f) row rows.
Proof.
  intros Hp Hrest. destruct q; cbn [field].
  - rewrite append_cons, open_quote, append_assoc, append_cons, append_nil.
    now apply quoted_run.
  - now apply plain_run, Hp.
Qed.

Lemma comma_run rest cur row rows :
  parse_from (String comma rest) false cur row rows
  = parse_from rest false "" (row ++ [cur])%list rows.
Proof. reflexivity. Qed.

Lemma eol_run crlf rest cur row rows :
  parse_from (eol crlf +:+ rest) false cur row rows
  = parse_from rest false "" [] (rows ++ [(row ++ [cur])%list])%list.
Proof. destruct crlf; cbn [eol]; rewrite !append_cons, append_nil; [reflexivity |].
  cbn [parse_from]. now destruct rest. Qed.

Lemma fields_run fs rest row rows :
  fs <> [] ->
  Forall (fun qf => fst qf = false -> plain (snd qf) = true) fs ->
  starts_quote rest = false ->
  parse_from (fields fs +:+ rest) false "" row rows
  = parse_from rest false (snd (List.last fs (false, "")))
      (row ++ map snd (removelast fs))%list rows.
Proof.
  intros Hne Hok Hrest. revert row.
  induction fs as [|[q f] fs IH]; intros row; [congruence |].
  inversion Hok as [|? ? Hf Hfs]; subst. cbn [fst snd] in Hf.
  destruct fs as [|g fs].
  - cbn [fields List.last removelast map snd]. rewrite app_nil_r.
    rewrite (field_run q f rest "" row rows Hf Hrest). now rewrite append_nil.
  - change (fields ((q, f) :: g :: fs)) with (field q f +:+ String comma (fields (g :: fs))).
    rewrite append_assoc, append_cons.
    rewrite (field_run q f (String comma (fields (g :: fs) +:+ rest)) "" row rows Hf eq_refl),
      append_nil, comma_run.
    rewrite IH by (assumption || discriminate).
    change (List.last ((q, f) :: g :: fs) (false, "")) with (List.last (g :: fs) (false, "")).
    change (removelast ((q, f) :: g :: fs)) with ((q, f) :: removelast (g :: fs)).
    cbn [map snd]. now rewrite <- app_assoc.
Qed.

Lemma map_snd_last (fs : list (bool * string)) :
  fs <> [] ->
  (map snd (removelast fs) ++ [snd (List.last fs (false, ""))])%list = map snd fs.
Proof.
  intros H. rewrite (app_removelast_last (false, "") H) at 3.
  rewrite map_app. reflexivity.
Qed.

Lemma lines_run crlf rows acc :
  writable rows ->
  parse_from (lines crlf rows) false "" [] acc = (acc ++ map (map snd) rows)%list.
Proof.
  intros H. revert acc. induction H as [|fs rows [Hne Hok] _ IH]; intros acc.
  - cbn. now rewrite app_nil_r.
  - cbn [lines]. rewrite fields_run; [| exact Hne | exact Hok | now destruct crlf].
    rewrite eol_run, IH. cbn [app map]. rewrite map_snd_last by exact Hne.
    now rewrite <- app_assoc.
Qed.

End CsvFacts.

Lemma parseCSV_lines crlf rows :
  CsvText.writable rows ->
  parseCSV (CsvText.lines crlf rows) = map (map (fun qf => trim (snd qf))) rows.
Proof.
  intros Hrows. unfold parseCSV. rewrite lines_run by exact Hrows. cbn [app].
  rewrite map_map. apply map_ext. intros fs. now rewrite map_map.
Qed.

(** X14. [parseCSV] reads back what was written: for lines of
    comma-separated fields, each either free of quotes, commas and line
    breaks or enclosed in quotes with its quotes doubled, every line ended by
    LF or by CR LF, the result is the fields of each line, trimmed. A last
    line without a line end is read as well, unless it consists of one empty
    field. *)
Theorem parseCSV_reads_back (crlf : bool) (rows : list (list (bool * string))) :
  CsvText.writable rows ->
  parseCSV (CsvText.lines crlf rows) = map (map (fun qf => trim (snd qf))) rows /\
  (forall fs,
      CsvText.writable [fs] ->
      (2 <= length fs)%nat \/ (exists q f, fs = [(q, f)] /\ str_empty f = false) ->
      parseCSV (CsvText.lines crlf rows +:+ CsvText.fields fs)
      = map (map (fun qf => trim (snd qf))) (rows ++ [fs])).
Proof.
  intros Hrows. split.
  - now apply parseCSV_lines.
  - intros fs Hfs Hlast. inversion Hfs as [|? ? [Hne Hok] _]; subst.
    assert (forall acc,
              parse_from (CsvText.lines crlf rows +:+ CsvText.fields fs) false "" [] acc
              = (acc ++ map (map snd) rows ++ [map snd fs])%list) as Hrun.
    { clear Hfs. induction Hrows as [|gs rows [Hgne Hgok] _ IH]; intros acc.
      - cbn [CsvText.lines map app]. rewrite append_nil.
        rewrite <- (append_empty (CsvText.fields fs)).
        rewrite fields_run by (assumption || reflexivity).
        cbn [parse_from app].
        assert (negb (str_empty (snd (List.last fs (false, ""))))
                || false
                || negb (Nat.eqb (length (map snd (removelast fs))) 0) = true) as ->.
        { destruct Hlast as [Hlen | (q & f & -> & Hf)].
          - destruct fs as [|a [|b fs]]; cbn in Hlen; try lia.
            cbn. now rewrite orb_true_r.
          - cbn. now rewrite Hf. }
        now rewrite map_snd_last.
      - cbn [CsvText.lines]. rewrite !append_assoc.
        rewrite fields_run; [| exact Hgne | exact Hgok | now destruct crlf].
        rewrite eol_run, IH. cbn [app map]. rewrite map_snd_last by exact Hgne.
        now rewrite <- app_assoc. }
    unfold parseCSV. rewrite Hrun. cbn [app].
    rewrite !map_app, map_map. cbn [map]. f_equal.
    + apply map_ext. intros gs. now rewrite map_map.
    + now rewrite map_map.
Qed.

Lemma parseCSV_reads_back_witness :
  parseCSV (CsvText.lines true
              [ [ (false, "name"); (true, " phone, mobile ") ];
                [ (true, "A " +:+ String quote "B"); (false, "+91 98") ] ])
  = [ [ "name"; "phone, mobile" ]; [ "A " +:+ String quote "B"; "+91 98" ] ].
Proof.
  rewrite (proj1 (parseCSV_reads_back true
                    [ [ (false, "name"); (true, " phone, mobile ") ];
                      [ (true, "A " +:+ String quote "B"); (false, "+91 98") ] ]
                    ltac:(repeat constructor; discriminate))).
  reflexivity.
Defined.

(** ** From the file to the customers *)

(** X15. For a file written as above whose first line is a header with a
    phone column at index [k], [handleCampaignCreate] makes one customer of
    every data line that is not blank, in order, with the trimmed cell at
    index [k] as its phone, or the empty string when the line is too short.
    Blank lines are dropped, and none of the two error messages is shown as
    long as one data line is left. *)
Theorem customers_of_file crlf header data k :
  CsvText.writable (header :: data) ->
  kept_row (CsvText.cells header) = true ->
  findPhoneIndex (map trim (CsvText.cells header)) = Z.of_nat k ->
  List.filter kept_row (map CsvText.cells data) <> [] ->
  read_customers (CsvText.lines crlf (header :: data))
  = Customers (map (fun r => nth k r "")
                   (List.filter kept_row (map CsvText.cells data))).
Proof.
  intros Hw Hh Hk Hd. unfold read_customers.
  rewrite (parseCSV_lines crlf _ Hw). cbn [map List.filter].
  fold (CsvText.cells header). rewrite Hh.
  change (map (map (fun qf : bool * string => trim (snd qf))) data)
    with (map CsvText.cells data).
  destruct (List.filter kept_row (map CsvText.cells data)) as [|r rs]; [congruence |].
  cbn [length Nat.ltb Nat.leb]. rewrite Hk.
  destruct (Z.of_nat k =? -1) eqn:E; [apply Z.eqb_eq in E; lia |].
  now rewrite Nat2Z.id.
Qed.

Lemma customers_of_file_witness :
  read_customers
    (CsvText.lines false
       [ [ (false, "Name"); (false, " Phone ") ];
         [ (false, "Asha"); (true, "+91 98, 76") ];
         [ (false, "") ];
         [ (false, "Ravi") ] ])
  = Customers [ "+91 98, 76"; "" ].
Proof.
  rewrite (customers_of_file false
             [ (false, "Name"); (false, " Phone ") ]
             [ [ (false, "Asha"); (true, "+91 98, 76") ]; [ (false, "") ]; [ (false, "Ravi") ] ]
             1).
  - reflexivity.
  - repeat constructor; discriminate.
  - reflexivity.
  - reflexivity.
  - discriminate.
Defined.

(** * Properties of the campaign driver *)

Import Orchestrator.

(** ** Retries of a dispatch *)

Lemma dispatch_no_phone phone replies n :
  normalizePhone (Some phone) = None ->
  dispatchSingleCall phone replies n = Some (Thrown NoPhoneNumber, []).
Proof. intros Hp. destruct replies; cbn [dispatchSingleCall]; now rewrite Hp. Qed.

Lemma dispatch_more phone replies extra n x :
  dispatchSingleCall phone replies n = Some x ->
  dispatchSingleCall phone (replies ++ extra) n = Some x.
Proof.
  destruct (normalizePhone (Some phone)) as [p|] eqn:Hp;
    [| now rewrite !(dispatch_no_phone _ _ _ Hp)].
  revert n x. induction replies as [|r replies IH]; intros n x;
    cbn [dispatchSingleCall app]; rewrite Hp; [discriminate |].
  destruct r as [resp|]; [| trivial].
  destruct (ok resp); [trivial |].
  destruct (_ && _); [| trivial].
  destruct (n <? 3)%nat; [| trivial].
  destruct (dispatchSingleCall phone replies (S n)) as [[res ps]|] eqn:E; [| discriminate].
  now rewrite (IH _ _ E).
Qed.

Lemma dispatch_settles phone replies n :
  (1 <= length replies)%nat -> (4 <= n + length replies)%nat ->
  exists res ps, dispatchSingleCall phone replies n = Some (res, ps) /\
                 (length ps <= 1 \/ length ps + n <= 4)%nat.
Proof.
  revert n. induction replies as [|r replies IH]; intros n H1 Hlen; [cbn in H1; lia |].
  cbn [dispatchSingleCall].
  destruct (normalizePhone (Some phone)); [| do 2 eexists; split; [reflexivity | cbn; lia]].
  destruct r as [resp|]; [| do 2 eexists; split; [reflexivity | cbn; lia]].
  destruct (ok resp).
  { destruct (r_body resp); do 2 eexists; (split; [reflexivity | cbn; lia]). }
  destruct (_ && _); [| do 2 eexists; split; [reflexivity | cbn; lia]].
  destruct (n <? 3)%nat eqn:Hn; [| do 2 eexists; split; [reflexivity | cbn; lia]].
  apply Nat.ltb_lt in Hn. cbn [length] in Hlen.
  destruct (IH (S n)) as (res & ps & E & Hps); [lia | lia |].
  rewrite E. do 2 eexists. split; [reflexivity |]. cbn [length]. right.
  destruct Hps as [Hps | Hps]; lia.
Qed.

(** X16. [dispatchSingleCall] makes at most four requests for a contact:
    given four replies it always settles, it never looks at a fifth, and it
    pauses at most four times. When all four replies are the 409 of a call
    in progress it throws after having waited each time, for the call named
    in the reply or else for 15 seconds. Without a usable phone number it
    throws before any request. *)
Theorem dispatch_retries_bounded :
  (forall phone replies,
      (4 <= length replies)%nat ->
      exists res ps,
        dispatchSingleCall phone replies 0 = Some (res, ps) /\
        (length ps <= 4)%nat /\
        dispatchSingleCall phone (firstn 4 replies) 0 = Some (res, ps)) /\
  (forall phone p c1 c2 c3 c4 rest,
      normalizePhone (Some phone) = Some p ->
      dispatchSingleCall phone (conflict c1 :: conflict c2 :: conflict c3 :: conflict c4 :: rest) 0
      = Some (Thrown StillInProgress,
              map (fun c => if truthy c then WaitFor c else Sleep 15000) [ c1; c2; c3; c4 ])) /\
  (forall phone replies n,
      normalizePhone (Some phone) = None ->
      dispatchSingleCall phone replies n = Some (Thrown NoPhoneNumber, [])).
Proof.
  split; [| split].
  - intros phone replies Hlen.
    destruct (dispatch_settles phone (firstn 4 replies) 0) as (res & ps & E & Hps).
    { rewrite length_firstn. lia. }
    { rewrite length_firstn. lia. }
    exists res, ps. split; [| split; [lia | exact E]].
    rewrite <- (firstn_skipn 4 replies). now apply dispatch_more.
  - intros phone p c1 c2 c3 c4 rest Hp.
    assert (forall c, or_ (or_ c JUndefined) JUndefined = if truthy c then c else JUndefined)
      as Hor by (intros c; unfold or_; destruct (truthy c) eqn:E; now rewrite ?E).
    assert (forall c, truthy (if truthy c then c else JUndefined) = truthy c) as Htr
      by (intros c; destruct (truthy c) eqn:E; [exact E | reflexivity]).
    cbn [dispatchSingleCall conflict]. rewrite Hp. cbn -[truthy or_]. rewrite !Hor, !Htr.
    repeat f_equal; (destruct (truthy _) eqn:E; [| reflexivity]); reflexivity.
  - intros phone replies n Hp. now apply dispatch_no_phone.
Qed.

Lemma dispatch_retries_bounded_witness :
  exists res ps,
    dispatchSingleCall "98765"
      [ conflict (JStr "c1"); conflict JUndefined; None; None; conflict JUndefined ] 0
    = Some (res, ps) /\ (length ps <= 4)%nat.
Proof.
  destruct (proj1 dispatch_retries_bounded "98765"
              [ conflict (JStr "c1"); conflict JUndefined; None; None; conflict JUndefined ])
    as (res & ps & E & Hps & _); [cbn; lia |].
  now exists res, ps.
Defined.

(** ** Giving up and falling back in the client's polling *)

Lemma wait_failed c start p polls :
  Forall (fun q => failed_poll q = true /\ checked_at q - start < MAX_POLL_TIME) polls ->
  (Client.seenOngoing p = true -> polls <> [] ->
   (10 <= Client.errorStreak p + Z.of_nat (length polls)) ->
   wait_polls c start p polls = Some (Some Client.fallback_record)) /\
  (Client.seenOngoing p = false -> wait_polls c start p polls = None).
Proof.
  intros H. revert p. induction H as [|q polls [Hf Ht] _ IH]; intros p.
  - split; [congruence | reflexivity].
  - assert (Client.iterate c (polled_at q) (detail q) (listed q) p
            = Client.on_error (polled_at q) p) as Hit.
    { unfold failed_poll in Hf. unfold Client.iterate.
      destruct (detail q); [discriminate | reflexivity | reflexivity]. }
    cbn [wait_polls]. rewrite (proj2 (Z.ltb_lt _ _) Ht), Hit. unfold Client.on_error.
    split.
    + intros Hseen _ Hlen. rewrite Hseen. cbn [andb].
      destruct ((10 <=? Client.errorStreak p + 1)
                || (45000 <=? polled_at q - Client.lastSuccessAt p)) eqn:E; [reflexivity |].
      apply orb_false_elim in E as [E _]. apply Z.leb_gt in E.
      apply (proj1 (IH _)); [reflexivity | | cbn in *; lia].
      intros ->. cbn in Hlen. lia.
    + intros Hseen. rewrite Hseen. cbn [andb]. apply (proj2 (IH _)). reflexivity.
Qed.

(** X17. In [waitForCallCompletion], once an Ongoing status has been seen,
    a run of failed detail fetches ends the wait with the fallback record at
    the tenth consecutive failure at the latest, whatever the failures are.
    Before any Ongoing status has been seen no number of failures ends it. A
    loop turn that begins ten minutes or more after the start returns null
    without polling. *)
Theorem client_fallback_bounded :
  (forall c start p polls,
      Forall (fun q => failed_poll q = true /\ checked_at q - start < MAX_POLL_TIME) polls ->
      Client.seenOngoing p = true -> polls <> [] ->
      10 <= Client.errorStreak p + Z.of_nat (length polls) ->
      wait_polls c start p polls = Some (Some Client.fallback_record)) /\
  (forall c start polls,
      Forall (fun q => failed_poll q = true /\ checked_at q - start < MAX_POLL_TIME) polls ->
      waitForCallCompletion c start polls = None) /\
  (forall c start p q polls,
      600000 <= checked_at q - start ->
      wait_polls c start p (q :: polls) = Some None).
Proof.
  split; [| split].
  - intros c start p polls H. apply (wait_failed c start p polls H).
  - intros c start polls H. unfold waitForCallCompletion.
    now apply (wait_failed c start _ polls H).
  - intros c start p q polls H. cbn [wait_polls].
    now rewrite (proj2 (Z.ltb_ge _ _)) by (unfold MAX_POLL_TIME; lia).
Qed.

Lemma client_fallback_bounded_witness :
  wait_polls (JStr "c1") 1000
    {| Client.seenOngoing := true; Client.consecutiveNonOngoing := 0;
       Client.seenOngoingAt := Some 2000; Client.lastListCheckAt := 0;
       Client.errorStreak := 9; Client.lastSuccessAt := 9000 |}
    [ {| checked_at := 10000; polled_at := 10100; detail := Client.NotOk 502;
         listed := Client.Threw |} ]
  = Some (Some Client.fallback_record).
Proof.
  apply (proj1 client_fallback_bounded).
  - repeat constructor.
  - reflexivity.
  - discriminate.
  - cbn. lia.
Defined.

(** ** The campaign's accounts *)

Lemma balanced_count i ok_ r acts st :
  balanced i st -> res_index r = S i -> counts_as_success r = ok_ ->
  length (List.filter is_release acts) = (if ok_ then 1 else 0)%nat ->
  balanced (S i) (count ok_ r acts st).
Proof.
  intros (Hsum & Hidx & Hres & Hrel) Hr Hok Hacts. unfold count, balanced. cbn [fst snd successful failed results].
  rewrite map_app, Hidx, !List.filter_app, !length_app, Hacts. cbn [map List.filter].
  rewrite Hok, Hr. rewrite seq_S. cbn [Nat.add].
  destruct ok_; cbn [length]; repeat split; try lia.
Qed.

Lemma balanced_turn i raw a st : balanced i st -> balanced (S i) (turn i raw a st).
Proof.
  intros H. unfold turn.
  destruct (normalizePhone (Some raw)) as [p|]; [| now apply balanced_count].
  destruct a as [| | [d|]]; try now apply balanced_count.
  destruct (call_status d); now apply balanced_count.
Qed.

Lemma balanced_turns cs i st :
  balanced i st -> balanced (i + length cs) (turns i cs st) /\
                   total (turns i cs st).1 = total st.1.
Proof.
  revert i st. induction cs as [|[raw a] cs IH]; intros i st H; cbn [turns length].
  - rewrite Nat.add_0_r. now split.
  - destruct (IH (S i) (turn i raw a st) (balanced_turn i raw a st H)) as [Hb Ht].
    replace (i + S (length cs))%nat with (S i + length cs)%nat by lia.
    split; [exact Hb |]. rewrite Ht. unfold turn.
    destruct (normalizePhone (Some raw)); [| reflexivity].
    destruct a as [| | [d|]]; try reflexivity. now destruct (call_status d).
Qed.

(** X18. The one-by-one campaign accounts for every customer exactly once:
    at the end successful plus failed equals the number of customers and
    equals total, there is one result per customer with indices 1, 2, ... in
    order, and the backend was asked to release the agent exactly once for
    each customer counted as successful, and never for a skipped or failed
    one. *)
Theorem campaign_accounts (customers : list (string * attempt)) :
  let s := (campaign customers).1 in
  (successful s + failed s = length customers)%nat /\
  total s = length customers /\
  map res_index (results s) = seq 1 (length customers) /\
  successful s = length (List.filter counts_as_success (results s)) /\
  successful s = length (List.filter is_release (campaign customers).2).
Proof.
  destruct (balanced_turns customers 0
              ({| total := length customers; successful := 0; failed := 0; results := [] |}, []))
    as ((Hsum & Hidx & Hres & Hrel) & Ht); [repeat split |].
  cbn [Nat.add] in *. unfold campaign. cbv zeta. repeat split; assumption.
Qed.

(** ** Finding the id of a call in the logs *)

Lemma same_phone_eq a b : same_phone a b = true -> a = b.
Proof.
  destruct a, b; cbn; try discriminate; [| trivial].
  intros H. apply String.eqb_eq in H. now subst.
Qed.

Lemma find_number_sound target arr m :
  find_number target arr = Some (Some m) ->
  In m arr /\ normalizePhone_of (to_number m) = Some target.
Proof.
  induction arr as [|c arr IH]; cbn [find_number]; [discriminate |].
  destruct (normalizePhone_of (to_number c)) as [n|] eqn:En; [| discriminate].
  destruct (same_phone n target) eqn:Es.
  - intros [= <-]. apply same_phone_eq in Es. subst. split; [now left | exact En].
  - intros H. destruct (IH H) as [Hin Hn]. split; [now right | exact Hn].
Qed.

Lemma find_number_first target pre m post :
  Forall (fun c => exists n, normalizePhone_of (to_number c) = Some n /\ n <> target) pre ->
  normalizePhone_of (to_number m) = Some target ->
  find_number target (pre ++ m :: post) = Some (Some m).
Proof.
  intros Hpre Hm. induction Hpre as [|c pre (n & En & Hn) _ IH]; cbn [find_number app].
  - rewrite Hm. destruct target as [t|]; cbn; [now rewrite String.eqb_refl | reflexivity].
  - rewrite En. destruct (same_phone n target) eqn:Es; [| exact IH].
    now apply same_phone_eq in Es.
Qed.

Lemma resolve_lookups_sound target start lookups v :
  resolve_lookups target start lookups = Some v ->
  v = JNull \/
  (truthy v = true /\
   exists q arr m, In q lookups /\ logs q = LogsArray arr /\ In m arr /\
                   normalizePhone_of (to_number m) = Some target /\ log_id m = v).
Proof.
  induction lookups as [|q lookups IH]; cbn [resolve_lookups]; [discriminate |].
  assert (resolve_lookups target start lookups = Some v ->
          v = JNull \/
          (truthy v = true /\
           exists q' arr m, In q' (q :: lookups) /\ logs q' = LogsArray arr /\ In m arr /\
                           normalizePhone_of (to_number m) = Some target /\ log_id m = v))
    as Hrest.
  { intros H. destruct (IH H) as [-> | (Ht & q' & arr & m & Hq & Hrest)]; [now left |].
    right. split; [exact Ht |]. exists q', arr, m. split; [now right | exact Hrest]. }
  destruct (looked_at q - start <? MAX_WAIT_MS); [| intros [= <-]; now left].
  destruct (logs q) as [arr|] eqn:El; [| exact Hrest].
  destruct (find_number target arr) as [[m|]|] eqn:Ef; [| exact Hrest | exact Hrest].
  destruct (truthy (log_id m)) eqn:Et; [| exact Hrest].
  intros [= <-]. right. split; [exact Et |].
  destruct (find_number_sound _ _ _ Ef) as [Hin Hn].
  exists q, arr, m. repeat split; [now left | exact El | exact Hin | exact Hn].
Qed.

(** X19. Whatever [resolveCallLogId] returns is null, or a truthy id taken
    from the dispatch reply, or the truthy id of an entry of a fetched list
    whose number normalizes to the number asked for. In each list only the
    first entry with that number is looked at: when it has no id the list
    is passed over, even if a later entry has the number and an id. A
    lookup that begins 60 seconds or more after the start returns null. *)
Theorem resolve_id_sound :
  (forall d toNumber start lookups v,
      resolveCallLogId d toNumber start lookups = Some v ->
      v = JNull \/
      (truthy v = true /\
       (v = directId d \/
        exists q arr m, In q lookups /\ logs q = LogsArray arr /\ In m arr /\
                        numbered toNumber m /\ log_id m = v))) /\
  (forall d toNumber start at_ pre m post rest,
      truthy (directId d) = false ->
      at_ - start < MAX_WAIT_MS ->
      Forall (fun c => exists n, normalizePhone_of (to_number c) = Some n /\
                                 n <> normalizePhone (Some toNumber)) pre ->
      numbered toNumber m -> truthy (log_id m) = false ->
      resolveCallLogId d toNumber start
        ({| looked_at := at_; logs := LogsArray (pre ++ m :: post) |} :: rest)
      = resolveCallLogId d toNumber start rest) /\
  (forall d toNumber start q rest,
      truthy (directId d) = false ->
      60000 <= looked_at q - start ->
      resolveCallLogId d toNumber start (q :: rest) = Some JNull).
Proof.
  split; [| split].
  - intros d toNumber start lookups v. unfold resolveCallLogId. cbv zeta.
    destruct (truthy (directId d)) eqn:Ed.
    + intros [= <-]. right. split; [exact Ed | now left].
    + intros H. destruct (resolve_lookups_sound _ _ _ _ H) as [-> | (Ht & Hex)]; [now left |].
      right. split; [exact Ht |]. right. exact Hex.
  - intros d toNumber start at_ pre m post rest Hd Hat Hpre Hm Hid.
    unfold resolveCallLogId. rewrite Hd. cbn -[MAX_WAIT_MS normalizePhone].
    rewrite (proj2 (Z.ltb_lt _ _) Hat), (find_number_first _ pre m post Hpre Hm), Hid.
    reflexivity.
  - intros d toNumber start q rest Hd H. unfold resolveCallLogId. rewrite Hd.
    cbn -[MAX_WAIT_MS normalizePhone].
    now rewrite (proj2 (Z.ltb_ge _ _)) by (unfold MAX_WAIT_MS; lia).
Qed.

Lemma resolve_id_sound_witness :
  resolveCallLogId None "+919876" 0
    [ {| looked_at := 10;
         logs := LogsArray [ {| to_number := JStr "91-9876"; log_id := JUndefined |};
                             {| to_number := JStr "+91 9876"; log_id := JNum 7 |} ] |};
      {| looked_at := 60010; logs := LogsOther |} ]
  = Some JNull.
Proof.
  rewrite (proj1 (proj2 resolve_id_sound) None "+919876" 0 10 []
             {| to_number := JStr "91-9876"; log_id := JUndefined |}
             [ {| to_number := JStr "+91 9876"; log_id := JNum 7 |} ]).
  - reflexivity.
  - reflexivity.
  - reflexivity.
  - constructor.
  - reflexivity.
  - reflexivity.
Defined.

